(** * Verification of the VIP / VIPTR encoder and recognition head (doctr)

    Shallow embedding of the parts of
    - [doctr/models/classification/vip/pytorch.py] (encoder, windowing),
    - [doctr/models/classification/vip/layers/pytorch.py] (layers),
    - [doctr/models/recognition/vip/{base,pytorch}.py] and
      [doctr/models/recognition/viptr/pytorch.py] (recognition head),
    that the claims are about.

    Tensors are modelled at two levels:
    - shapes ([list nat]) with the failure conditions of torch's
      [view]/[reshape], [permute], [Conv2d], [Linear], [LayerNorm], ...
      (the result is [None] where torch raises);
    - values, as a shape together with a function from a multi-index to an
      element, for the index-rearranging functions [img2windows] and
      [windows2img]. *)

From Stdlib Require Import String Ascii.
From Stdlib Require Import List Arith Lia PeanoNat Bool ZArith.
Import ListNotations.

Definition obind {X Y : Type} (m : option X) (f : X -> option Y) : option Y :=
  match m with Some x => f x | None => None end.

Notation "x <- m ;; k" := (obind m (fun x => k))
  (at level 61, m at next level, right associativity).

(** Python's [a // b]: [ZeroDivisionError] when [b = 0]. *)
Definition pydiv (a b : nat) : option nat :=
  if b =? 0 then None else Some (a / b).

(** ** Shapes *)

Definition numel (s : list nat) : nat := fold_right Nat.mul 1 s.

(** One entry of the target shape of [view]/[reshape]: a size, or [-1]. *)
Inductive dimspec := Fix (n : nat) | Infer.

Fixpoint fixed_prod (t : list dimspec) : nat :=
  match t with
  | [] => 1
  | Fix n :: t' => n * fixed_prod t'
  | Infer :: t' => fixed_prod t'
  end.

Fixpoint count_infer (t : list dimspec) : nat :=
  match t with
  | [] => 0
  | Fix _ :: t' => count_infer t'
  | Infer :: t' => S (count_infer t')
  end.

Definition fill_infer (t : list dimspec) (k : nat) : list nat :=
  map (fun d => match d with Fix n => n | Infer => k end) t.

(** torch's [infer_size]: without [-1] the element counts must agree; with
    one [-1] the product of the other sizes must be positive and divide the
    element count (a tensor of 0 elements cannot be viewed with a [-1]
    beside a zero-sized dimension); two [-1] are refused. *)
Definition infer_size (t : list dimspec) (n : nat) : option (list nat) :=
  let newsize := fixed_prod t in
  match count_infer t with
  | 0 => if n =? newsize then Some (fill_infer t 0) else None
  | 1 => if (0 <? newsize) && (n mod newsize =? 0)
         then Some (fill_infer t (n / newsize)) else None
  | _ => None
  end.

Definition view_shape (s : list nat) (t : list dimspec) : option (list nat) :=
  infer_size t (numel s).

(** [permute(p)] requires [p] to be a permutation of [0 .. ndim-1]. *)
Definition is_perm (p : list nat) (n : nat) : bool :=
  (length p =? n) && forallb (fun j => existsb (Nat.eqb j) p) (seq 0 n).

Definition permute_shape (p : list nat) (s : list nat) : option (list nat) :=
  if is_perm p (length s) then Some (map (fun k => nth k s 0) p) else None.

(** ** Row-major indexing *)

(** Flat offset of a multi-index, computed on the reversed shape and index
    (innermost dimension first). *)
Fixpoint flat_rev (rs ri : list nat) : nat :=
  match rs, ri with
  | n :: rs', i :: ri' => i + n * flat_rev rs' ri'
  | _, _ => 0
  end.

Fixpoint unflat_rev (rs : list nat) (k : nat) : list nat :=
  match rs with
  | [] => []
  | n :: rs' => k mod n :: unflat_rev rs' (k / n)
  end.

Definition flat_index (s idx : list nat) : nat := flat_rev (rev s) (rev idx).
Definition unflat_index (s : list nat) (k : nat) : list nat :=
  rev (unflat_rev (rev s) k).

(** Position of dimension [j] in a permutation [p]. *)
Fixpoint pos_of (j : nat) (p : list nat) : nat :=
  match p with
  | [] => 0
  | a :: p' => if a =? j then 0 else S (pos_of j p')
  end.

(** ** Tensors with values *)

Section Tensors.

Variable A : Type.

Record tensor := mkT { shape : list nat; get : list nat -> A }.

(** [x.view(t)] / [x.reshape(t)] on a contiguous tensor: the element at a
    new multi-index is the one at the same row-major offset. *)
Definition view (x : tensor) (t : list dimspec) : option tensor :=
  s' <- view_shape (shape x) t ;;
  Some (mkT s' (fun idx => get x (unflat_index (shape x) (flat_index s' idx)))).

(** [x.permute(p)] (followed or not by [.contiguous()]): dimension [k] of
    the result is dimension [p[k]] of [x]. *)
Definition permute (x : tensor) (p : list nat) : option tensor :=
  s' <- permute_shape p (shape x) ;;
  Some (mkT s' (fun idx =>
    get x (map (fun j => nth (pos_of j p) idx 0) (seq 0 (length p))))).

(** [img2windows] (classification/vip/pytorch.py and
    [LePEAttention.img2windows] in layers/pytorch.py, identical):
<<
    b, c, h, w = img.shape
    img_reshape = img.view(b, c, h // h_sp, h_sp, w // w_sp, w_sp)
    img_perm = img_reshape.permute(0, 2, 4, 3, 5, 1).contiguous().reshape(-1, h_sp * w_sp, c)
>> *)
Definition img2windows (img : tensor) (h_sp w_sp : nat) : option tensor :=
  match shape img with
  | [b; c; h; w] =>
      hn <- pydiv h h_sp ;;
      wn <- pydiv w w_sp ;;
      r <- view img [Fix b; Fix c; Fix hn; Fix h_sp; Fix wn; Fix w_sp] ;;
      p <- permute r [0; 2; 4; 3; 5; 1] ;;
      view p [Infer; Fix (h_sp * w_sp); Fix c]
  | _ => None
  end.

(** [windows2img]:
<<
    b_merged = int(img_splits_hw.shape[0] / (h * w / h_sp / w_sp))
    img = img_splits_hw.view(b_merged, h // h_sp, w // w_sp, h_sp, w_sp, -1)
    img = img.permute(0, 1, 3, 2, 4, 5).contiguous().view(b_merged, h, w, -1)
>>
    The float quotient is taken exactly and truncated ([int]); Python raises
    [ZeroDivisionError] when [h_sp], [w_sp] or [h * w] is zero. *)
Definition windows2img (x : tensor) (h_sp w_sp h w : nat) : option tensor :=
  match shape x with
  | [] => None
  | n0 :: _ =>
      if (h_sp =? 0) || (w_sp =? 0) || (h * w =? 0) then None else
      let b_merged := (n0 * h_sp * w_sp) / (h * w) in
      hn <- pydiv h h_sp ;;
      wn <- pydiv w w_sp ;;
      r <- view x [Fix b_merged; Fix hn; Fix wn; Fix h_sp; Fix w_sp; Infer] ;;
      p <- permute r [0; 1; 3; 2; 4; 5] ;;
      view p [Fix b_merged; Fix h; Fix w; Infer]
  end.

End Tensors.

Arguments mkT {A}.
Arguments shape {A}.
Arguments get {A}.
Arguments view {A}.
Arguments permute {A}.
Arguments img2windows {A}.
Arguments windows2img {A}.

(** A 1x2x2x2 feature map whose elements are their own row-major offsets. *)
Definition x_c1 : tensor nat := mkT [1; 2; 2; 2] (flat_index [1; 2; 2; 2]).

(** ** Shape semantics of torch layers

    Each function returns the output shape, or [None] where torch raises.
    Only batched 4-D input is modelled for 2-D convolutions: the modules
    below always feed them (b, c, h, w) tensors, and the [BatchNorm2d] that
    follows most of them refuses anything else. *)

(** [nn.Conv2d(c_in, c_out, (k_h, k_w), (s_h, s_w), (p_h, p_w), groups=g)]. *)
Record conv2d := mkConv {
  c_in : nat; c_out : nat; k_h : nat; k_w : nat;
  s_h : nat; s_w : nat; p_h : nat; p_w : nat; groups : nat }.

(** Output size along one axis (dilation 1); torch refuses a padded input
    smaller than the kernel. *)
Definition conv_out (i k s p : nat) : option nat :=
  if i + 2 * p <? k then None else Some ((i + 2 * p - k) / s + 1).

Definition conv2d_shape (m : conv2d) (x : list nat) : option (list nat) :=
  match x with
  | [b; c; h; w] =>
      if c =? c_in m then
        oh <- conv_out h (k_h m) (s_h m) (p_h m) ;;
        ow <- conv_out w (k_w m) (s_w m) (p_w m) ;;
        Some [b; c_out m; oh; ow]
      else None
  | _ => None
  end.

(** [nn.LayerNorm(d)] normalises over the last dimension, which must be [d]. *)
Definition layer_norm_shape (d : nat) (x : list nat) : option (list nat) :=
  match rev x with
  | d' :: _ => if d' =? d then Some x else None
  | [] => None
  end.

(** [nn.Linear(i, o)] acts on the last dimension. *)
Definition linear_shape (i o : nat) (x : list nat) : option (list nat) :=
  match rev x with
  | d :: rest => if d =? i then Some (rev (o :: rest)) else None
  | [] => None
  end.

(** [PatchMerging] (layers/pytorch.py and classification/vip/pytorch.py,
    same code up to [.contiguous()]):
<<
    self.reduction = nn.Conv2d(dim, out_dim, 3, (2, 1), 1)
    self.norm = nn.LayerNorm(out_dim)
    ...
    x = x.permute(0, 3, 1, 2)
    x = self.reduction(x).permute(0, 2, 3, 1)
    return self.norm(x)
>> *)
Definition pm_reduction (dim out_dim : nat) : conv2d :=
  mkConv dim out_dim 3 3 2 1 1 1 1.

Definition patch_merging_shape (dim out_dim : nat) (x : list nat) : option (list nat) :=
  y <- permute_shape [0; 3; 1; 2] x ;;
  y <- conv2d_shape (pm_reduction dim out_dim) y ;;
  y <- permute_shape [0; 2; 3; 1] y ;;
  layer_norm_shape out_dim y.

(** ** Cross-shaped windows *)

(** The configuration of a [LePEAttention] mixer that decides its windows. *)
Record lepe_cfg := mkLePE {
  lepe_dim : nat; lepe_idx : Z; lepe_split : nat; lepe_heads : nat }.

(** [LePEAttention._get_split] (layers/pytorch.py):
<<
    h, w = size
    if self.idx == -1: return h, w
    elif self.idx == 0: return h, self.split_size
    elif self.idx == 1: return self.split_size, w
    else: raise ValueError("idx must be -1, 0, or 1")
>> *)
Definition get_split (a : lepe_cfg) (size : nat * nat) : option (nat * nat) :=
  let '(h, w) := size in
  if Z.eqb (lepe_idx a) (-1) then Some (h, w)
  else if Z.eqb (lepe_idx a) 0 then Some (h, lepe_split a)
  else if Z.eqb (lepe_idx a) 1 then Some (lepe_split a, w)
  else None.

(** The same choice in [LePEAttention.im2cswin] / [get_lepe] / [forward] of
    classification/vip/pytorch.py, returned as [(H_sp, W_sp)]:
<<
    if self.idx == -1: H_sp, W_sp = H, W
    elif self.idx == 0: H_sp, W_sp = H, self.split_size
    elif self.idx == 1: W_sp, H_sp = W, self.split_size
>>
    (another [idx] leaves [H_sp] unbound: [UnboundLocalError]). *)
Definition cswin_split (a : lepe_cfg) (size : nat * nat) : option (nat * nat) :=
  let '(H, W) := size in
  if Z.eqb (lepe_idx a) (-1) then Some (H, W)
  else if Z.eqb (lepe_idx a) 0 then Some (H, lepe_split a)
  else if Z.eqb (lepe_idx a) 1 then
    let '(W_sp, H_sp) := (W, lepe_split a) in Some (H_sp, W_sp)
  else None.

(** [CrossShapedWindowAttention.__init__] (layers/pytorch.py):
<<
    self.attns = nn.ModuleList([
        LePEAttention(dim // 2, resolution=patches_resolution, idx=i,
                      split_size=split_size, num_heads=num_heads // 2, dim_out=dim // 2)
        for i in range(2)])
>> *)
Definition cross_shaped_attns (dim num_heads split_size : nat) : list lepe_cfg :=
  map (fun i => mkLePE (dim / 2) (Z.of_nat i) split_size (num_heads / 2)) (seq 0 2).

(** [CSWinBlock.__init__] (classification/vip/pytorch.py): [last_stage] is
    reset to [False], so [branch_num = 2]. *)
Definition cswin_block_attns (dim num_heads split_size : nat) : list lepe_cfg :=
  let last_stage := false in
  let branch_num := if last_stage then 1 else 2 in
  map (fun i => mkLePE (dim / 2) (Z.of_nat i) split_size (num_heads / 2)) (seq 0 branch_num).

(** The two branches of the forward of both blocks, with [c] channels:
<<
    x1 = self.attns[0](qkv[:, :, :, : c // 2], size)
    x2 = self.attns[1](qkv[:, :, :, c // 2 :], size)
>>
    each given as its mixer and the channel range [[lo, hi)] it gets. *)
Definition cswin_branches (attns : list lepe_cfg) (c : nat)
  : list (option lepe_cfg * (nat * nat)) :=
  [(nth_error attns 0, (0, c / 2)); (nth_error attns 1, (c / 2, c))].

(** ** Target encoding (recognition/vip/base.py) *)

Fixpoint omap {X Y : Type} (f : X -> option Y) (l : list X) : option (list Y) :=
  match l with
  | [] => Some []
  | x :: l' => y <- f x ;; ys <- omap f l' ;; Some (y :: ys)
  end.

(** Python's [str.index(x)]: the first position of [x]; [ValueError] when
    [x] does not occur. *)
Fixpoint str_index (s : string) (x : ascii) : option nat :=
  match s with
  | EmptyString => None
  | String c s' => if Ascii.eqb c x then Some 0 else option_map S (str_index s' x)
  end.

(** numpy's [row[:n] = vals] on a 1-D row: the slice has [min n (len row)]
    entries; [vals] must have that length or length 1 (broadcast), else
    [ValueError]. *)
Definition assign_prefix (row : list nat) (n : nat) (vals : list nat) : option (list nat) :=
  let l := Nat.min n (length row) in
  if length vals =? l then Some (vals ++ skipn l row)
  else if length vals =? 1 then Some (repeat (hd 0 vals) l ++ skipn l row)
  else None.

(** One iteration of the loop of [build_target] on a row of zeros:
<<
    encoded[i][: len(seq)] = [self.vocab.index(x) + 1 for x in seq]  # 0 is reserved
>>
    The array is a float array of [np.zeros]; its entries are the integers
    modelled here. *)
Definition encode_row (vocab : string) (max_length : nat) (sq : string) : option (list nat) :=
  vals <- omap (fun x => i <- str_index vocab x ;; Some (i + 1)) (list_ascii_of_string sq) ;;
  assign_prefix (repeat 0 max_length) (String.length sq) vals.

(** [_VIPTR.build_target]:
<<
    seq_len = [len(word) for word in gts]
    encoded = np.zeros((len(gts), self.max_length))
    for i, seq in enumerate(gts):
        encoded[i][: len(seq)] = [self.vocab.index(x) + 1 for x in seq]
    return encoded, seq_len
>> *)
Definition build_target (vocab : string) (max_length : nat) (gts : list string)
  : option (list (list nat) * list nat) :=
  let seq_len := map String.length gts in
  rows <- omap (encode_row vocab max_length) gts ;;
  Some (rows, seq_len).

(** ** CTC decoding and loss

    Floating-point numbers are kept abstract: [Fltb] is the comparison
    [a < b] used by [max], [min] and [argmax]; [Fexp], [Flog], [Fadd],
    [Fsub], [Fdiv] and [Fofnat] are the arithmetic of [softmax],
    [log_softmax] and of the mean reduction. A logits tensor (B, T, C) is
    a list of B samples, each a list of T rows of C scores. *)

Section CTC.

Variable F : Type.
Variable Fltb : F -> F -> bool.
Variables Fexp Flog : F -> F.
Variables Fadd Fsub Fdiv : F -> F -> F.
Variable F0 : F.
Variable Fofnat : nat -> F.

(** [torch.max(dim=-1).values] and [torch.min(dim=1).values] on one row;
    a reduction over an empty dimension raises. *)
Definition fmax (a b : F) : F := if Fltb a b then b else a.
Definition fmin (a b : F) : F := if Fltb b a then b else a.

Definition list_max (l : list F) : option F :=
  match l with [] => None | x :: r => Some (fold_left fmax r x) end.

Definition list_min (l : list F) : option F :=
  match l with [] => None | x :: r => Some (fold_left fmin r x) end.

(** [torch.argmax(dim=-1)] on one row: the first index of a maximal value. *)
Fixpoint argmax_from (l : list F) (i best : nat) (bv : F) : nat :=
  match l with
  | [] => best
  | x :: r => if Fltb bv x then argmax_from r (S i) i x else argmax_from r (S i) best bv
  end.

Definition argmax_row (l : list F) : option nat :=
  match l with [] => None | x :: r => Some (argmax_from r 1 0 x) end.

Definition softmax_row (r : list F) : list F :=
  let s := fold_right Fadd F0 (map Fexp r) in map (fun x => Fdiv (Fexp x) s) r.

Definition log_softmax_row (r : list F) : list F :=
  let s := Flog (fold_right Fadd F0 (map Fexp r)) in map (fun x => Fsub x s) r.

(** [F.softmax(logits, dim=-1).max(dim=-1).values.min(dim=1).values] for one
    sample. *)
Definition ctc_confidence (sample : list (list F)) : option F :=
  maxes <- omap (fun r => list_max (softmax_row r)) sample ;;
  list_min maxes.

(** The keys of [itertools.groupby(seq)]: runs of equal values collapsed. *)
Fixpoint groupby_keys (l : list nat) : list nat :=
  match l with
  | [] => []
  | x :: r =>
      match groupby_keys r with
      | y :: r' => if x =? y then y :: r' else x :: y :: r'
      | [] => [x]
      end
  end.

(** Modelled from the spec: [decode_sequence] of [doctr.datasets] ("map
    remaining indices back to vocabulary characters"); an index outside the
    vocabulary is an error. *)
Fixpoint decode_sequence (input_seq : list nat) (mapping : string) : option string :=
  match input_seq with
  | [] => Some EmptyString
  | k :: r => c <- String.get k mapping ;; s <- decode_sequence r mapping ;; Some (String c s)
  end.

(** [VIPTRPostProcessor.ctc_best_path] of [recognition/viptr]:
<<
    probs = F.softmax(logits, dim=-1).max(dim=-1).values.min(dim=1).values
    preds_indices = torch.argmax(logits, dim=-1)
    words = [
        decode_sequence([k - 1 for k, _ in groupby(seq.tolist()) if k != blank], vocab) for seq in preds_indices
    ]
    return list(zip(words, probs.tolist()))
>> *)
Definition ctc_best_path (logits : list (list (list F))) (vocab : string) (blank : nat)
  : option (list (string * F)) :=
  probs <- omap ctc_confidence logits ;;
  preds_indices <- omap (fun s => omap argmax_row s) logits ;;
  words <- omap (fun sq => decode_sequence
             (map (fun k => k - 1) (filter (fun k => negb (k =? blank)) (groupby_keys sq))) vocab)
           preds_indices ;;
  Some (combine words probs).

(** [Tensor.max()] without a dimension, over all the elements; on a tensor
    with no element it raises. *)
Definition tensor_max (l : list nat) : option nat :=
  match l with [] => None | x :: r => Some (fold_left Nat.max r x) end.

(** The same function in [recognition/vip], which prints the largest
    predicted index and decodes [k] itself:
<<
    probs = F.softmax(logits, dim=-1).max(dim=-1).values.min(dim=1).values
    preds_indices = torch.argmax(logits, dim=-1)
    print(preds_indices.max())
    words = [decode_sequence([k for k, _ in groupby(seq.tolist()) if k != blank], vocab) for seq in preds_indices]
    return list(zip(words, probs.tolist()))
>> *)
Definition ctc_best_path_vip (logits : list (list (list F))) (vocab : string) (blank : nat)
  : option (list (string * F)) :=
  probs <- omap ctc_confidence logits ;;
  preds_indices <- omap (fun s => omap argmax_row s) logits ;;
  _ <- tensor_max (concat preds_indices) ;;
  words <- omap (fun sq => decode_sequence
             (filter (fun k => negb (k =? blank)) (groupby_keys sq)) vocab)
           preds_indices ;;
  Some (combine words probs).

(** A per-sample CTC negative log-likelihood is finite or [+inf] (no
    alignment of the target fits in the input). *)
Inductive ext : Type := Fin (x : F) | Inf.

(** The per-sample negative log-likelihood computed by the CTC forward
    algorithm of [torch.nn.functional.ctc_loss], from the (input_length, C)
    log-probabilities of the sample and its target. It is library code and
    stays abstract. *)
Variable ctc_nll : list (list F) -> list nat -> ext.

(** [permute(1, 0, 2)] of a (B, T, C) tensor given as B lists of T rows. *)
Fixpoint transpose {X : Type} (T : nat) (x : list (list X)) : list (list X) :=
  match x with
  | [] => repeat [] T
  | s :: r => map (fun '(row, col) => row :: col) (combine s (transpose T r))
  end.

(** [F.ctc_loss(log_probs, targets, input_lengths, target_lengths,
    zero_infinity=True)] with the default [blank=0] and [reduction="mean"]:
    sample [i] uses [log_probs[:input_lengths[i], i]] and
    [targets[i, :target_lengths[i]]]; infinite losses are replaced by zero;
    each loss is divided by its target length (clamped to at least 1) and
    the results are averaged over the batch. Lengths beyond the tensor
    sizes, or a batch size that differs between the arguments, raise. *)
Definition ctc_loss_zero_inf (log_probs : list (list (list F))) (targets : list (list nat))
    (input_lengths target_lengths : list nat) : option F :=
  let B := length targets in
  let T := length log_probs in
  if negb (forallb (fun tb => length tb =? B) log_probs) then None else
  if negb ((length input_lengths =? B) && (length target_lengths =? B)) then None else
  terms <- omap (fun '(i, il, tl) =>
      tgt <- nth_error targets i ;;
      if (T <? il) || (length tgt <? tl) then None else
      let lp := map (fun tb => nth i tb []) (firstn il log_probs) in
      let l := match ctc_nll lp (firstn tl tgt) with Fin v => v | Inf => F0 end in
      Some (Fdiv l (Fofnat (Nat.max 1 tl))))
    (combine (combine (seq 0 B) input_lengths) target_lengths) ;;
  Some (Fdiv (fold_right Fadd F0 terms) (Fofnat B)).

(** [VIPTR.compute_loss] of [recognition/viptr]:
<<
    batch_len = model_output.shape[0]
    input_length = model_output.shape[1] * torch.ones(size=(batch_len,), dtype=torch.int32)
    preds = model_output.log_softmax(2).permute(1, 0, 2)
    ctc_loss = F.ctc_loss(preds, gt, input_length, seq_len, zero_infinity=True)
>>
    [recognition/vip] makes the same call through
    [nn.CTCLoss(zero_infinity=True)]. The shape of a (B, T, C) output is read
    from its first sample. *)
Definition compute_loss (model_output : list (list (list F))) (gt : list (list nat))
    (seq_len : list nat) : option F :=
  let batch_len := length model_output in
  let T := match model_output with [] => 0 | s :: _ => length s end in
  let input_length := repeat T batch_len in
  let preds := transpose T (map (map log_softmax_row) model_output) in
  ctc_loss_zero_inf preds gt input_length seq_len.

End CTC.

Arguments fmax {F} Fltb a b.
Arguments fmin {F} Fltb a b.
Arguments list_max {F} Fltb l.
Arguments list_min {F} Fltb l.
Arguments argmax_from {F} Fltb l i best bv.
Arguments argmax_row {F} Fltb l.
Arguments softmax_row {F} Fexp Fadd Fdiv F0 r.
Arguments log_softmax_row {F} Fexp Flog Fadd Fsub F0 r.
Arguments ctc_confidence {F} Fltb Fexp Fadd Fdiv F0 sample.
Arguments ctc_best_path {F} Fltb Fexp Fadd Fdiv F0 logits vocab blank.
Arguments ctc_best_path_vip {F} Fltb Fexp Fadd Fdiv F0 logits vocab blank.
Arguments Fin {F} x.
Arguments Inf {F}.
Arguments transpose {X} T x.
Arguments ctc_loss_zero_inf {F} Fadd Fdiv F0 Fofnat ctc_nll log_probs targets input_lengths target_lengths.
Arguments compute_loss {F} Fexp Flog Fadd Fsub Fdiv F0 Fofnat ctc_nll model_output gt seq_len.

(** A row of logits over three classes whose maximum is at class [k]. *)
Definition onehot_logits (k : nat) : list nat := map (fun j => if j =? k then 5 else 0) [0;1;2].

(** ** Forward pass of the recognition model

    The calls of [forward] are recorded in a trace of events; a call that
    raises, or the explicit [raise ValueError(...)], ends the computation
    with an exception. *)

Inductive event : Type := EFeat | EHead | EPost | EBuildTarget | ELoss.

(** [LabelsMissing] is [ValueError("Need to provide labels during
    training.")]; [Raised e] is an exception raised inside the call [e]. *)
Inductive exn : Type := LabelsMissing | Raised (e : event).

Definition M (X : Type) : Type := (list event * (exn + X))%type.

Definition ret {X : Type} (x : X) : M X := ([], inr x).

Definition raise {X : Type} (e : exn) : M X := ([], inl e).

Definition mbind {X Y : Type} (m : M X) (k : X -> M Y) : M Y :=
  match m with
  | (t, inl e) => (t, inl e)
  | (t, inr x) => let '(t', r) := k x in (t ++ t', r)
  end.

Notation "x <-! m ;; k" := (mbind m (fun x => k))
  (at level 61, m at next level, right associativity).

(** A call [e] of a component that raises where the model gives [None]. *)
Definition call {X : Type} (e : event) (r : option X) : M X :=
  match r with Some x => ([e], inr x) | None => ([e], inl (Raised e)) end.

Definition is_none {X : Type} (o : option X) : bool :=
  match o with None => true | Some _ => false end.

Definition list_max_nat (l : list nat) : option nat :=
  match l with [] => None | x :: r => Some (fold_left Nat.max r x) end.

Section Forward.

(** Images, backbone features, logits, decoded predictions and losses are
    opaque; the components are the backbone [feat_extractor], the head
    ([features[:, :max_length]], [self.head], [.view(B, N, len(vocab)+1)]),
    [_bf16_to_float32], the postprocessor and [compute_loss]. *)
Variables Tin Tfeat Tlogits Tpreds Tloss : Type.
Variable feat_extractor : Tin -> option Tfeat.
Variable head : Tfeat -> option Tlogits.
Variable to_float32 : Tlogits -> Tlogits.
Variable postprocessor : Tlogits -> option Tpreds.
Variable loss_fn : Tlogits -> list (list nat) -> list nat -> option Tloss.
Variable vocab : string.
Variable max_length : nat.
(** [recognition/vip] only: the last dimension of the features and the
    features taken as logits. *)
Variable last_dim : Tfeat -> nat.
Variable feat_as_logits : Tfeat -> Tlogits.

Inductive value : Type := VLogits (l : Tlogits) | VPreds (p : Tpreds) | VLoss (l : Tloss).

(**
<<
    _gt, _seq_len = self.build_target(target)
    gt = torch.from_numpy(_gt).to(dtype=torch.long, device=x.device)
    seq_len = torch.tensor(_seq_len, device=x.device)
    gt = gt[:, : (int(seq_len.max().item()) + 1)]
>>
    The maximum of an empty tensor raises. *)
Definition prepare_target (target : list string) : option (list (list nat) * list nat) :=
  gs <- build_target vocab max_length target ;;
  m <- list_max_nat (snd gs) ;;
  Some (map (firstn (m + 1)) (fst gs), snd gs).

(** The outputs after the exportable check, shared by both variants:
<<
        if return_model_output:
            out["out_map"] = decoded_features
        if target is None or return_preds:
            out["preds"] = _postprocess(decoded_features)
>> *)
Definition forward_outputs (decoded_features : Tlogits) (no_target : bool)
    (return_model_output return_preds : bool) : M (list (string * value)) :=
  let out := if return_model_output then [("out_map"%string, VLogits decoded_features)] else [] in
  if no_target || return_preds then
    p <-! call EPost (postprocessor decoded_features) ;; ret (out ++ [("preds"%string, VPreds p)])
  else ret out.

(** [VIPTR.forward] of [recognition/viptr]. *)
Definition forward_viptr (training exportable : bool) (x : Tin) (target : option (list string))
    (return_model_output return_preds : bool) : M (list (string * value)) :=
  features <-! call EFeat (feat_extractor x) ;;
  logits <-! call EHead (head features) ;;
  let decoded_features := to_float32 logits in
  if training && is_none target then raise LabelsMissing else
  if exportable then ret [("logits"%string, VLogits decoded_features)] else
  out <-! forward_outputs decoded_features (is_none target) return_model_output return_preds ;;
  match target with
  | None => ret out
  | Some t =>
      gs <-! call EBuildTarget (prepare_target t) ;;
      l <-! call ELoss (loss_fn decoded_features (fst gs) (snd gs)) ;;
      ret (out ++ [("loss"%string, VLoss l)])
  end.

(** [VIPTR.forward] of [recognition/vip]: the head is skipped when the
    features already have [len(vocab) + 1] channels, and the targets are
    built before the exportable check. *)
Definition forward_vip (training exportable : bool) (x : Tin) (target : option (list string))
    (return_model_output return_preds : bool) : M (list (string * value)) :=
  features <-! call EFeat (feat_extractor x) ;;
  logits <-! (if negb (last_dim features =? String.length vocab + 1)
              then call EHead (head features) else ret (feat_as_logits features)) ;;
  let decoded_features := to_float32 logits in
  if training && is_none target then raise LabelsMissing else
  gts <-! (match target with
           | Some t => gs <-! call EBuildTarget (prepare_target t) ;; ret (Some gs)
           | None => ret None
           end) ;;
  if exportable then ret [("logits"%string, VLogits decoded_features)] else
  out <-! forward_outputs decoded_features (is_none target) return_model_output return_preds ;;
  match gts with
  | None => ret out
  | Some gs =>
      l <-! call ELoss (loss_fn decoded_features (fst gs) (snd gs)) ;;
      ret (out ++ [("loss"%string, VLoss l)])
  end.

End Forward.

Arguments VLogits {Tlogits Tpreds Tloss} l.
Arguments VPreds {Tlogits Tpreds Tloss} p.
Arguments VLoss {Tlogits Tpreds Tloss} l.
Arguments forward_viptr {Tin Tfeat Tlogits Tpreds Tloss} feat_extractor head to_float32
  postprocessor loss_fn vocab max_length training exportable x target return_model_output return_preds.
Arguments forward_vip {Tin Tfeat Tlogits Tpreds Tloss} feat_extractor head to_float32
  postprocessor loss_fn vocab max_length last_dim feat_as_logits training exportable x target
  return_model_output return_preds.

(** ** Shapes of the encoder ([classification/vip/pytorch.py])

    More shape rules of torch, then the modules of the encoder, each as the
    function from its input shape to its output shape. Activations, dropout,
    [DropPath], [softmax] and multiplication by a scalar keep the shape and
    are left out. *)

(** Two sizes of a broadcasting operation. *)
Definition bcast (a b : nat) : option nat :=
  if a =? b then Some a else if a =? 1 then Some b else if b =? 1 then Some a else None.

(** Element-wise [a + b], for operands of the same rank (every use below). *)
Definition add_shape (a b : list nat) : option (list nat) :=
  if length a =? length b then omap (fun '(x, y) => bcast x y) (combine a b) else None.

(** [a @ b], for operands of the same rank, at least 2 (every use below);
    the batch dimensions broadcast. *)
Definition matmul_shape (a b : list nat) : option (list nat) :=
  match rev a, rev b with
  | m :: n :: ra, p :: m' :: rb =>
      if (m =? m') && (length ra =? length rb) then
        bs <- omap (fun '(x, y) => bcast x y) (combine (rev ra) (rev rb)) ;;
        Some (bs ++ [n; p])
      else None
  | _, _ => None
  end.

(** [x.transpose(i, j)], with non-negative [i] and [j]. *)
Definition transpose_shape (i j : nat) (s : list nat) : option (list nat) :=
  if (i <? length s) && (j <? length s) then
    permute_shape (map (fun k => if k =? i then j else if k =? j then i else k) (seq 0 (length s))) s
  else None.

(** [x[i]]. *)
Definition select_shape (i : nat) (s : list nat) : option (list nat) :=
  match s with n :: r => if i <? n then Some r else None | [] => None end.

(** [x[..., lo:hi]] on dimension [k] ([hi = None] for an open end); Python
    slices clamp their bounds. *)
Definition slice_shape (k lo : nat) (hi : option nat) (s : list nat) : option (list nat) :=
  if k <? length s then
    let n := nth k s 0 in
    let e := match hi with Some h => Nat.min h n | None => n end in
    Some (firstn k s ++ [e - Nat.min lo n] ++ skipn (S k) s)
  else None.

(** [torch.cat([a, b], dim=k)]. *)
Definition cat_shape (k : nat) (a b : list nat) : option (list nat) :=
  if (length a =? length b) && (k <? length a) &&
     forallb (fun i => (i =? k) || (nth i a 0 =? nth i b 0)) (seq 0 (length a))
  then Some (firstn k a ++ [nth k a 0 + nth k b 0] ++ skipn (S k) a)
  else None.

(** [x1, x2 = torch.chunk(x, chunks=2, dim=k)]: chunks of [ceil(n / 2)]
    entries; a dimension of size 1 gives a single chunk, and the unpacking
    raises. *)
Definition chunk2_shape (k : nat) (s : list nat) : option (list nat * list nat) :=
  if k <? length s then
    let n := nth k s 0 in
    let c := (n + 1) / 2 in
    if n =? 1 then None
    else Some (firstn k s ++ [c] ++ skipn (S k) s, firstn k s ++ [n - c] ++ skipn (S k) s)
  else None.

(** [x.flatten(1)]. *)
Definition flatten1_shape (s : list nat) : option (list nat) :=
  match s with
  | b :: (_ :: _) as r => Some [b; numel r]
  | _ => None
  end.

(** [x.squeeze(k)]. *)
Definition squeeze_shape (k : nat) (s : list nat) : option (list nat) :=
  if k <? length s then
    if nth k s 0 =? 1 then Some (firstn k s ++ skipn (S k) s) else Some s
  else None.

(** [nn.AdaptiveAvgPool2d((oh, ow))] on a 4-D input, whose non-batch sizes
    must be non-zero. *)
Definition adaptive_avg_pool2d_shape (oh ow : nat) (s : list nat) : option (list nat) :=
  match s with
  | [n; c; h; w] => if (c =? 0) || (h =? 0) || (w =? 0) then None else Some [n; c; oh; ow]
  | _ => None
  end.

(** [nn.BatchNorm2d(c)]: a 4-D input with [c] channels; in training mode
    one value per channel raises ([ValueError: Expected more than 1 value
    per channel when training]). *)
Definition batch_norm2d_shape (training : bool) (c : nat) (s : list nat) : option (list nat) :=
  match s with
  | [n; c'; h; w] =>
      if negb (c' =? c) then None
      else if training && (n * h * w =? 1) then None
      else Some s
  | _ => None
  end.

(** [FeedForward(in_dim, hidden_dim)]:
<<
    out_chans = out_chans or in_dim
    hidden_dim = hidden_dim or in_dim
    nn.Linear(in_dim, hidden_dim), act_layer(), nn.Dropout(dropout),
    nn.Linear(hidden_dim, out_chans), nn.Dropout(dropout)
>> *)
Definition feed_forward_shape (in_dim hidden_dim : nat) (x : list nat) : option (list nat) :=
  let hidden_dim := if hidden_dim =? 0 then in_dim else hidden_dim in
  y <- linear_shape in_dim hidden_dim x ;;
  linear_shape hidden_dim in_dim y.

(** [Attention.forward] (the mixer of [MHSA_Block]):
<<
    _, N, C = x.shape
    qkv = self.qkv(x).reshape((-1, N, 3, self.num_heads, C // self.num_heads)).permute((2, 0, 3, 1, 4))
    q, k, v = qkv[0] * self.scale, qkv[1], qkv[2]
    attn = q.matmul(k.permute((0, 1, 3, 2)))
    x = attn.matmul(v).permute((0, 2, 1, 3)).reshape((-1, N, C))
    x = self.proj(x)
>> *)
Definition attention_shape (dim num_heads : nat) (x : list nat) : option (list nat) :=
  match x with
  | [_; N; C] =>
      qkv <- linear_shape dim (dim * 3) x ;;
      hd <- pydiv C num_heads ;;
      qkv <- view_shape qkv [Infer; Fix N; Fix 3; Fix num_heads; Fix hd] ;;
      qkv <- permute_shape [2; 0; 3; 1; 4] qkv ;;
      q <- select_shape 0 qkv ;;
      k <- select_shape 1 qkv ;;
      v <- select_shape 2 qkv ;;
      kt <- permute_shape [0; 1; 3; 2] k ;;
      attn <- matmul_shape q kt ;;
      y <- matmul_shape attn v ;;
      y <- permute_shape [0; 2; 1; 3] y ;;
      y <- view_shape y [Infer; Fix N; Fix C] ;;
      linear_shape dim dim y
  | _ => None
  end.

(** [MHSA_Block.forward]:
<<
    x = x + self.drop_path(self.mixer(self.norm1(x)))
    x = x + self.drop_path(self.mlp(self.norm2(x)))
>>
    with [mlp_hidden_dim = int(dim * mlp_ratio)]. *)
Definition mhsa_block_shape (dim num_heads mlp_ratio : nat) (x : list nat) : option (list nat) :=
  y <- layer_norm_shape dim x ;;
  a <- attention_shape dim num_heads y ;;
  x <- add_shape x a ;;
  y <- layer_norm_shape dim x ;;
  m <- feed_forward_shape dim (dim * mlp_ratio) y ;;
  add_shape x m.

(** The module-level [img2windows] on shapes (the function of the value
    model above). *)
Definition img2windows_shape (s : list nat) (H_sp W_sp : nat) : option (list nat) :=
  match s with
  | [B; C; H; W] =>
      hn <- pydiv H H_sp ;;
      wn <- pydiv W W_sp ;;
      y <- view_shape s [Fix B; Fix C; Fix hn; Fix H_sp; Fix wn; Fix W_sp] ;;
      y <- permute_shape [0; 2; 4; 3; 5; 1] y ;;
      view_shape y [Infer; Fix (H_sp * W_sp); Fix C]
  | _ => None
  end.

(** The module-level [windows2img] on shapes (the function of the value
    model above). *)
Definition windows2img_shape (s : list nat) (H_sp W_sp H W : nat) : option (list nat) :=
  match s with
  | [] => None
  | n0 :: _ =>
      if (H_sp =? 0) || (W_sp =? 0) || (H * W =? 0) then None else
      let B := (n0 * H_sp * W_sp) / (H * W) in
      hn <- pydiv H H_sp ;;
      wn <- pydiv W W_sp ;;
      y <- view_shape s [Fix B; Fix hn; Fix wn; Fix H_sp; Fix W_sp; Infer] ;;
      y <- permute_shape [0; 1; 3; 2; 4; 5] y ;;
      view_shape y [Fix B; Fix H; Fix W; Infer]
  end.

(** [self.get_v = nn.Conv2d(dim, dim, kernel_size=3, stride=1, padding=1, groups=dim)]. *)
Definition get_v (a : lepe_cfg) : conv2d :=
  mkConv (lepe_dim a) (lepe_dim a) 3 3 1 1 1 1 (lepe_dim a).

(** [LePEAttention.im2cswin]:
<<
    B, N, C = x.shape
    H, W = size
    x = x.transpose(-2, -1).contiguous().view(B, C, H, W)
    (H_sp, W_sp chosen by idx)
    x = img2windows(x, H_sp, W_sp)
    x = x.reshape(-1, H_sp * W_sp, self.num_heads, C // self.num_heads).permute(0, 2, 1, 3)
>> *)
Definition im2cswin_shape (a : lepe_cfg) (x : list nat) (size : nat * nat) : option (list nat) :=
  match x with
  | [B; N; C] =>
      let '(H, W) := size in
      y <- transpose_shape 1 2 x ;;
      y <- view_shape y [Fix B; Fix C; Fix H; Fix W] ;;
      sp <- cswin_split a (H, W) ;;
      let '(H_sp, W_sp) := sp in
      y <- img2windows_shape y H_sp W_sp ;;
      hd <- pydiv C (lepe_heads a) ;;
      y <- view_shape y [Infer; Fix (H_sp * W_sp); Fix (lepe_heads a); Fix hd] ;;
      permute_shape [0; 2; 1; 3] y
  | _ => None
  end.

(** [LePEAttention.get_lepe] with [func = self.get_v]:
<<
    B, N, C = x.shape
    H, W = size
    x = x.transpose(-2, -1).contiguous().view(B, C, H, W)
    (H_sp, W_sp chosen by idx)
    x = x.view(B, C, H // H_sp, H_sp, W // W_sp, W_sp)
    x = x.permute(0, 2, 4, 1, 3, 5).contiguous().reshape(-1, C, H_sp, W_sp)
    lepe = func(x)
    lepe = lepe.reshape(-1, self.num_heads, C // self.num_heads, H_sp * W_sp).permute(0, 1, 3, 2)
    x = x.reshape(-1, self.num_heads, C // self.num_heads, H_sp * W_sp).permute(0, 1, 3, 2)
    return x, lepe
>> *)
Definition get_lepe_shape (a : lepe_cfg) (x : list nat) (size : nat * nat)
  : option (list nat * list nat) :=
  match x with
  | [B; N; C] =>
      let '(H, W) := size in
      y <- transpose_shape 1 2 x ;;
      y <- view_shape y [Fix B; Fix C; Fix H; Fix W] ;;
      sp <- cswin_split a (H, W) ;;
      let '(H_sp, W_sp) := sp in
      hn <- pydiv H H_sp ;;
      wn <- pydiv W W_sp ;;
      y <- view_shape y [Fix B; Fix C; Fix hn; Fix H_sp; Fix wn; Fix W_sp] ;;
      y <- permute_shape [0; 2; 4; 1; 3; 5] y ;;
      y <- view_shape y [Infer; Fix C; Fix H_sp; Fix W_sp] ;;
      lepe <- conv2d_shape (get_v a) y ;;
      hd <- pydiv C (lepe_heads a) ;;
      lepe <- view_shape lepe [Infer; Fix (lepe_heads a); Fix hd; Fix (H_sp * W_sp)] ;;
      lepe <- permute_shape [0; 1; 3; 2] lepe ;;
      y <- view_shape y [Infer; Fix (lepe_heads a); Fix hd; Fix (H_sp * W_sp)] ;;
      y <- permute_shape [0; 1; 3; 2] y ;;
      Some (y, lepe)
  | _ => None
  end.

(** [LePEAttention.forward(qkv, size)]:
<<
    q, k, v = qkv[0], qkv[1], qkv[2]
    H, W = size
    B, L, C = q.shape
    (H_sp, W_sp chosen by idx)
    q = self.im2cswin(q, size)
    k = self.im2cswin(k, size)
    v, lepe = self.get_lepe(v, self.get_v, size)
    attn = (q * self.scale) @ k.transpose(-2, -1)
    x = (attn @ v) + lepe
    x = x.transpose(1, 2).reshape(-1, H_sp * W_sp, C)
    x = windows2img(x, H_sp, W_sp, H, W).view(B, -1, C)
>> *)
Definition lepe_forward_shape (a : lepe_cfg) (qkv : list nat) (size : nat * nat)
  : option (list nat) :=
  q <- select_shape 0 qkv ;;
  k <- select_shape 1 qkv ;;
  v <- select_shape 2 qkv ;;
  let '(H, W) := size in
  match q with
  | [B; L; C] =>
      sp <- cswin_split a (H, W) ;;
      let '(H_sp, W_sp) := sp in
      q <- im2cswin_shape a q size ;;
      k <- im2cswin_shape a k size ;;
      vl <- get_lepe_shape a v size ;;
      let '(v, lepe) := vl in
      kt <- transpose_shape 2 3 k ;;
      attn <- matmul_shape q kt ;;
      y <- matmul_shape attn v ;;
      y <- add_shape y lepe ;;
      y <- transpose_shape 1 2 y ;;
      y <- view_shape y [Infer; Fix (H_sp * W_sp); Fix C] ;;
      y <- windows2img_shape y H_sp W_sp H W ;;
      view_shape y [Fix B; Infer; Fix C]
  | _ => None
  end.

(** [CSWinBlock.forward(x, size)]:
<<
    H, W = size
    B, L, C = x.shape
    assert L == H * W, "flatten img_tokens has wrong size"
    img = self.norm1(x)
    qkv = self.qkv(img).reshape(B, -1, 3, C).permute(2, 0, 1, 3)
    if self.branch_num == 2:
        x1 = self.attns[0](qkv[:, :, :, : C // 2], size)
        x2 = self.attns[1](qkv[:, :, :, C // 2 :], size)
        attened_x = torch.cat([x1, x2], dim=2)
    else:
        attened_x = self.attns[0](qkv, size)
    attened_x = self.proj(attened_x)
    x = x + self.drop_path(attened_x)
    x = x + self.drop_path(self.mlp(self.norm2(x)))
>> *)
Definition cswin_block_shape (dim num_heads split_size mlp_ratio : nat) (x : list nat)
    (size : nat * nat) : option (list nat) :=
  match x with
  | [B; L; C] =>
      let '(H, W) := size in
      if negb (L =? H * W) then None else
      img <- layer_norm_shape dim x ;;
      qkv <- linear_shape dim (dim * 3) img ;;
      qkv <- view_shape qkv [Fix B; Infer; Fix 3; Fix C] ;;
      qkv <- permute_shape [2; 0; 1; 3] qkv ;;
      ax <- (match cswin_block_attns dim num_heads split_size with
             | [a0; a1] =>
                 q1 <- slice_shape 3 0 (Some (C / 2)) qkv ;;
                 x1 <- lepe_forward_shape a0 q1 size ;;
                 q2 <- slice_shape 3 (C / 2) None qkv ;;
                 x2 <- lepe_forward_shape a1 q2 size ;;
                 cat_shape 2 x1 x2
             | [a0] => lepe_forward_shape a0 qkv size
             | _ => None
             end) ;;
      ax <- linear_shape dim dim ax ;;
      x <- add_shape x ax ;;
      y <- layer_norm_shape dim x ;;
      m <- feed_forward_shape dim (dim * mlp_ratio) y ;;
      add_shape x m
  | _ => None
  end.

(** [OSRA_Attention.sr]: for [sr_ratio > 1]
<<
    *conv_sequence_pt(dim, dim, kernel_size=sr_ratio + 3, stride=sr_ratio,
                      padding=(sr_ratio + 3) // 2, groups=dim, bias=False, bn=True, relu=False),
    nn.GELU(),
    *conv_sequence_pt(dim, dim, kernel_size=1, groups=dim, bias=False, bn=True, relu=False),
>>
    else [nn.Identity()]. Modelled from the spec: [conv_sequence_pt] of
    [doctr.models.utils] is not in src; the spec calls the reduction a
    depthwise strided convolution, and each [conv_sequence_pt] here is a
    [Conv2d] with the arguments above followed by a [BatchNorm2d] ([bn=True]). *)
Definition osra_sr_shape (training : bool) (dim sr_ratio : nat) (x : list nat) : option (list nat) :=
  if 1 <? sr_ratio then
    y <- conv2d_shape (mkConv dim dim (sr_ratio + 3) (sr_ratio + 3) sr_ratio sr_ratio
                         ((sr_ratio + 3) / 2) ((sr_ratio + 3) / 2) dim) x ;;
    y <- batch_norm2d_shape training dim y ;;
    y <- conv2d_shape (mkConv dim dim 1 1 1 1 0 0 dim) y ;;
    batch_norm2d_shape training dim y
  else Some x.

(** [OSRA_Attention.forward(x, size)] (no relative position encoding):
<<
    B, N, C = x.shape
    H, W = size
    x = x.permute(0, 2, 1).contiguous().reshape(B, -1, H, W)
    q = self.q(x).reshape(B, self.num_heads, C // self.num_heads, -1).transpose(-1, -2)
    kv = self.sr(x)
    kv = self.local_conv(kv) + kv
    k, v = torch.chunk(self.kv(kv), chunks=2, dim=1)
    k = k.reshape(B, self.num_heads, C // self.num_heads, -1)
    v = v.reshape(B, self.num_heads, C // self.num_heads, -1).transpose(-1, -2)
    attn = (q @ k) * self.scale
    attn = torch.softmax(attn, dim=-1)
    x = (attn @ v).transpose(-1, -2).contiguous().reshape(B, C, -1)
    x = x.permute(0, 2, 1).contiguous()
>> *)
Definition osra_attention_shape (training : bool) (dim num_heads sr_ratio : nat) (x : list nat)
    (size : nat * nat) : option (list nat) :=
  match x with
  | [B; N; C] =>
      let '(H, W) := size in
      x <- permute_shape [0; 2; 1] x ;;
      x <- view_shape x [Fix B; Infer; Fix H; Fix W] ;;
      q <- conv2d_shape (mkConv dim dim 1 1 1 1 0 0 1) x ;;
      hd <- pydiv C num_heads ;;
      q <- view_shape q [Fix B; Fix num_heads; Fix hd; Infer] ;;
      q <- transpose_shape 2 3 q ;;
      kv <- osra_sr_shape training dim sr_ratio x ;;
      lc <- conv2d_shape (mkConv dim dim 3 3 1 1 1 1 dim) kv ;;
      kv <- add_shape lc kv ;;
      kv <- conv2d_shape (mkConv dim (dim * 2) 1 1 1 1 0 0 1) kv ;;
      kv2 <- chunk2_shape 1 kv ;;
      let '(k, v) := kv2 in
      k <- view_shape k [Fix B; Fix num_heads; Fix hd; Infer] ;;
      v <- view_shape v [Fix B; Fix num_heads; Fix hd; Infer] ;;
      v <- transpose_shape 2 3 v ;;
      attn <- matmul_shape q k ;;
      y <- matmul_shape attn v ;;
      y <- transpose_shape 2 3 y ;;
      y <- view_shape y [Fix B; Fix C; Infer] ;;
      permute_shape [0; 2; 1] y
  | _ => None
  end.

(** [OSRA_Block.forward(x, relative_pos_enc)]:
<<
    x = x + self.drop_path(self.token_mixer(self.norm1(x), relative_pos_enc))
    x = x + self.drop_path(self.mlp(self.norm2(x)))
>>
    [BasicLayer] calls [gblk(x2, size)], so the size (H, W) arrives as
    [relative_pos_enc] and is passed on as the [size] of [token_mixer]. *)
Definition osra_block_shape (training : bool) (dim sr_ratio num_heads mlp_ratio : nat)
    (x : list nat) (relative_pos_enc : nat * nat) : option (list nat) :=
  y <- layer_norm_shape dim x ;;
  a <- osra_attention_shape training dim num_heads sr_ratio y relative_pos_enc ;;
  x <- add_shape x a ;;
  y <- layer_norm_shape dim x ;;
  m <- feed_forward_shape dim (dim * mlp_ratio) y ;;
  add_shape x m.

(** [BasicLayer.proj] of an "LG1" layer:
<<
    inner_dim = max(16, embed_dim // 8)
    nn.Conv2d(embed_dim, embed_dim, kernel_size=3, padding=1, groups=embed_dim), nn.GELU(),
    nn.BatchNorm2d(embed_dim), nn.Conv2d(embed_dim, inner_dim, kernel_size=1), nn.GELU(),
    nn.BatchNorm2d(inner_dim), nn.Conv2d(inner_dim, embed_dim, kernel_size=1),
    nn.BatchNorm2d(embed_dim)
>> *)
Definition lg1_proj_shape (training : bool) (embed_dim : nat) (x : list nat) : option (list nat) :=
  let inner_dim := Nat.max 16 (embed_dim / 8) in
  y <- conv2d_shape (mkConv embed_dim embed_dim 3 3 1 1 1 1 embed_dim) x ;;
  y <- batch_norm2d_shape training embed_dim y ;;
  y <- conv2d_shape (mkConv embed_dim inner_dim 1 1 1 1 0 0 1) y ;;
  y <- batch_norm2d_shape training inner_dim y ;;
  y <- conv2d_shape (mkConv inner_dim embed_dim 1 1 1 1 0 0 1) y ;;
  batch_norm2d_shape training embed_dim y.

(** The arguments of one [BasicLayer]; [layer_out_dim] is [None] where the
    constructor passes [out_dim=None]. *)
Record layer_cfg := mkLayer {
  layer_embed_dim : nat; layer_out_dim : option nat; layer_depth : nat;
  layer_num_heads : nat; layer_mlp_ratio : nat; layer_split_size : nat;
  layer_sr_ratio : nat; layer_mixer_type : string; layer_downsample : bool }.

(** [for blk in self.blocks: x = step(x)] over [depth] blocks. *)
Fixpoint iter_shape (n : nat) (step : list nat -> option (list nat)) (x : list nat)
  : option (list nat) :=
  match n with
  | 0 => Some x
  | S n' => y <- step x ;; iter_shape n' step y
  end.

(** [BasicLayer.forward(x, size)]:
<<
    b, h, w, d = x.size()
    if self.mixer_type == "Local1":
        for blk in self.blocks:
            x = x.flatten(1).reshape(b, -1, d)
            x = blk(x, size)
            x = x.reshape(b, h, w, -1)
    elif self.mixer_type == "Global2":
        (the same with the MHSA blocks)
    elif self.mixer_type == "LG1":
        for lblk, gblk in zip(self.local_unit, self.global_unit):
            x = x.flatten(1).reshape(b, -1, d)
            x1, x2 = torch.chunk(x, chunks=2, dim=2)
            x1 = lblk(x1, size)
            x2 = gblk(x2, size)
            x = torch.cat([x1, x2], dim=2)
            x = x.transpose(1, 2).contiguous().reshape(b, -1, h, w)
            x = self.proj(x) + x
            x = x.permute(0, 2, 3, 1).contiguous()
            x = x.reshape(b, h, w, -1)
    if self.downsample is not None:
        x = self.downsample(x)
>>
    with the blocks built by [__init__]: [CSWinBlock(embed_dim, num_heads,
    split_size, mlp_ratio)] for "Local1", [MHSA_Block(embed_dim, num_heads,
    mlp_ratio)] for "Global2", and for "LG1" [CSWinBlock(embed_dim // 2,
    num_heads, split_size, mlp_ratio)] and [OSRA_Block(embed_dim // 2,
    sr_ratio, num_heads // 2, mlp_ratio)]; [downsample] is
    [PatchMerging(embed_dim, out_dim)]. *)
Definition basic_layer_shape (training : bool) (l : layer_cfg) (x : list nat) (size : nat * nat)
  : option (list nat) :=
  match x with
  | [b; h; w; d] =>
      x <- (if String.eqb (layer_mixer_type l) "Local1" then
              iter_shape (layer_depth l) (fun x =>
                x <- flatten1_shape x ;;
                x <- view_shape x [Fix b; Infer; Fix d] ;;
                x <- cswin_block_shape (layer_embed_dim l) (layer_num_heads l)
                       (layer_split_size l) (layer_mlp_ratio l) x size ;;
                view_shape x [Fix b; Fix h; Fix w; Infer]) x
            else if String.eqb (layer_mixer_type l) "Global2" then
              iter_shape (layer_depth l) (fun x =>
                x <- flatten1_shape x ;;
                x <- view_shape x [Fix b; Infer; Fix d] ;;
                x <- mhsa_block_shape (layer_embed_dim l) (layer_num_heads l) (layer_mlp_ratio l) x ;;
                view_shape x [Fix b; Fix h; Fix w; Infer]) x
            else if String.eqb (layer_mixer_type l) "LG1" then
              iter_shape (layer_depth l) (fun x =>
                x <- flatten1_shape x ;;
                x <- view_shape x [Fix b; Infer; Fix d] ;;
                p <- chunk2_shape 2 x ;;
                let '(x1, x2) := p in
                x1 <- cswin_block_shape (layer_embed_dim l / 2) (layer_num_heads l)
                        (layer_split_size l) (layer_mlp_ratio l) x1 size ;;
                x2 <- osra_block_shape training (layer_embed_dim l / 2) (layer_sr_ratio l)
                        (layer_num_heads l / 2) (layer_mlp_ratio l) x2 size ;;
                x <- cat_shape 2 x1 x2 ;;
                x <- transpose_shape 1 2 x ;;
                x <- view_shape x [Fix b; Infer; Fix h; Fix w] ;;
                y <- lg1_proj_shape training (layer_embed_dim l) x ;;
                x <- add_shape y x ;;
                x <- permute_shape [0; 2; 3; 1] x ;;
                view_shape x [Fix b; Fix h; Fix w; Infer]) x
            else Some x) ;;
      if layer_downsample l then
        match layer_out_dim l with
        | Some o => patch_merging_shape (layer_embed_dim l) o x
        | None => None
        end
      else Some x
  | _ => None
  end.

(** [ConvBNLayer]: convolution, [BatchNorm2d(out_channels)], activation. *)
Definition conv_bn_layer_shape (training : bool) (m : conv2d) (x : list nat) : option (list nat) :=
  y <- conv2d_shape m x ;;
  batch_norm2d_shape training (c_out m) y.

(** [PatchEmbed.forward]: two [ConvBNLayer(kernel_size=3, stride=2,
    padding=1)], [in_chans -> embed_dim // 2 -> embed_dim], then
    [.permute(0, 2, 3, 1)]. *)
Definition patch_embed_shape (training : bool) (in_chans embed_dim : nat) (x : list nat)
  : option (list nat) :=
  y <- conv_bn_layer_shape training (mkConv in_chans (embed_dim / 2) 3 3 2 2 1 1 1) x ;;
  y <- conv_bn_layer_shape training (mkConv (embed_dim / 2) embed_dim 3 3 2 2 1 1 1) y ;;
  permute_shape [0; 2; 3; 1] y.

(** The arguments of [VIPTRNet] that decide shapes. *)
Record viptr_cfg := mkVIPTR {
  in_chans : nat; out_dim : nat; embed_dims : list nat; depths : list nat;
  num_heads : list nat; mlp_ratios : list nat; split_sizes : list nat;
  sr_ratios : list nat; mixer_types : list string }.

Definition VIPTRv2 : viptr_cfg :=
  mkVIPTR 3 384 [64; 128; 256] [3; 3; 3] [2; 4; 8] [3; 4; 4] [1; 2; 4] [4; 2; 2]
    ["Local1"; "LG1"; "Global2"]%string.

Definition VIPTRv2B : viptr_cfg :=
  mkVIPTR 3 384 [128; 256; 384] [3; 6; 9] [4; 8; 12] [4; 4; 4] [1; 2; 4] [4; 2; 2]
    ["Local1"; "LG1"; "Global2"]%string.

(** The layers built by [VIPTRNet.__init__]:
<<
    for i_layer in range(self.num_layers):
        BasicLayer(embed_dim=embed_dims[i_layer],
                   out_dim=embed_dims[i_layer + 1] if (i_layer < self.num_layers - 1) else None,
                   depth=depths[i_layer], num_heads=num_heads[i_layer], mlp_ratio=mlp_ratios[i_layer],
                   split_size=split_sizes[i_layer], sr_ratio=sr_ratios[i_layer],
                   downsample=PatchMerging if (i_layer in [0, 1]) else None,
                   mixer_type=mixer_types[i_layer], ...)
>> *)
Definition viptr_layers (cfg : viptr_cfg) : list layer_cfg :=
  let n := length (depths cfg) in
  map (fun i => mkLayer (nth i (embed_dims cfg) 0)
                  (if i <? n - 1 then nth_error (embed_dims cfg) (S i) else None)
                  (nth i (depths cfg) 0) (nth i (num_heads cfg) 0) (nth i (mlp_ratios cfg) 0)
                  (nth i (split_sizes cfg) 0) (nth i (sr_ratios cfg) 0)
                  (nth i (mixer_types cfg) ""%string) ((i =? 0) || (i =? 1)))
    (seq 0 n).

(** The loop of [forward_features]; the width [W] of the size stays the
    one after the patch embedding:
<<
    for layer in self.layers:
        x = layer(x, (H, W))
        H = x.shape[1]
>> *)
Fixpoint layers_shape (training : bool) (ls : list layer_cfg) (x : list nat) (H W : nat)
  : option (list nat) :=
  match ls with
  | [] => Some x
  | l :: ls' =>
      x <- basic_layer_shape training l x (H, W) ;;
      H <- nth_error x 1 ;;
      layers_shape training ls' x H W
  end.

(** [VIPTRNet.forward_features]:
<<
    x = self.patch_embed(x)
    _, H, W, _ = x.shape
    (the loop of the layers)
    x = self.norm(x)                    # nn.LayerNorm(embed_dims[-1])
    x = x.permute(0, 2, 3, 1)
    x = self.pooling(x)                 # nn.AdaptiveAvgPool2d((embed_dims[num_layers - 1], 1))
    x = x.squeeze(3)
    x = self.mlp_head(x)                # nn.Linear(embed_dims[num_layers - 1], out_dim, bias=False), ...
>> *)
Definition forward_features_shape (training : bool) (cfg : viptr_cfg) (x : list nat)
  : option (list nat) :=
  let e_last := nth (length (depths cfg) - 1) (embed_dims cfg) 0 in
  x <- patch_embed_shape training (in_chans cfg) (nth 0 (embed_dims cfg) 0) x ;;
  match x with
  | [_; H; W; _] =>
      x <- layers_shape training (viptr_layers cfg) x H W ;;
      x <- layer_norm_shape (last (embed_dims cfg) 0) x ;;
      x <- permute_shape [0; 2; 3; 1] x ;;
      x <- adaptive_avg_pool2d_shape e_last 1 x ;;
      x <- squeeze_shape 3 x ;;
      linear_shape e_last (out_dim cfg) x
  | _ => None
  end.

(** The result of a layer whose blocks keep the shape: the downsampling. *)
Definition layer_downsampled (l : layer_cfg) (x : list nat) : option (list nat) :=
  match x with
  | [_; _; _; d] =>
      if layer_downsample l then
        match layer_out_dim l with
        | Some o => patch_merging_shape d o x
        | None => None
        end
      else Some x
  | _ => None
  end.

(** ** Shapes of the recognition head *)

(** [VIPTR.forward] of recognition/viptr, from the features to the logits:
<<
    features = features[:, : self.max_length]
    B, N, E = features.size()
    logits = self.head(features).view(B, N, len(self.vocab) + 1)
>>
    with [self.head = nn.Linear(embedding_units, len(vocab) + 1)]; the
    unpacking raises unless the features have three dimensions. *)
Definition viptr_logits_shape (vocab : string) (embedding_units max_length : nat)
    (features : list nat) : option (list nat) :=
  f <- slice_shape 1 0 (Some max_length) features ;;
  match f with
  | [B; N; E] =>
      l <- linear_shape embedding_units (String.length vocab + 1) f ;;
      view_shape l [Fix B; Fix N; Fix (String.length vocab + 1)]
  | _ => None
  end.

(** The same step of [VIPTR.forward] of recognition/vip, whose [if] branch
    is the code above:
<<
    if features.size(-1) != (len(self.vocab) + 1):
        features = features[:, : self.max_length]
        B, N, E = features.size()
        logits = self.head(features).view(B, N, len(self.vocab) + 1)
    else:
        logits = features
>>
    ([size(-1)] of a 0-dimensional tensor raises). *)
Definition vip_logits_shape (vocab : string) (embedding_units max_length : nat)
    (features : list nat) : option (list nat) :=
  match rev features with
  | [] => None
  | e :: _ =>
      if negb (e =? String.length vocab + 1)
      then viptr_logits_shape vocab embedding_units max_length features
      else Some features
  end.

(** ** Construction of the encoder ([VIPTRNet.__init__]) *)

(** Python's [l[i]]: a negative [i] counts from the end; [IndexError]
    out of range. *)
Definition py_index {A : Type} (l : list A) (i : Z) : option A :=
  if (i <? 0)%Z then
    if (Z.of_nat (length l) + i <? 0)%Z then None
    else nth_error l (Z.to_nat (Z.of_nat (length l) + i))
  else nth_error l (Z.to_nat i).

(** The arguments of [VIPTRNet] indexed per layer, beside those of
    [viptr_cfg]; their values do not matter here, only their lengths. *)
Record viptr_net_args := mkNetArgs {
  net_cfg : viptr_cfg; init_values : list nat; heads_ranges : list nat;
  use_checkpoints : list bool; chunkwise_recurrents : list bool; layerscales : list bool }.

(** [VIPTRNet()] with its default arguments. *)
Definition viptr_net_defaults : viptr_net_args :=
  mkNetArgs (mkVIPTR 3 192 [96; 192; 384; 768] [2; 2; 6; 2] [3; 6; 12; 24] [3; 3; 3; 3]
               [1; 2; 2; 4] [8; 4; 2; 1] ["Local1"; "LG1"; "Global2"]%string)
    [1; 1; 1; 1] [3; 3; 3; 3] [false; false; false; false] [true; true; false; false]
    [false; false; false; false].

(** The arguments passed by [VIPTRv2()] and [VIPTRv2B()] ([use_checkpoints]
    keeps its default). *)
Definition VIPTRv2_args : viptr_net_args :=
  mkNetArgs VIPTRv2 [2; 2; 2] [4; 4; 6] [false; false; false; false] [true; false; false]
    [false; false; false].

Definition VIPTRv2B_args : viptr_net_args :=
  mkNetArgs VIPTRv2B [2; 2; 2] [6; 6; 6] [false; false; false; false] [true; false; false]
    [false; false; false].

(** An exception of [VIPTRNet.__init__]: an [IndexError] of a list
    argument, or an exception of the construction of layer [i]. *)
Inductive init_error : Type := IndexError | BasicLayerError (i : nat).

(** Whether every list argument has an entry [i]. *)
Definition layer_index_ok (a : viptr_net_args) (n i : nat) : bool :=
  let c := net_cfg a in
  (i <? length (embed_dims c)) && (negb (i <? n - 1) || (S i <? length (embed_dims c))) &&
  (i <? length (depths c)) && (i <? length (num_heads c)) && (i <? length (init_values a)) &&
  (i <? length (heads_ranges a)) && (i <? length (mlp_ratios c)) &&
  (i <? length (split_sizes c)) && (i <? length (sr_ratios c)) &&
  (i <? length (chunkwise_recurrents a)) && (i <? length (use_checkpoints a)) &&
  (i <? length (mixer_types c)) && (i <? length (layerscales a)).

Section VIPTRNetInit.

(** Whether [BasicLayer(...)] returns when building layer [i]; its
    constructor is not modelled. *)
Variable basic_layer_ok : nat -> bool.

(** The arguments of layer [i] of [n], evaluated in the order of the call:
<<
    layer = BasicLayer(
        embed_dim=embed_dims[i_layer],
        out_dim=embed_dims[i_layer + 1] if (i_layer < self.num_layers - 1) else None,
        depth=depths[i_layer],
        num_heads=num_heads[i_layer],
        init_value=init_values[i_layer],
        heads_range=heads_ranges[i_layer],
        mlp_ratio=mlp_ratios[i_layer],
        split_size=split_sizes[i_layer],
        sr_ratio=sr_ratios[i_layer],
        ...
        drop_path=dpr[sum(depths[:i_layer]) : sum(depths[: i_layer + 1])],
        chunkwise_recurrent=chunkwise_recurrents[i_layer],
        downsample=PatchMerging if (i_layer in [0, 1]) else None,
        use_checkpoint=use_checkpoints[i_layer],
        mixer_type=mixer_types[i_layer],
        layerscale=layerscales[i_layer],
        ...)
>>
    ([None] is an [IndexError]; a slice never raises). *)
Definition layer_args (a : viptr_net_args) (n i : nat) : option layer_cfg :=
  let c := net_cfg a in
  e <- nth_error (embed_dims c) i ;;
  o <- (if i <? n - 1 then option_map Some (nth_error (embed_dims c) (S i)) else Some None) ;;
  d <- nth_error (depths c) i ;;
  h <- nth_error (num_heads c) i ;;
  _ <- nth_error (init_values a) i ;;
  _ <- nth_error (heads_ranges a) i ;;
  m <- nth_error (mlp_ratios c) i ;;
  s <- nth_error (split_sizes c) i ;;
  r <- nth_error (sr_ratios c) i ;;
  _ <- nth_error (chunkwise_recurrents a) i ;;
  _ <- nth_error (use_checkpoints a) i ;;
  t <- nth_error (mixer_types c) i ;;
  _ <- nth_error (layerscales a) i ;;
  Some (mkLayer e o d h m s r t ((i =? 0) || (i =? 1))).

(** The loop [for i_layer in range(self.num_layers)] of [__init__]. *)
Fixpoint build_layers (a : viptr_net_args) (n : nat) (is : list nat)
  : init_error + list layer_cfg :=
  match is with
  | [] => inr []
  | i :: is' =>
      match layer_args a n i with
      | None => inl IndexError
      | Some l =>
          if basic_layer_ok i then
            match build_layers a n is' with
            | inl err => inl err
            | inr ls => inr (l :: ls)
            end
          else inl (BasicLayerError i)
      end
  end.

(** [VIPTRNet.__init__], up to the layers it builds:
<<
    self.num_layers = len(depths)
    self.embed_dim = embed_dims[0]
    self.num_features = embed_dims[-1]
    self.patch_embed = PatchEmbed(in_chans=in_chans, embed_dim=embed_dims[0], ...)
    (the loop of the layers)
    self.pooling = nn.AdaptiveAvgPool2d((embed_dims[self.num_layers - 1], 1))
    self.mlp_head = nn.Sequential(nn.Linear(embed_dims[self.num_layers - 1], out_dim, bias=False), ...)
    self.norm = nn.LayerNorm(embed_dims[-1], eps=layer_init_values)
>>
    The constructors of [PatchEmbed], [AdaptiveAvgPool2d], [Linear] and
    [LayerNorm] take sizes only and are taken to return. *)
Definition viptr_net_init (a : viptr_net_args) : init_error + list layer_cfg :=
  let c := net_cfg a in
  let n := length (depths c) in
  match nth_error (embed_dims c) 0, py_index (embed_dims c) (-1)%Z with
  | Some _, Some _ =>
      match build_layers a n (seq 0 n) with
      | inl err => inl err
      | inr ls =>
          match py_index (embed_dims c) (Z.of_nat n - 1)%Z with
          | Some _ => inr ls
          | None => inl IndexError
          end
      end
  | _, _ => inl IndexError
  end.

End VIPTRNetInit.

(** ** Model builders ([_viptr] of recognition/viptr and recognition/vip) *)

(** The Python values the builders pass around; a float literal is kept as
    its text, since it is only stored. *)
#[warnings="-register-all"]
Inductive pyval : Type :=
  | PStr (s : string)
  | PInt (n : nat)
  | PBool (b : bool)
  | PFloat (lit : string)
  | PTuple (l : list pyval)
  | PDict (d : list (string * pyval))
  | PNone.

(** A [dict] as an association list with distinct keys: [d.get(k)] and
    [d[k] = v] (an existing key keeps its place, a new key goes last). *)
Fixpoint dict_get {V : Type} (k : string) (d : list (string * V)) : option V :=
  match d with
  | [] => None
  | (k', v) :: d' => if String.eqb k k' then Some v else dict_get k d'
  end.

Fixpoint dict_set {V : Type} (k : string) (v : V) (d : list (string * V)) : list (string * V) :=
  match d with
  | [] => [(k, v)]
  | (k', v') :: d' => if String.eqb k k' then (k, v) :: d' else (k', v') :: dict_set k v d'
  end.

(** The exceptions of the builders; [BackboneRaised] is one raised by
    [backbone_fn]. *)
Inductive build_error : Type := PyKeyError | PyTypeError | BackboneRaised.

(** The keyword parameters of [VIPTR.__init__] (both variants, after the
    positional [feature_extractor]) with their defaults; [vocab] has none:
<<
    def __init__(self, feature_extractor, vocab, embedding_units=384,
                 input_shape=(3, 32, 128), output_channel=192, cfg=None,
                 exportable=False, max_length=32):
>> *)
Definition viptr_init_defaults : list (string * pyval) :=
  [("embedding_units", PInt 384); ("input_shape", PTuple [PInt 3; PInt 32; PInt 128]);
   ("output_channel", PInt 192); ("cfg", PNone); ("exportable", PBool false);
   ("max_length", PInt 32)]%string.

Definition viptr_init_keywords : list string := "vocab"%string :: map fst viptr_init_defaults.

(** The call [VIPTR(feat_extractor, <explicit keywords>, **kwargs)]: the
    arguments bound to the parameters after [feature_extractor]. A key of
    [kwargs] that is also an explicit keyword ("got multiple values"), a key
    that is no parameter (or [feature_extractor], already given) and a
    missing [vocab] are a [TypeError]. The body of [__init__] is
    [viptr_init_body] below. *)
Definition bind_viptr_init (explicit kwargs : list (string * pyval))
  : build_error + list (string * pyval) :=
  if existsb (fun k => existsb (String.eqb k) (map fst explicit)) (map fst kwargs)
  then inl PyTypeError else
  let kws := explicit ++ kwargs in
  if existsb (fun k => negb (existsb (String.eqb k) viptr_init_keywords)) (map fst kws)
  then inl PyTypeError else
  match dict_get "vocab"%string kws with
  | None => inl PyTypeError
  | Some v =>
      inr (("vocab"%string, v) ::
           map (fun '(p, d) => (p, match dict_get p kws with Some x => x | None => d end))
             viptr_init_defaults)
  end.

(** Whether [len(v)] returns: a [str], a [tuple] or a [dict] has a length,
    an [int], [bool], [float] or [None] raises [TypeError]. *)
Definition py_sized (v : pyval) : bool :=
  match v with PStr _ | PTuple _ | PDict _ => true | _ => false end.

(** The body of [VIPTR.__init__] (both variants) on the bound arguments:
<<
        self.vocab = vocab
        self.exportable = exportable
        self.cfg = cfg
        self.max_length = max_length
        self.vocab_size = len(vocab)
        self.feat_extractor = feature_extractor
        self.postprocessor = VIPTRPostProcessor(vocab=self.vocab)
        self.head = nn.Linear(embedding_units, len(self.vocab) + 1)  # +1 for PAD
>>
    [len(vocab)] raises [TypeError] on a value without a length; the sizes
    of [nn.Linear] must be ints ([torch.empty] refuses any other size with a
    [TypeError]). The postprocessor keeps the vocabulary and the loop over
    [named_modules] only initialises weights; both return. The model is
    given by its bound arguments. *)
Definition viptr_init_body (args : list (string * pyval)) : build_error + list (string * pyval) :=
  match dict_get "vocab"%string args with
  | Some v =>
      if negb (py_sized v) then inl PyTypeError else
      match dict_get "embedding_units"%string args with
      | Some (PInt _) => inr args
      | _ => inl PyTypeError
      end
  | None => inl PyTypeError
  end.

Section Builders.

(** [VOCABS["french"]] of [doctr.datasets]. *)
Variable french : string.

(** [default_cfgs] of recognition/viptr. *)
Definition viptr_default_cfg : list (string * pyval) :=
  [("mean", PTuple [PFloat "0.694"; PFloat "0.695"; PFloat "0.693"]);
   ("std", PTuple [PFloat "0.299"; PFloat "0.296"; PFloat "0.301"]);
   ("input_shape", PTuple [PInt 3; PInt 32; PInt 128]);
   ("vocab", PStr french);
   ("url", PNone)]%string.

Definition viptr_default_cfgs : list (string * list (string * pyval)) :=
  [("viptr_tiny", viptr_default_cfg); ("viptr_base", viptr_default_cfg)]%string.

(** [_viptr] of recognition/viptr; [backbone] is the [out_dim] of
    [backbone_fn()], or [None] when it raises:
<<
    _cfg = deepcopy(default_cfgs[arch])
    vocab = kwargs.get("vocab", _cfg.get("classes", VOCABS["french"]))
    kwargs["vocab"] = vocab
    kwargs["input_shape"] = kwargs.get("input_shape", _cfg["input_shape"])
    _cfg["vocab"] = vocab
    _cfg["input_shape"] = kwargs["input_shape"]
    feat_extractor = backbone_fn()
    embedding_dim = feat_extractor.out_dim
    model = VIPTR(feat_extractor, embedding_units=embedding_dim, cfg=_cfg, **kwargs)
    if pretrained:
        base_vocab = list(default_cfgs[arch]["classes"])
        _ignore_keys = ignore_keys if vocab != base_vocab else None
        load_pretrained_params(model, default_cfgs[arch]["url"], ignore_keys=_ignore_keys)
    return model
>>
    ([load_pretrained_params] is not modelled: it is taken to return). *)
Definition viptr_build (arch : string) (pretrained : bool) (backbone : option nat)
    (kwargs : list (string * pyval)) : build_error + list (string * pyval) :=
  match dict_get arch viptr_default_cfgs with
  | None => inl PyKeyError
  | Some cfg =>
      let vocab := match dict_get "vocab"%string kwargs with
                   | Some v => v
                   | None => match dict_get "classes"%string cfg with Some c => c | None => PStr french end
                   end in
      let kwargs := dict_set "vocab"%string vocab kwargs in
      match dict_get "input_shape"%string cfg with
      | None => inl PyKeyError
      | Some s0 =>
          let shape := match dict_get "input_shape"%string kwargs with Some s => s | None => s0 end in
          let kwargs := dict_set "input_shape"%string shape kwargs in
          let cfg := dict_set "input_shape"%string shape (dict_set "vocab"%string vocab cfg) in
          match backbone with
          | None => inl BackboneRaised
          | Some e =>
              match bind_viptr_init [("embedding_units"%string, PInt e); ("cfg"%string, PDict cfg)] kwargs with
              | inl err => inl err
              | inr args =>
                  match viptr_init_body args with
                  | inl err => inl err
                  | inr model =>
                      if pretrained then
                        match obind (dict_get arch viptr_default_cfgs) (dict_get "classes"%string) with
                        | None => inl PyKeyError
                        | Some _ => inr model
                        end
                      else inr model
                  end
              end
          end
      end
  end.

(** [_viptr] of recognition/vip; [cfgs] is [default_cfgs] of
    classification/vip (not in this code) and [backbone include_top] tells
    whether [backbone_fn(include_top=include_top)] returns:
<<
    _cfg = deepcopy(default_cfgs[arch])
    vocab = kwargs.get("vocab", _cfg.get("classes", VOCABS["french"]))
    kwargs["vocab"] = vocab
    kwargs["input_shape"] = kwargs.get("input_shape", _cfg["input_shape"])
    _cfg["vocab"] = vocab
    _cfg["input_shape"] = kwargs["input_shape"]
    include_top = kwargs.get("include_top", False)
    feat_extractor = backbone_fn(include_top=include_top)
    model = VIPTR(feat_extractor, cfg=_cfg, **kwargs)
    if pretrained:
        (as above)
>> *)
Definition vip_build (cfgs : list (string * list (string * pyval))) (arch : string)
    (pretrained : bool) (backbone : pyval -> bool) (kwargs : list (string * pyval))
  : build_error + list (string * pyval) :=
  match dict_get arch cfgs with
  | None => inl PyKeyError
  | Some cfg =>
      let vocab := match dict_get "vocab"%string kwargs with
                   | Some v => v
                   | None => match dict_get "classes"%string cfg with Some c => c | None => PStr french end
                   end in
      let kwargs := dict_set "vocab"%string vocab kwargs in
      match dict_get "input_shape"%string cfg with
      | None => inl PyKeyError
      | Some s0 =>
          let shape := match dict_get "input_shape"%string kwargs with Some s => s | None => s0 end in
          let kwargs := dict_set "input_shape"%string shape kwargs in
          let cfg := dict_set "input_shape"%string shape (dict_set "vocab"%string vocab cfg) in
          let include_top := match dict_get "include_top"%string kwargs with
                             | Some b => b | None => PBool false end in
          if negb (backbone include_top) then inl BackboneRaised else
          match bind_viptr_init [("cfg"%string, PDict cfg)] kwargs with
          | inl err => inl err
          | inr args =>
              match viptr_init_body args with
              | inl err => inl err
              | inr model =>
                  if pretrained then
                    match obind (dict_get arch cfgs) (dict_get "classes"%string) with
                    | None => inl PyKeyError
                    | Some _ => inr model
                    end
                  else inr model
              end
          end
      end
  end.

End Builders.

(** * Properties *)

(** ** Lemmas on shapes and indexing *)

Lemma infer_size_exact t n :
  count_infer t = 0 -> n = fixed_prod t -> infer_size t n = Some (fill_infer t 0).
Proof.
  intros Hc ->. unfold infer_size. rewrite Hc, Nat.eqb_refl. reflexivity.
Qed.

Lemma infer_size_one t k :
  count_infer t = 1 -> 0 < fixed_prod t ->
  infer_size t (k * fixed_prod t) = Some (fill_infer t k).
Proof.
  intros Hc Hp. unfold infer_size. rewrite Hc.
  replace (0 <? fixed_prod t) with true by (symmetry; apply Nat.ltb_lt; exact Hp).
  rewrite Nat.Div0.mod_mul, Nat.div_mul by lia. reflexivity.
Qed.

Lemma pydiv_mul a b : 0 < b -> pydiv (b * a) b = Some a.
Proof.
  intros Hb. unfold pydiv.
  replace (b =? 0) with false by (symmetry; apply Nat.eqb_neq; lia).
  rewrite Nat.mul_comm, Nat.div_mul by lia. reflexivity.
Qed.

Lemma unflat_flat_rev rs ri :
  Forall2 lt ri rs -> unflat_rev rs (flat_rev rs ri) = ri.
Proof.
  induction 1 as [|i n ri rs Hi Hrest IH]; [reflexivity|].
  cbn [flat_rev unflat_rev].
  rewrite <- (Nat.mod_unique (i + n * flat_rev rs ri) n (flat_rev rs ri) i)
    by lia.
  rewrite <- (Nat.div_unique (i + n * flat_rev rs ri) n (flat_rev rs ri) i)
    by lia.
  rewrite IH. reflexivity.
Qed.

Lemma flat_rev_lt rs ri :
  Forall2 lt ri rs -> flat_rev rs ri < numel rs.
Proof.
  unfold numel.
  induction 1 as [|i n ri rs Hi Hrest IH]; cbn in *; [lia|].
  assert (i + n * flat_rev rs ri <= (n - 1) + n * (fold_right Nat.mul 1 rs - 1))
    by nia.
  nia.
Qed.

Lemma flat_unflat_rev rs k :
  k < numel rs -> flat_rev rs (unflat_rev rs k) = k.
Proof.
  unfold numel. revert k.
  induction rs as [|n rs IH]; intros k Hk; cbn in *; [lia|].
  assert (Hn : n <> 0) by (intros ->; lia).
  rewrite IH.
  - pose proof (Nat.div_mod_eq k n). lia.
  - apply Nat.Div0.div_lt_upper_bound. lia.
Qed.

Section TensorLemmas.

Variable A : Type.

Lemma view_exact (x : tensor A) t :
  count_infer t = 0 -> numel (shape x) = fixed_prod t ->
  view x t = Some (mkT (fill_infer t 0)
    (fun idx => get x (unflat_index (shape x) (flat_index (fill_infer t 0) idx)))).
Proof.
  intros Hc Hn. unfold view, view_shape. rewrite infer_size_exact by assumption.
  reflexivity.
Qed.

Lemma view_one (x : tensor A) t k :
  count_infer t = 1 -> 0 < fixed_prod t -> numel (shape x) = k * fixed_prod t ->
  view x t = Some (mkT (fill_infer t k)
    (fun idx => get x (unflat_index (shape x) (flat_index (fill_infer t k) idx)))).
Proof.
  intros Hc Hp Hn. unfold view, view_shape. rewrite Hn, infer_size_one by assumption.
  reflexivity.
Qed.

Lemma permute_ok (x : tensor A) p :
  is_perm p (length (shape x)) = true ->
  permute x p = Some (mkT (map (fun k => nth k (shape x) 0) p) (fun idx =>
    get x (map (fun j => nth (pos_of j p) idx 0) (seq 0 (length p))))).
Proof.
  intros Hp. unfold permute, permute_shape. rewrite Hp. reflexivity.
Qed.

End TensorLemmas.

Lemma Forall2_rev_lt (l1 l2 : list nat) :
  Forall2 lt l1 l2 -> Forall2 lt (rev l1) (rev l2).
Proof.
  induction 1; cbn; [constructor|].
  apply Forall2_app; [assumption|]. repeat constructor. assumption.
Qed.

Lemma numel_app l1 l2 : numel (l1 ++ l2) = numel l1 * numel l2.
Proof.
  unfold numel. induction l1 as [|n l1 IH]; cbn; [lia|]. rewrite IH. ring.
Qed.

Lemma numel_rev s : numel (rev s) = numel s.
Proof.
  induction s as [|n s IH]; cbn; [reflexivity|].
  rewrite numel_app, IH. unfold numel; cbn. ring.
Qed.

Lemma unflat_flat s idx :
  Forall2 lt idx s -> unflat_index s (flat_index s idx) = idx.
Proof.
  intros H. unfold unflat_index, flat_index.
  rewrite unflat_flat_rev by (apply Forall2_rev_lt; exact H).
  apply rev_involutive.
Qed.

Lemma flat_index_lt s idx :
  Forall2 lt idx s -> flat_index s idx < numel s.
Proof.
  intros H. unfold flat_index. rewrite <- numel_rev.
  apply flat_rev_lt, Forall2_rev_lt, H.
Qed.

Lemma flat_unflat s k :
  k < numel s -> flat_index s (unflat_index s k) = k.
Proof.
  intros H. unfold flat_index, unflat_index. rewrite rev_involutive.
  apply flat_unflat_rev. rewrite numel_rev. exact H.
Qed.

(** ** C1: window partition and merge *)

(** C1 (corrected). For a feature map [x] of shape (b, c, h, w) with
    positive sizes and [h], [w] divisible by the window sizes [h_sp],
    [w_sp], [img2windows] succeeds, and [windows2img] of its result with the
    original [h], [w] succeeds and gives the channel-last tensor of shape
    (b, h, w, c) whose element [[i, r, q, k]] is the element [[i, k, r, q]]
    of [x]: batch, spatial positions and channels are recovered exactly,
    the layout is permuted from (b, c, h, w) to (b, h, w, c). *)
Theorem windows2img_img2windows (x : tensor nat) b c h w hs ws :
  shape x = [b; c; h; w] -> 0 < b -> 0 < c -> 0 < hs -> 0 < ws -> 0 < h -> 0 < w ->
  h mod hs = 0 -> w mod ws = 0 ->
  exists y z, img2windows x hs ws = Some y /\ windows2img y hs ws h w = Some z /\
    shape z = [b; h; w; c] /\
    forall i r q k, i < b -> r < h -> q < w -> k < c ->
      get z [i; r; q; k] = get x [i; k; r; q].
Proof.
  intros Hs Hb Hc Hhs Hws Hh Hw Hmh Hmw.
  destruct x as [sx gx]; cbn in Hs; subst sx.
  apply Nat.Div0.div_exact in Hmh. apply Nat.Div0.div_exact in Hmw.
  remember (h / hs) as hn eqn:Ehn. remember (w / ws) as wn eqn:Ewn.
  clear Ehn Ewn. subst h w.
  unfold img2windows; cbn [shape].
  rewrite !pydiv_mul by lia. cbn [obind].
  rewrite view_exact by (try reflexivity; cbn; ring). cbn [obind].
  rewrite permute_ok by reflexivity. cbn [obind].
  rewrite (view_one _ _ _ (b * hn * wn)) by (try reflexivity; cbn; nia).
  cbn [obind]. eexists; eexists; split; [reflexivity|].
  unfold windows2img. cbn [shape fill_infer map].
  replace (hs =? 0) with false by (symmetry; apply Nat.eqb_neq; lia).
  replace (ws =? 0) with false by (symmetry; apply Nat.eqb_neq; lia).
  replace (hs * hn * (ws * wn) =? 0) with false by (symmetry; apply Nat.eqb_neq; nia).
  replace (b * hn * wn * hs * ws / (hs * hn * (ws * wn))) with b
    by (apply (Nat.div_unique _ _ b 0); nia).
  cbn [orb]. rewrite !pydiv_mul by lia. cbn [obind].
  rewrite (view_one _ _ _ c) by (try reflexivity; cbn; nia). cbn [obind].
  rewrite permute_ok by reflexivity. cbn [obind].
  rewrite (view_one _ _ _ c) by (try reflexivity; cbn; nia). cbn [obind].
  split; [reflexivity|]. split; [reflexivity|].
  intros i r q k Hi Hr Hq Hk.
  cbn [get fill_infer map shape].
  assert (Hr1 : r / hs < hn) by (apply Nat.Div0.div_lt_upper_bound; lia).
  assert (Hr0 : r mod hs < hs) by (apply Nat.mod_upper_bound; lia).
  assert (Hq1 : q / ws < wn) by (apply Nat.Div0.div_lt_upper_bound; lia).
  assert (Hq0 : q mod ws < ws) by (apply Nat.mod_upper_bound; lia).
  rewrite (Nat.div_mod_eq r hs), (Nat.div_mod_eq q ws).
  revert Hr1 Hr0 Hq1 Hq0. generalize (r / hs) (r mod hs) (q / ws) (q mod ws).
  intros r1 r0 q1 q0 Hr1 Hr0 Hq1 Hq0. clear Hr Hq r q.
  cbn [nth].
  replace (flat_index [b; hs * hn; ws * wn; c] [i; hs * r1 + r0; ws * q1 + q0; k])
    with (flat_index [b; hn; hs; wn; ws; c] [i; r1; r0; q1; q0; k])
    by (cbn; ring).
  rewrite unflat_flat by (repeat constructor; assumption).
  cbn [map seq length pos_of Nat.eqb nth].
  rewrite flat_unflat.
  2:{ replace (numel [b * hn * wn; hs * ws; c]) with (numel [b; hn; wn; hs; ws; c])
        by (cbn; ring).
      apply flat_index_lt. repeat constructor; assumption. }
  rewrite unflat_flat by (repeat constructor; assumption).
  cbn [map seq length pos_of Nat.eqb nth].
  replace (flat_index [b; c; hn; hs; wn; ws] [i; k; r1; r0; q1; q0])
    with (flat_index [b; c; hs * hn; ws * wn] [i; k; hs * r1 + r0; ws * q1 + q0])
    by (cbn; ring).
  rewrite unflat_flat by (repeat constructor; nia).
  reflexivity.
Qed.

Lemma windows2img_img2windows_witness :
  (shape x_c1 = [1; 2; 2; 2] /\ 0 < 1 /\ 0 < 2 /\ 0 < 1 /\ 0 < 1 /\ 0 < 2 /\ 0 < 2 /\
   2 mod 1 = 0 /\ 2 mod 1 = 0) /\
  exists y z, img2windows x_c1 1 1 = Some y /\ windows2img y 1 1 2 2 = Some z /\
    shape z = [1; 2; 2; 2] /\
    forall i r q k, i < 1 -> r < 2 -> q < 2 -> k < 2 ->
      get z [i; r; q; k] = get x_c1 [i; k; r; q].
Proof.
  split; [repeat split; reflexivity || lia|].
  apply (windows2img_img2windows x_c1 1 2 2 2 1 1); reflexivity || lia.
Defined.

(** C1 counterexample: the round trip does not give back [x]. On the
    1x2x2x2 map [x_c1] with 1x1 windows both shapes are (1, 2, 2, 2), yet
    the element at [[0, 0, 1, 0]] differs: the merge returns the
    channel-last layout. *)
Lemma windows_roundtrip_counterexample :
  exists z, obind (img2windows x_c1 1 1) (fun y => windows2img y 1 1 2 2) = Some z /\
    shape z = shape x_c1 /\ get z [0; 0; 1; 0] <> get x_c1 [0; 0; 1; 0].
Proof.
  eexists; split; [reflexivity|]. vm_compute. split; [reflexivity|discriminate].
Qed.

(** ** C3: orientation of the two cross-shaped mixers *)

(** C3 (corrected). In [CrossShapedWindowAttention] (layers) and
    [CSWinBlock] (classification), the mixer built with index 0 gets the
    first half of the channels and uses windows of the full height [h] and
    width [split_size] (vertical strips); the mixer built with index 1 gets
    the second half and uses windows of height [split_size] spanning the
    full width [w] (horizontal strips). *)
Theorem cross_shaped_strip_orientation dim num_heads split c h w :
  map (fun '(a, rng) => (rng, obind a (fun a' => get_split a' (h, w))))
      (cswin_branches (cross_shaped_attns dim num_heads split) c)
  = [((0, c / 2), Some (h, split)); ((c / 2, c), Some (split, w))] /\
  map (fun '(a, rng) => (rng, obind a (fun a' => cswin_split a' (h, w))))
      (cswin_branches (cswin_block_attns dim num_heads split) c)
  = [((0, c / 2), Some (h, split)); ((c / 2, c), Some (split, w))].
Proof. split; reflexivity. Qed.

(** C3 counterexample: on an 4x8 map with [split_size = 2], the mixer of
    index 0 does not use horizontal strips of height 2 spanning the width
    (windows 2x8): its windows are 4x2. *)
Lemma strip_orientation_counterexample :
  obind (nth_error (cross_shaped_attns 64 2 2) 0) (fun a => get_split a (4, 8))
  <> Some (2, 8).
Proof. cbn. discriminate. Qed.

(** ** C5: patch merging *)

Lemma conv_out_stride2 k : 0 < k -> conv_out (2 * k) 3 2 1 = Some k.
Proof.
  intros Hk. unfold conv_out.
  replace (2 * k + 2 * 1 <? 3) with false by (symmetry; apply Nat.ltb_ge; lia).
  f_equal. replace (2 * k + 2 * 1 - 3) with (2 * (k - 1) + 1) by lia.
  rewrite <- (Nat.div_unique (2 * (k - 1) + 1) 2 (k - 1) 1) by lia. lia.
Qed.

Lemma conv_out_same n : 0 < n -> conv_out n 3 1 1 = Some n.
Proof.
  intros Hn. unfold conv_out.
  replace (n + 2 * 1 <? 3) with false by (symmetry; apply Nat.ltb_ge; lia).
  rewrite Nat.div_1_r. f_equal. lia.
Qed.

(** C5. [PatchMerging(dim, out_dim)] maps a (b, h, w, dim) input with even
    positive [h] and positive [w] to (b, h/2, w, out_dim): the stride-(2, 1)
    convolution halves the height and keeps the width, and the last step is
    the [LayerNorm(out_dim)]. *)
Theorem patch_merging_halves_height dim out_dim b h w :
  0 < h -> h mod 2 = 0 -> 0 < w ->
  patch_merging_shape dim out_dim [b; h; w; dim] = Some [b; h / 2; w; out_dim].
Proof.
  intros Hh He Hw.
  apply Nat.Div0.div_exact in He. remember (h / 2) as k eqn:Ek. clear Ek. subst h.
  unfold patch_merging_shape, permute_shape. cbn [obind is_perm length seq forallb
    existsb Nat.eqb andb orb map nth].
  unfold conv2d_shape. cbn [c_in c_out k_h k_w s_h s_w p_h p_w pm_reduction].
  rewrite Nat.eqb_refl, conv_out_stride2, conv_out_same by lia.
  cbn [obind is_perm length seq forallb existsb Nat.eqb andb orb map nth].
  unfold layer_norm_shape. cbn [rev app].
  rewrite Nat.eqb_refl. replace (2 * k / 2) with k. reflexivity.
  rewrite Nat.mul_comm, Nat.div_mul; lia.
Qed.

Lemma patch_merging_halves_height_witness :
  (0 < 8 /\ 8 mod 2 = 0 /\ 0 < 32) /\
  patch_merging_shape 64 128 [1; 8; 32; 64] = Some [1; 8 / 2; 32; 128].
Proof.
  split; [repeat split; reflexivity || lia|].
  apply patch_merging_halves_height; reflexivity || lia.
Defined.

(** ** C7: target encoding *)

Lemma omap_Forall2 {X Y : Type} (f : X -> option Y) (P : X -> Y -> Prop) (l : list X) :
  (forall x, In x l -> exists y, f x = Some y /\ P x y) ->
  exists l', omap f l = Some l' /\ Forall2 P l l'.
Proof.
  induction l as [|x l IH]; intros H; cbn.
  - exists []. split; [reflexivity|constructor].
  - destruct (H x (or_introl eq_refl)) as [y [Hy Hp]].
    destruct IH as [l' [Hl' Hf]]; [intros; apply H; right; assumption|].
    rewrite Hy. cbn. rewrite Hl'. cbn. exists (y :: l'). split; [reflexivity|].
    constructor; assumption.
Qed.

Lemma list_ascii_of_string_length s :
  length (list_ascii_of_string s) = String.length s.
Proof. induction s; cbn; congruence. Qed.

Lemma string_get_nth_error s j :
  String.get j s = nth_error (list_ascii_of_string s) j.
Proof.
  revert j. induction s as [|c s IH]; intros [|j]; cbn; try reflexivity. apply IH.
Qed.

Lemma str_index_first vocab ch :
  In ch (list_ascii_of_string vocab) ->
  exists k, str_index vocab ch = Some k /\ String.get k vocab = Some ch /\
    forall k', k' < k -> String.get k' vocab <> Some ch.
Proof.
  induction vocab as [|c v IH]; cbn; [contradiction|]. intros Hin.
  destruct (Ascii.eqb c ch) eqn:E.
  - apply Ascii.eqb_eq in E. subst c. exists 0. split; [reflexivity|].
    split; [reflexivity|]. intros k' Hk'. lia.
  - apply Ascii.eqb_neq in E. destruct Hin as [->|Hin]; [contradiction|].
    destruct (IH Hin) as [k [Hk [Hg Hmin]]].
    exists (S k). rewrite Hk. split; [reflexivity|]. split; [exact Hg|].
    intros [|k'] Hk'; cbn.
    + intros Heq. injection Heq. exact E.
    + apply Hmin. lia.
Qed.

Lemma Forall2_nth_error {X Y : Type} (P : X -> Y -> Prop) l l' i x :
  Forall2 P l l' -> nth_error l i = Some x -> exists y, nth_error l' i = Some y /\ P x y.
Proof.
  intros H. revert i. induction H as [|a b l l' Hab Hrest IH]; intros [|i]; cbn;
    try discriminate.
  - intros E; injection E as <-. exists b. split; [reflexivity|exact Hab].
  - apply IH.
Qed.

Lemma skipn_repeat0 (n L : nat) :
  skipn n (repeat 0 L) = repeat 0 (L - n).
Proof.
  revert L. induction n; intros [|L]; cbn; auto.
Qed.

Lemma nth_repeat0 (j L : nat) : nth j (repeat 0 L) 0 = 0.
Proof. revert L. induction j; intros [|L]; cbn; auto. Qed.

Lemma encode_row_spec vocab max_length s :
  String.length s <= max_length ->
  (forall ch, In ch (list_ascii_of_string s) -> In ch (list_ascii_of_string vocab)) ->
  exists row, encode_row vocab max_length s = Some row /\ length row = max_length /\
    forall j, j < max_length ->
      (j < String.length s -> exists ch k, String.get j s = Some ch /\ nth j row 0 = S k /\
         String.get k vocab = Some ch /\ forall k', k' < k -> String.get k' vocab <> Some ch) /\
      (String.length s <= j -> nth j row 0 = 0).
Proof.
  intros Hlen Hin. unfold encode_row.
  destruct (omap_Forall2 (fun x => i <- str_index vocab x ;; Some (i + 1))
    (fun ch v => exists k, v = S k /\ String.get k vocab = Some ch /\
       forall k', k' < k -> String.get k' vocab <> Some ch)
    (list_ascii_of_string s)) as [vals [Hv HF]].
  { intros ch Hch. destruct (str_index_first vocab ch (Hin ch Hch)) as [k [Hk [Hg Hm]]].
    rewrite Hk. cbn. exists (k + 1). split; [reflexivity|]. exists k.
    split; [lia|]. split; assumption. }
  rewrite Hv. cbn [obind].
  assert (Hlv : length vals = String.length s).
  { rewrite <- list_ascii_of_string_length. symmetry. eapply Forall2_length; eassumption. }
  unfold assign_prefix. rewrite repeat_length, Nat.min_l by exact Hlen.
  rewrite Hlv, Nat.eqb_refl. eexists. split; [reflexivity|].
  rewrite length_app, skipn_repeat0, repeat_length. split; [lia|].
  intros j Hj. split.
  - intros Hjs. rewrite <- list_ascii_of_string_length in Hjs.
    destruct (nth_error (list_ascii_of_string s) j) as [ch|] eqn:Ec;
      [|apply nth_error_None in Ec; lia].
    destruct (Forall2_nth_error _ _ _ _ _ HF Ec) as [v [Ev [k [-> [Hg Hm]]]]].
    exists ch, k. rewrite string_get_nth_error. split; [exact Ec|].
    split; [|split; assumption].
    rewrite app_nth1 by (rewrite Hlv, <- list_ascii_of_string_length; exact Hjs).
    apply nth_error_nth. exact Ev.
  - intros Hjs. rewrite app_nth2 by lia. apply nth_repeat0.
Qed.

(** C7: for ground truths whose characters all occur in the vocabulary and
    whose lengths are at most [max_length], [build_target] returns one row of
    length [max_length] per string; position [j] of row [i] holds [k + 1],
    with [k] the (first) vocabulary index of the [j]-th character, for
    [j < len(gts[i])], and 0 afterwards; the second component is the list of
    the string lengths. *)
Theorem build_target_encodes vocab max_length gts :
  (forall s, In s gts -> String.length s <= max_length /\
     forall ch, In ch (list_ascii_of_string s) -> In ch (list_ascii_of_string vocab)) ->
  exists rows, build_target vocab max_length gts = Some (rows, map String.length gts) /\
    length rows = length gts /\
    forall i s, nth_error gts i = Some s ->
      exists row, nth_error rows i = Some row /\ length row = max_length /\
        forall j, j < max_length ->
          (j < String.length s -> exists ch k, String.get j s = Some ch /\
             nth j row 0 = S k /\ String.get k vocab = Some ch /\
             forall k', k' < k -> String.get k' vocab <> Some ch) /\
          (String.length s <= j -> nth j row 0 = 0).
Proof.
  intros H. unfold build_target.
  destruct (omap_Forall2 (encode_row vocab max_length)
    (fun s row => length row = max_length /\ forall j, j < max_length ->
      (j < String.length s -> exists ch k, String.get j s = Some ch /\
         nth j row 0 = S k /\ String.get k vocab = Some ch /\
         forall k', k' < k -> String.get k' vocab <> Some ch) /\
      (String.length s <= j -> nth j row 0 = 0)) gts) as [rows [Hr HF]].
  { intros s Hs. destruct (H s Hs) as [Hl Hc].
    destruct (encode_row_spec vocab max_length s Hl Hc) as [row [E P]].
    exists row. split; assumption. }
  rewrite Hr. cbn [obind]. exists rows. split; [reflexivity|].
  split; [symmetry; eapply Forall2_length; eassumption|].
  intros i s Hi. destruct (Forall2_nth_error _ _ _ _ _ HF Hi) as [row [Er P]].
  exists row. split; assumption.
Qed.

Lemma build_target_encodes_witness :
  build_target "abc" 4 ["ba"; ""; "cca"]%string = Some ([[2;1;0;0];[0;0;0;0];[3;3;1;0]], [2;0;3]) /\
  exists rows, build_target "abc" 4 ["ba"; ""; "cca"]%string =
    Some (rows, map String.length ["ba"; ""; "cca"]%string) /\ length rows = 3 /\
    forall i s, nth_error ["ba"; ""; "cca"]%string i = Some s ->
      exists row, nth_error rows i = Some row /\ length row = 4 /\
        forall j, j < 4 ->
          (j < String.length s -> exists ch k, String.get j s = Some ch /\
             nth j row 0 = S k /\ String.get k "abc"%string = Some ch /\
             forall k', k' < k -> String.get k' "abc"%string <> Some ch) /\
          (String.length s <= j -> nth j row 0 = 0).
Proof.
  split; [vm_compute; reflexivity|].
  apply (build_target_encodes "abc" 4 ["ba"; ""; "cca"]%string).
  intros s Hs. cbn in Hs.
  destruct Hs as [<-|[<-|[<-|[]]]]; (split; [cbn; lia|]);
    intros ch Hch; cbn in Hch |- *; tauto.
Defined.

(** ** C2: best-path decoding *)

Lemma omap_map_Some {X Y : Type} (f : X -> option Y) l l' :
  map f l = map Some l' -> omap f l = Some l'.
Proof.
  revert l'. induction l as [|x l IH]; intros [|y l'] H; cbn in *; try discriminate.
  - reflexivity.
  - injection H as E1 E2. rewrite E1. cbn. rewrite (IH l' E2). reflexivity.
Qed.

Lemma omap_total {X Y : Type} (f : X -> option Y) l :
  (forall x, In x l -> f x <> None) ->
  exists l', omap f l = Some l' /\ length l' = length l.
Proof.
  intros H. destruct (omap_Forall2 f (fun _ _ => True) l) as [l' [E HF]].
  - intros x Hx. destruct (f x) as [y|] eqn:Ef; [|exfalso; exact (H x Hx Ef)].
    exists y. split; [reflexivity|exact I].
  - exists l'. split; [exact E|]. symmetry. eapply Forall2_length; exact HF.
Qed.

Lemma map_fst_combine {X Y : Type} (a : list X) (b : list Y) :
  length a <= length b -> map fst (combine a b) = a.
Proof.
  revert b. induction a as [|x a IH]; intros [|y b] H; cbn in *; try lia; try reflexivity.
  f_equal. apply IH. lia.
Qed.

Section Confidence.

Variable F : Type.
Variable Fltb : F -> F -> bool.
Variable Fexp : F -> F.
Variables Fadd Fdiv : F -> F -> F.
Variable F0 : F.

Lemma ctc_confidence_some (sample : list (list F)) :
  sample <> [] -> (forall r, In r sample -> r <> []) ->
  ctc_confidence Fltb Fexp Fadd Fdiv F0 sample <> None.
Proof.
  intros Hs Hr. unfold ctc_confidence.
  destruct (omap_total (fun r => list_max Fltb (softmax_row Fexp Fadd Fdiv F0 r)) sample)
    as [maxes [E L]].
  - intros r Hin. specialize (Hr r Hin). destruct r; [contradiction|]. cbn. discriminate.
  - rewrite E. cbn. destruct maxes; [destruct sample; cbn in L; [contradiction|discriminate]|].
    cbn. discriminate.
Qed.

Lemma argmax_row_nonempty (r : list F) k : argmax_row Fltb r = Some k -> r <> [].
Proof. destruct r; cbn; congruence. Qed.

End Confidence.

(** C2: if every sample of the logits has the per-step argmax sequence
    [blank, a, a, blank, b, b, b, blank] (blank = 0, a = 1, b = 2), best-path
    decoding returns "ab" for every sample. The decoder of
    [recognition/viptr] maps class [k] to [vocab[k - 1]] (the vocabulary
    holds 'a' at position 0 and 'b' at position 1); the decoder of
    [recognition/vip] maps class [k] to [vocab[k]] (the vocabulary holds 'a'
    at position 1 and 'b' at position 2) and returns "ab" for every batch
    with at least one sample; on an empty batch, which has no argmax
    sequence, its [print(preds_indices.max())] raises. *)
Theorem ctc_best_path_collapses {F : Type} (Fltb : F -> F -> bool) (Fexp : F -> F)
    (Fadd Fdiv : F -> F -> F) (F0 : F) (logits : list (list (list F))) (vocab vocab' : string) :
  Forall (fun s => map (argmax_row Fltb) s = map Some [0;1;1;0;2;2;2;0]) logits ->
  String.get 0 vocab = Some "a"%char -> String.get 1 vocab = Some "b"%char ->
  String.get 1 vocab' = Some "a"%char -> String.get 2 vocab' = Some "b"%char ->
  (exists out, ctc_best_path Fltb Fexp Fadd Fdiv F0 logits vocab 0 = Some out /\
     map fst out = repeat "ab"%string (length logits)) /\
  (logits <> [] ->
   exists out, ctc_best_path_vip Fltb Fexp Fadd Fdiv F0 logits vocab' 0 = Some out /\
     map fst out = repeat "ab"%string (length logits)) /\
  (logits = [] -> ctc_best_path_vip Fltb Fexp Fadd Fdiv F0 logits vocab' 0 = None).
Proof.
  intros H Ha Hb Ha' Hb'.
  assert (Hp : exists probs, omap (ctc_confidence Fltb Fexp Fadd Fdiv F0) logits = Some probs /\
                            length probs = length logits).
  { apply omap_total. intros s Hs. rewrite Forall_forall in H. specialize (H s Hs).
    apply ctc_confidence_some.
    - intros ->. discriminate.
    - intros r Hr. apply (in_map (argmax_row Fltb)) in Hr. rewrite H in Hr.
      apply in_map_iff in Hr. destruct Hr as [k [Ar _]].
      exact (argmax_row_nonempty F Fltb r k (eq_sym Ar)). }
  destruct Hp as [probs [Ep Lp]].
  assert (Hi : omap (fun s => omap (argmax_row Fltb) s) logits =
               Some (repeat [0;1;1;0;2;2;2;0] (length logits))).
  { clear Ep Lp. induction H as [|s l Hs _ IH]; [reflexivity|].
    cbn. rewrite (omap_map_Some _ _ _ Hs). cbn. rewrite IH. reflexivity. }
  split.
  - unfold ctc_best_path. rewrite Ep, Hi. cbn [obind].
    assert (Hw : forall n, omap (fun sq => decode_sequence
             (map (fun k => k - 1) (filter (fun k => negb (k =? 0)) (groupby_keys sq))) vocab)
             (repeat [0;1;1;0;2;2;2;0] n) = Some (repeat "ab"%string n)).
    { induction n as [|n IHn]; [reflexivity|]. cbn. rewrite Ha, Hb. cbn. rewrite IHn. reflexivity. }
    rewrite Hw. cbn. eexists. split; [reflexivity|].
    apply map_fst_combine. rewrite repeat_length. lia.
  - split; [|intros ->; reflexivity].
    intros Hne. unfold ctc_best_path_vip. rewrite Ep, Hi. cbn [obind].
    assert (Ht : exists m, tensor_max (concat (repeat [0;1;1;0;2;2;2;0] (length logits))) = Some m)
      by (destruct logits; [contradiction|eexists; reflexivity]).
    destruct Ht as [m Ht]. rewrite Ht. cbn [obind].
    assert (Hw : forall n, omap (fun sq => decode_sequence
             (filter (fun k => negb (k =? 0)) (groupby_keys sq)) vocab')
             (repeat [0;1;1;0;2;2;2;0] n) = Some (repeat "ab"%string n)).
    { induction n as [|n IHn]; [reflexivity|]. cbn. rewrite Ha', Hb'. cbn. rewrite IHn. reflexivity. }
    rewrite Hw. cbn. eexists. split; [reflexivity|].
    apply map_fst_combine. rewrite repeat_length. lia.
Qed.

Lemma ctc_best_path_collapses_witness :
  let logits := [map onehot_logits [0;1;1;0;2;2;2;0]; map onehot_logits [0;1;1;0;2;2;2;0]] in
  ctc_best_path Nat.ltb S Nat.add Nat.div 0 logits "ab"%string 0 = Some [("ab"%string, 0); ("ab"%string, 0)] /\
  (exists out, ctc_best_path Nat.ltb S Nat.add Nat.div 0 logits "ab"%string 0 = Some out /\
     map fst out = repeat "ab"%string (length logits)) /\
  (logits <> [] ->
   exists out, ctc_best_path_vip Nat.ltb S Nat.add Nat.div 0 logits "-ab"%string 0 = Some out /\
     map fst out = repeat "ab"%string (length logits)) /\
  (logits = [] -> ctc_best_path_vip Nat.ltb S Nat.add Nat.div 0 logits "-ab"%string 0 = None).
Proof.
  intros logits. split; [vm_compute; reflexivity|].
  apply (ctc_best_path_collapses Nat.ltb S Nat.add Nat.div 0 logits "ab"%string "-ab"%string);
    [repeat constructor|reflexivity..].
Defined.

(** ** C6: confidence of best-path decoding *)

Lemma omap_Some_Forall2 {X Y : Type} (f : X -> option Y) l l' :
  omap f l = Some l' -> Forall2 (fun x y => f x = Some y) l l'.
Proof.
  revert l'. induction l as [|x l IH]; intros l' E; cbn in E.
  - injection E as <-. constructor.
  - destruct (f x) eqn:Ef; [|discriminate]. cbn in E.
    destruct (omap f l) eqn:El; [|discriminate]. cbn in E. injection E as <-.
    constructor; [exact Ef|]. apply IH. reflexivity.
Qed.

Lemma Forall2_in_l {X Y : Type} (P : X -> Y -> Prop) l l' x :
  Forall2 P l l' -> In x l -> exists y, In y l' /\ P x y.
Proof.
  induction 1 as [|a b l l' Hab _ IH]; [contradiction|]. intros [->|Hin].
  - exists b. split; [left; reflexivity|exact Hab].
  - destruct (IH Hin) as [y [Hy Hp]]. exists y. split; [right; exact Hy|exact Hp].
Qed.

Lemma Forall2_in_r {X Y : Type} (P : X -> Y -> Prop) l l' y :
  Forall2 P l l' -> In y l' -> exists x, In x l /\ P x y.
Proof.
  induction 1 as [|a b l l' Hab _ IH]; [contradiction|]. intros [->|Hin].
  - exists a. split; [left; reflexivity|exact Hab].
  - destruct (IH Hin) as [x [Hx Hp]]. exists x. split; [right; exact Hx|exact Hp].
Qed.

Lemma nth_error_combine_lt {X Y : Type} (a : list X) (b : list Y) i x y :
  nth_error a i = Some x -> nth_error b i = Some y -> nth_error (combine a b) i = Some (x, y).
Proof.
  revert b i. induction a as [|x0 a IH]; intros [|y0 b] [|i]; cbn; try discriminate.
  - intros E1 E2. injection E1 as <-. injection E2 as <-. reflexivity.
  - apply IH.
Qed.

Section MinMax.

(** [Fltb] is a strict weak order, as [<] on floats without NaN. *)
Variable F : Type.
Variable Fltb : F -> F -> bool.
Hypothesis Fltb_irrefl : forall a, Fltb a a = false.
Hypothesis Fltb_trans : forall a b c, Fltb a b = true -> Fltb b c = true -> Fltb a c = true.
Hypothesis Fltb_negtrans : forall a b c, Fltb a c = true -> Fltb a b = true \/ Fltb b c = true.

Lemma fold_fmax_in (r : list F) (x : F) : In (fold_left (fmax Fltb) r x) (x :: r).
Proof.
  revert x. induction r as [|z r IH]; intros x; cbn [fold_left]; [left; reflexivity|].
  destruct (IH (fmax Fltb x z)) as [E|Hin]; [|right; right; exact Hin].
  rewrite <- E. unfold fmax. destruct (Fltb x z); [right; left|left]; reflexivity.
Qed.

Lemma fold_fmax_ge (r : list F) (x : F) :
  forall y, In y (x :: r) -> Fltb (fold_left (fmax Fltb) r x) y = false.
Proof.
  revert x. induction r as [|z r IH]; intros x y Hy; cbn [fold_left].
  - destruct Hy as [<-|[]]. apply Fltb_irrefl.
  - set (m := fold_left (fmax Fltb) r (fmax Fltb x z)).
    assert (Hm : forall y, In y (fmax Fltb x z :: r) -> Fltb m y = false) by (intros; apply IH; assumption).
    destruct Hy as [<-|[<-|Hy]]; [| |apply Hm; right; exact Hy];
      unfold fmax in Hm; destruct (Fltb x z) eqn:E.
    + destruct (Fltb m x) eqn:E'; [|reflexivity].
      pose proof (Hm z (or_introl eq_refl)); pose proof (Fltb_trans _ _ _ E' E); congruence.
    + apply Hm. left. reflexivity.
    + apply Hm. left. reflexivity.
    + destruct (Fltb m z) eqn:E'; [|reflexivity].
      destruct (Fltb_negtrans _ x _ E') as [E1|E1]; [|congruence].
      pose proof (Hm x (or_introl eq_refl)); pose proof E1; congruence.
Qed.

Lemma fold_fmin_in (r : list F) (x : F) : In (fold_left (fmin Fltb) r x) (x :: r).
Proof.
  revert x. induction r as [|z r IH]; intros x; cbn [fold_left]; [left; reflexivity|].
  destruct (IH (fmin Fltb x z)) as [E|Hin]; [|right; right; exact Hin].
  rewrite <- E. unfold fmin. destruct (Fltb z x); [right; left|left]; reflexivity.
Qed.

Lemma fold_fmin_le (r : list F) (x : F) :
  forall y, In y (x :: r) -> Fltb y (fold_left (fmin Fltb) r x) = false.
Proof.
  revert x. induction r as [|z r IH]; intros x y Hy; cbn [fold_left].
  - destruct Hy as [<-|[]]. apply Fltb_irrefl.
  - set (m := fold_left (fmin Fltb) r (fmin Fltb x z)).
    assert (Hm : forall y, In y (fmin Fltb x z :: r) -> Fltb y m = false) by (intros; apply IH; assumption).
    destruct Hy as [<-|[<-|Hy]]; [| |apply Hm; right; exact Hy];
      unfold fmin in Hm; destruct (Fltb z x) eqn:E.
    + destruct (Fltb x m) eqn:E'; [|reflexivity].
      pose proof (Hm z (or_introl eq_refl)); pose proof (Fltb_trans _ _ _ E E'); congruence.
    + apply Hm. left. reflexivity.
    + apply Hm. left. reflexivity.
    + destruct (Fltb z m) eqn:E'; [|reflexivity].
      destruct (Fltb_negtrans _ x _ E') as [E1|E1]; [congruence|].
      pose proof (Hm x (or_introl eq_refl)); pose proof E1; congruence.
Qed.

Variable Fexp : F -> F.
Variables Fadd Fdiv : F -> F -> F.
Variable F0 : F.

Lemma list_max_spec l m :
  list_max Fltb l = Some m -> In m l /\ forall v, In v l -> Fltb m v = false.
Proof.
  destruct l as [|x r]; cbn; [discriminate|]. intros E. injection E as <-.
  split; [apply fold_fmax_in|apply fold_fmax_ge].
Qed.

Lemma list_min_spec l m :
  list_min Fltb l = Some m -> In m l /\ forall v, In v l -> Fltb v m = false.
Proof.
  destruct l as [|x r]; cbn; [discriminate|]. intros E. injection E as <-.
  split; [apply fold_fmin_in|apply fold_fmin_le].
Qed.

Lemma ctc_confidence_spec sample c :
  ctc_confidence Fltb Fexp Fadd Fdiv F0 sample = Some c ->
  (exists row, In row sample /\ In c (softmax_row Fexp Fadd Fdiv F0 row) /\
     forall v, In v (softmax_row Fexp Fadd Fdiv F0 row) -> Fltb c v = false) /\
  (forall row, In row sample -> exists v, In v (softmax_row Fexp Fadd Fdiv F0 row) /\
     Fltb v c = false).
Proof.
  unfold ctc_confidence.
  destruct (omap (fun r => list_max Fltb (softmax_row Fexp Fadd Fdiv F0 r)) sample)
    as [maxes|] eqn:Em; cbn; [|discriminate].
  intros Ec. apply list_min_spec in Ec. destruct Ec as [Hin Hle].
  apply omap_Some_Forall2 in Em. split.
  - destruct (Forall2_in_r _ _ _ _ Em Hin) as [row [Hr Hmax]].
    apply list_max_spec in Hmax. exists row. split; [exact Hr|exact Hmax].
  - intros row Hr. destruct (Forall2_in_l _ _ _ _ Em Hr) as [m [Hm Hmax]].
    apply list_max_spec in Hmax. exists m. split; [apply Hmax|apply Hle; exact Hm].
Qed.

End MinMax.

Lemma best_path_combine {F : Type} (Fltb : F -> F -> bool) (Fexp : F -> F) (Fadd Fdiv : F -> F -> F)
    (F0 : F) logits vocab blank out :
  (ctc_best_path Fltb Fexp Fadd Fdiv F0 logits vocab blank = Some out \/
   ctc_best_path_vip Fltb Fexp Fadd Fdiv F0 logits vocab blank = Some out) ->
  exists words probs, omap (ctc_confidence Fltb Fexp Fadd Fdiv F0) logits = Some probs /\
    length words = length logits /\ out = combine words probs.
Proof.
  unfold ctc_best_path, ctc_best_path_vip.
  destruct (omap (ctc_confidence Fltb Fexp Fadd Fdiv F0) logits) as [probs|] eqn:Ep;
    cbn; [|intros [H|H]; discriminate].
  destruct (omap (fun s => omap (argmax_row Fltb) s) logits) as [preds|] eqn:Ei;
    cbn; [|intros [H|H]; discriminate].
  apply omap_Some_Forall2, Forall2_length in Ei.
  intros [H|H];
    [|destruct (tensor_max (concat preds)); cbn in H; [|discriminate]];
    match type of H with
    | obind (omap ?g preds) _ = _ =>
        destruct (omap g preds) as [words|] eqn:Ew; cbn in H; [|discriminate];
        apply omap_Some_Forall2, Forall2_length in Ew;
        injection H as <-; exists words, probs; split; [reflexivity|split; [lia|reflexivity]]
    end.
Qed.

(** C6: whenever best-path decoding returns (in either decoder), it returns
    one pair per sample, and the confidence [c] of sample [i] is the minimum
    over its time steps of the maximum softmax probability of the step: [c]
    is the largest softmax probability of one of the steps (no probability
    of that step exceeds it), and every step has a softmax probability not
    below [c]. The comparison is any strict weak order, as [<] on floats
    without NaN. *)
Theorem ctc_confidence_min_max {F : Type} (Fltb : F -> F -> bool)
    (Fltb_irrefl : forall a, Fltb a a = false)
    (Fltb_trans : forall a b c, Fltb a b = true -> Fltb b c = true -> Fltb a c = true)
    (Fltb_negtrans : forall a b c, Fltb a c = true -> Fltb a b = true \/ Fltb b c = true)
    (Fexp : F -> F) (Fadd Fdiv : F -> F -> F) (F0 : F) logits vocab blank out :
  (ctc_best_path Fltb Fexp Fadd Fdiv F0 logits vocab blank = Some out \/
   ctc_best_path_vip Fltb Fexp Fadd Fdiv F0 logits vocab blank = Some out) ->
  length out = length logits /\
  forall i sample, nth_error logits i = Some sample ->
    exists w c, nth_error out i = Some (w, c) /\
      (exists row, In row sample /\ In c (softmax_row Fexp Fadd Fdiv F0 row) /\
         forall v, In v (softmax_row Fexp Fadd Fdiv F0 row) -> Fltb c v = false) /\
      (forall row, In row sample -> exists v, In v (softmax_row Fexp Fadd Fdiv F0 row) /\
         Fltb v c = false).
Proof.
  intros H. destruct (best_path_combine Fltb Fexp Fadd Fdiv F0 logits vocab blank out H)
    as [words [probs [Ep [Lw ->]]]].
  apply omap_Some_Forall2 in Ep. split.
  - rewrite length_combine, Lw, <- (Forall2_length Ep). lia.
  - intros i sample Hi.
    destruct (Forall2_nth_error _ _ _ _ _ Ep Hi) as [c [Hc Ec]].
    destruct (nth_error words i) as [w|] eqn:Ew;
      [|apply nth_error_None in Ew; assert (i < length logits) by
          (apply nth_error_Some; congruence); lia].
    exists w, c. split; [apply nth_error_combine_lt; assumption|].
    exact (ctc_confidence_spec F Fltb Fltb_irrefl Fltb_trans Fltb_negtrans Fexp Fadd Fdiv F0 sample c Ec).
Qed.

Lemma ctc_confidence_min_max_witness :
  (forall a, Nat.ltb a a = false) /\
  exists out, ctc_best_path Nat.ltb S Nat.add (fun a _ => a) 0 [[[1;3;0]; [2;0;0]]] "ab"%string 0 = Some out /\
  length out = length [[[1;3;0]; [2;0;0]]] /\
  forall i sample, nth_error [[[1;3;0]; [2;0;0]]] i = Some sample ->
    exists w c, nth_error out i = Some (w, c) /\
      (exists row, In row sample /\ In c (softmax_row S Nat.add (fun a _ => a) 0 row) /\
         forall v, In v (softmax_row S Nat.add (fun a _ => a) 0 row) -> Nat.ltb c v = false) /\
      (forall row, In row sample -> exists v, In v (softmax_row S Nat.add (fun a _ => a) 0 row) /\
         Nat.ltb v c = false).
Proof.
  split; [intros a; apply Nat.ltb_irrefl|].
  exists [("a"%string, 3)]. split; [vm_compute; reflexivity|].
  apply (ctc_confidence_min_max Nat.ltb Nat.ltb_irrefl) with (vocab := "ab"%string) (blank := 0).
  - intros a b c. rewrite !Nat.ltb_lt. lia.
  - intros a b c. rewrite !Nat.ltb_lt. lia.
  - left. vm_compute. reflexivity.
Defined.

(** ** C9: CTC loss *)

Lemma map_snd_combine {X Y : Type} (a : list X) (b : list Y) :
  length b <= length a -> map snd (combine a b) = b.
Proof.
  revert b. induction a as [|x a IH]; intros [|y b] H; cbn in *; try lia; try reflexivity.
  f_equal. apply IH. lia.
Qed.

Lemma transpose_lengths {X : Type} (T : nat) (x : list (list X)) :
  Forall (fun s => length s = T) x ->
  length (transpose T x) = T /\ Forall (fun tb => length tb = length x) (transpose T x).
Proof.
  induction 1 as [|s r Hs _ [IHl IHf]]; cbn.
  - rewrite repeat_length. split; [reflexivity|].
    apply Forall_forall. intros tb Hin. apply repeat_spec in Hin. subst tb. reflexivity.
  - rewrite length_map, length_combine, Hs, IHl, Nat.min_id. split; [reflexivity|].
    apply Forall_forall. intros tb Hin. apply in_map_iff in Hin.
    destruct Hin as [[row col] [<- Hin]]. apply in_combine_r in Hin.
    rewrite Forall_forall in IHf. cbn. rewrite (IHf col Hin). reflexivity.
Qed.

Lemma transpose_col {Y : Type} (T : nat) (x : list (list (list Y))) i s :
  Forall (fun s => length s = T) x -> nth_error x i = Some s ->
  map (fun tb => nth i tb []) (transpose T x) = s.
Proof.
  intros H. revert i. induction H as [|s0 r Hs0 Hr IH]; intros [|i] Hi; cbn in Hi; try discriminate.
  - injection Hi as <-. cbn. rewrite map_map.
    rewrite (map_ext _ fst) by (intros [a b]; reflexivity).
    apply map_fst_combine. rewrite (proj1 (transpose_lengths T r Hr)). lia.
  - cbn. rewrite map_map.
    rewrite (map_ext _ (fun p => nth i (snd p) [])) by (intros [a b]; reflexivity).
    rewrite <- (map_map snd (fun tb => nth i tb [])), map_snd_combine; [apply IH; exact Hi|].
    rewrite (proj1 (transpose_lengths T r Hr)). lia.
Qed.

Lemma nth_error_seq0 (B i : nat) : i < B -> nth_error (seq 0 B) i = Some i.
Proof.
  intros H. rewrite nth_error_nth' with (d := 0) by (rewrite length_seq; exact H).
  rewrite seq_nth by exact H. reflexivity.
Qed.

Lemma nth_error_repeat_lt {X : Type} (x : X) (n i : nat) : i < n -> nth_error (repeat x n) i = Some x.
Proof. revert i. induction n; intros [|i] H; cbn; try lia; auto. apply IHn. lia. Qed.

Lemma omap_map_all {X Y : Type} (f : X -> option Y) (h : X -> Y) l :
  (forall x, In x l -> f x = Some (h x)) -> omap f l = Some (map h l).
Proof.
  induction l as [|x l IH]; intros H; cbn; [reflexivity|].
  rewrite (H x (or_introl eq_refl)). cbn. rewrite IH; [reflexivity|].
  intros y Hy. apply H. right. exact Hy.
Qed.

(** C9: for a (B, T, C) model output, a (B, S) target tensor and target
    lengths at most S, [compute_loss] returns the batch mean of the
    per-sample terms, and the term of sample [i] is the CTC loss computed
    from all T time steps of the sample's log-probabilities (input length T
    for every sample) and from the first [seq_len[i]] target indices (target
    length [seq_len[i]]), divided by [max 1 seq_len[i]], where an infinite
    loss counts as zero. No term and hence no result is the infinite case. *)
Theorem compute_loss_ctc {F : Type} (Fexp Flog : F -> F) (Fadd Fsub Fdiv : F -> F -> F) (F0 : F)
    (Fofnat : nat -> F) (ctc_nll : list (list F) -> list nat -> ext F)
    (model_output : list (list (list F))) (gt : list (list nat)) (seq_len : list nat) (T S : nat) :
  Forall (fun s => length s = T) model_output ->
  Forall (fun tgt => length tgt = S) gt ->
  Forall (fun l => l <= S) seq_len ->
  length gt = length model_output -> length seq_len = length model_output ->
  exists terms,
    compute_loss Fexp Flog Fadd Fsub Fdiv F0 Fofnat ctc_nll model_output gt seq_len =
      Some (Fdiv (fold_right Fadd F0 terms) (Fofnat (length model_output))) /\
    length terms = length model_output /\
    forall i s tgt l, nth_error model_output i = Some s -> nth_error gt i = Some tgt ->
      nth_error seq_len i = Some l ->
      nth_error terms i = Some (Fdiv
        (match ctc_nll (map (log_softmax_row Fexp Flog Fadd Fsub F0) s) (firstn l tgt) with
         | Fin v => v | Inf => F0 end) (Fofnat (Nat.max 1 l))).
Proof.
  intros HT HS Hl Hgt Hsl. unfold compute_loss, ctc_loss_zero_inf.
  set (T' := match model_output with [] => 0 | s :: _ => length s end).
  set (lsm := log_softmax_row Fexp Flog Fadd Fsub F0).
  set (preds := transpose T' (map (map lsm) model_output)).
  assert (HT' : Forall (fun s => length s = T') (map (map lsm) model_output)).
  { apply Forall_map. subst T'. destruct HT as [|s0 r Hs0 Hr]; constructor.
    - rewrite length_map. reflexivity.
    - eapply Forall_impl; [|exact Hr]. intros s Hs. cbn. rewrite length_map. congruence. }
  destruct (transpose_lengths T' _ HT') as [Lp Fp]. fold preds in Lp, Fp.
  rewrite length_map in Fp.
  replace (forallb (fun tb => length tb =? length gt) preds) with true
    by (symmetry; apply forallb_forall; intros tb Htb; rewrite Forall_forall in Fp;
        rewrite (Fp tb Htb), Hgt; apply Nat.eqb_refl).
  rewrite repeat_length, Hsl, Hgt, Nat.eqb_refl, Lp. cbn [negb andb].
  set (h := fun p : nat * nat * nat => let '(i, il, tl) := p in
    Fdiv (match ctc_nll (map (fun tb => nth i tb []) (firstn il preds)) (firstn tl (nth i gt []))
          with Fin v => v | Inf => F0 end) (Fofnat (Nat.max 1 tl))).
  set (L := combine (combine (seq 0 (length model_output)) (repeat T' (length model_output))) seq_len).
  rewrite (omap_map_all _ h L).
  2:{ intros [[i il] tl] Hin. subst L.
      pose proof (in_combine_l _ _ _ _ Hin) as Hin1. apply in_combine_r in Hin.
      pose proof (in_combine_l _ _ _ _ Hin1) as Hi. apply in_combine_r in Hin1.
      apply in_seq in Hi. apply repeat_spec in Hin1. subst il.
      destruct (nth_error gt i) as [tgt|] eqn:Eg;
        [|apply nth_error_None in Eg; lia].
      cbn [obind]. rewrite Forall_forall in HS, Hl.
      rewrite (HS tgt (nth_error_In _ _ Eg)).
      replace (T' <? T') with false by (symmetry; apply Nat.ltb_irrefl).
      replace (S <? tl) with false by (symmetry; apply Nat.ltb_ge; apply Hl; exact Hin).
      cbn. rewrite (nth_error_nth _ _ _ Eg). reflexivity. }
  cbn [obind]. eexists. split; [reflexivity|].
  split; [subst L; rewrite length_map, !length_combine, length_seq, repeat_length; lia|].
  intros i s tgt l Hs Hg Hli.
  assert (Hi : i < length model_output) by (apply nth_error_Some; congruence).
  rewrite nth_error_map.
  subst L. rewrite (nth_error_combine_lt _ _ i (i, T') l);
    [|apply nth_error_combine_lt; [apply nth_error_seq0|apply nth_error_repeat_lt]; exact Hi
     |exact Hli].
  cbn. subst h. cbn beta iota.
  rewrite firstn_all2 by lia. unfold preds.
  rewrite (transpose_col T' _ i (map lsm s) HT') by (rewrite nth_error_map, Hs; reflexivity).
  rewrite (nth_error_nth _ _ _ Hg). reflexivity.
Qed.

Lemma compute_loss_ctc_witness :
  let out := [[[1;2];[3;4];[5;6]]; [[1;2];[3;4];[5;6]]] in
  let nll := fun (lp : list (list nat)) (t : list nat) => if length t =? 2 then Inf else Fin (10 * length lp) in
  compute_loss S (fun x => x) Nat.add Nat.sub Nat.div 0 (fun n => n) nll out [[1;1];[1;0]] [2;1] = Some 15 /\
  exists terms,
    compute_loss S (fun x => x) Nat.add Nat.sub Nat.div 0 (fun n => n) nll out [[1;1];[1;0]] [2;1] =
      Some (Nat.div (fold_right Nat.add 0 terms) (length out)) /\
    length terms = length out /\
    forall i s tgt l, nth_error out i = Some s -> nth_error [[1;1];[1;0]] i = Some tgt ->
      nth_error [2;1] i = Some l ->
      nth_error terms i = Some (Nat.div
        (match nll (map (log_softmax_row S (fun x => x) Nat.add Nat.sub 0) s) (firstn l tgt) with
         | Fin v => v | Inf => 0 end) (Nat.max 1 l)).
Proof.
  intros out nll. split; [vm_compute; reflexivity|].
  apply (compute_loss_ctc S (fun x => x) Nat.add Nat.sub Nat.div 0 (fun n => n) nll out
           [[1;1];[1;0]] [2;1] 3 2); repeat constructor.
Defined.

(** ** C8 and C10: forward *)

Section ForwardProps.

Variables Tin Tfeat Tlogits Tpreds Tloss : Type.
Variable feat_extractor : Tin -> option Tfeat.
Variable head : Tfeat -> option Tlogits.
Variable to_float32 : Tlogits -> Tlogits.
Variable postprocessor : Tlogits -> option Tpreds.
Variable loss_fn : Tlogits -> list (list nat) -> list nat -> option Tloss.
Variable vocab : string.
Variable max_length : nat.
Variable last_dim : Tfeat -> nat.
Variable feat_as_logits : Tfeat -> Tlogits.

(** C8: in training mode without targets, both variants run the feature
    extractor and the head (the vip variant skips the head on features with
    [len(vocab) + 1] channels) and then raise the usage error; an exception
    of the feature extractor or of the head is raised instead. Nothing is
    decoded, no target is built and no loss is computed. *)
Theorem forward_training_without_target exportable x return_model_output return_preds :
  forward_viptr feat_extractor head to_float32 postprocessor loss_fn vocab max_length
    true exportable x None return_model_output return_preds =
  match feat_extractor x with
  | None => ([EFeat], inl (Raised EFeat))
  | Some f =>
      match head f with
      | None => ([EFeat; EHead], inl (Raised EHead))
      | Some _ => ([EFeat; EHead], inl LabelsMissing)
      end
  end /\
  forward_vip feat_extractor head to_float32 postprocessor loss_fn vocab max_length
    last_dim feat_as_logits true exportable x None return_model_output return_preds =
  match feat_extractor x with
  | None => ([EFeat], inl (Raised EFeat))
  | Some f =>
      if last_dim f =? String.length vocab + 1 then ([EFeat], inl LabelsMissing) else
      match head f with
      | None => ([EFeat; EHead], inl (Raised EHead))
      | Some _ => ([EFeat; EHead], inl LabelsMissing)
      end
  end.
Proof.
  unfold forward_viptr, forward_vip.
  destruct (feat_extractor x) as [f|]; [|split; reflexivity]. cbn.
  destruct (last_dim f =? String.length vocab + 1); cbn;
    destruct (head f); split; reflexivity.
Qed.

(** C10: with [exportable = True], whenever [forward] returns, its result
    holds exactly the key "logits" with the float32 logits, and neither the
    postprocessor nor the loss was called; in the viptr variant the only
    calls are the feature extractor and the head. *)
Theorem forward_exportable_logits_only training x target return_model_output return_preds t out :
  (forward_viptr feat_extractor head to_float32 postprocessor loss_fn vocab max_length
     training true x target return_model_output return_preds = (t, inr out) ->
   exists f l, feat_extractor x = Some f /\ head f = Some l /\
     out = [("logits"%string, VLogits (to_float32 l))] /\ t = [EFeat; EHead]) /\
  (forward_vip feat_extractor head to_float32 postprocessor loss_fn vocab max_length
     last_dim feat_as_logits training true x target return_model_output return_preds = (t, inr out) ->
   exists f l, feat_extractor x = Some f /\
     (if last_dim f =? String.length vocab + 1 then l = feat_as_logits f else head f = Some l) /\
     out = [("logits"%string, VLogits (to_float32 l))] /\ ~ In EPost t /\ ~ In ELoss t).
Proof.
  split.
  - unfold forward_viptr.
    destruct (feat_extractor x) as [f|]; cbn; [|intros E; discriminate].
    destruct (head f) as [l|] eqn:Eh; cbn; [|intros E; discriminate].
    destruct (training && is_none target); cbn; [intros E; discriminate|].
    intros E. injection E as <- <-. exists f, l. repeat split; first [reflexivity|exact Eh].
  - unfold forward_vip.
    destruct (feat_extractor x) as [f|]; cbn [mbind call]; [|intros E; discriminate].
    destruct (last_dim f =? String.length vocab + 1) eqn:Ed; cbn [negb];
      [set (l := feat_as_logits f); assert (Hl : l = feat_as_logits f) by reflexivity; cbn
      |destruct (head f) as [l|] eqn:Hl; cbn; [|intros E; discriminate]];
      (destruct (training && is_none target); cbn; [intros E; discriminate|]);
      (destruct target as [tg|]; cbn;
       [destruct (prepare_target vocab max_length tg); cbn; [|intros E; discriminate]|]);
      intros E; injection E as <- <-; exists f, l;
      (split; [reflexivity|]); (split; [rewrite Ed; exact Hl|]);
      (split; [reflexivity|]); cbn; intuition discriminate.
Qed.

End ForwardProps.

Lemma forward_training_counterexample :
  forward_viptr (fun n : nat => Some n) (fun n : nat => Some n) (fun n => n) (fun n : nat => Some n)
    (fun _ _ _ => Some 0) "ab"%string 4 true false 7 None false false =
    ([EFeat; EHead], inl LabelsMissing) /\
  forward_viptr (fun _ : nat => @None nat) (fun n : nat => Some n) (fun n => n) (fun n : nat => Some n)
    (fun _ _ _ => Some 0) "ab"%string 4 true false 7 None false false =
    ([EFeat], inl (Raised EFeat)).
Proof. split; reflexivity. Qed.

Lemma forward_exportable_counterexample :
  forward_viptr (fun n : nat => Some n) (fun n : nat => Some n) (fun n => n) (fun n : nat => Some n)
    (fun _ _ _ => Some 0) "ab"%string 4 true true 7 None false false =
    ([EFeat; EHead], inl LabelsMissing) /\
  forward_vip (fun n : nat => Some n) (fun n : nat => Some n) (fun n => n) (fun n : nat => Some n)
    (fun _ _ _ => Some 0) "ab"%string 4 (fun _ => 0) (fun n => n) false true 7 (Some ["z"%string]) false false =
    ([EFeat; EHead; EBuildTarget], inl (Raised EBuildTarget)).
Proof. split; reflexivity. Qed.

Lemma forward_exportable_logits_only_witness :
  forward_viptr (fun n : nat => Some n) (fun n : nat => Some n) (fun n => n) (fun n : nat => Some n)
    (fun _ _ _ => Some 0) "ab"%string 4 false true 7 (Some ["ab"%string]) true true =
    ([EFeat; EHead], inr [("logits"%string, VLogits 7)]) /\
  exists f l, Some 7 = Some f /\ Some f = Some l /\
    [("logits"%string, @VLogits nat nat nat 7)] = [("logits"%string, VLogits l)] /\
    [EFeat; EHead] = [EFeat; EHead].
Proof.
  split; [reflexivity|].
  apply (proj1 (forward_exportable_logits_only nat nat nat nat nat (fun n : nat => Some n)
    (fun n : nat => Some n) (fun n => n) (fun n : nat => Some n) (fun _ _ _ => Some 0) "ab"%string 4
    (fun _ => 0) (fun n => n) false 7 (Some ["ab"%string]) true true [EFeat; EHead]
    [("logits"%string, VLogits 7)])).
  reflexivity.
Defined.

(** ** C4: shapes through the encoder *)

Lemma obind_assoc {X Y Z : Type} (m : option X) (f : X -> option Y) (g : Y -> option Z) :
  obind (obind m f) g = obind m (fun x => obind (f x) g).
Proof. destruct m; reflexivity. Qed.

Lemma view_shape_exact s t :
  count_infer t = 0 -> numel s = fixed_prod t -> view_shape s t = Some (fill_infer t 0).
Proof. intros Hc Hn. unfold view_shape. apply infer_size_exact; assumption. Qed.

Lemma view_shape_one s t k :
  count_infer t = 1 -> 0 < fixed_prod t -> numel s = k * fixed_prod t ->
  view_shape s t = Some (fill_infer t k).
Proof. intros Hc Hp Hn. unfold view_shape. rewrite Hn. apply infer_size_one; assumption. Qed.

Lemma pydiv_mul_r a b : 0 < b -> pydiv (a * b) b = Some a.
Proof. intros Hb. rewrite Nat.mul_comm. apply pydiv_mul. exact Hb. Qed.

Lemma bcast_refl n : bcast n n = Some n.
Proof. unfold bcast. rewrite Nat.eqb_refl. reflexivity. Qed.

Lemma add_shape_refl s : add_shape s s = Some s.
Proof.
  unfold add_shape. rewrite Nat.eqb_refl.
  induction s as [|n s IH]; [reflexivity|].
  cbn [combine omap]. rewrite bcast_refl. cbn [obind]. rewrite IH. reflexivity.
Qed.

Ltac pos_tac := cbn [fixed_prod]; repeat apply Nat.mul_pos_pos; lia.

(** Rewrite the [view_shape] at the head of the goal, [k] being the size
    taken by the [-1] (if any). *)
Ltac vstep k :=
  lazymatch goal with
  | |- context [view_shape ?s ?t] =>
      first
        [ rewrite (view_shape_exact s t) by
            (reflexivity || (cbn [numel fold_right fixed_prod]; lia))
        | rewrite (view_shape_one s t k) by
            (reflexivity || pos_tac || (cbn [numel fold_right fixed_prod]; lia)) ];
      cbn [fill_infer map obind]
  end.

(** Evaluate the operation at the head of the goal, when it computes to
    [Some] by [cbn] (permutations, selections, slices on sizes that are
    variables in fixed positions). *)
Ltac sstep :=
  rewrite ?obind_assoc;
  lazymatch goal with
  | |- obind ?m _ = _ =>
      let m' := eval cbn in m in
      lazymatch m' with
      | Some _ => change m with m'; cbn [obind]
      end
  | |- ?m = _ =>
      let m' := eval cbn in m in
      lazymatch m' with
      | Some _ => change m with m'
      end
  end.

Ltac side_pos :=
  first
    [ assumption | lia
    | let E := fresh in
      intro E;
      match goal with Ht : ?t = true -> _, E' : ?t = true |- _ => specialize (Ht E'); nia end
    | nia ].

Ltac pstep lem := rewrite lem by side_pos; cbn [obind].

Lemma img2windows_shape_ok B C hs ws p q :
  0 < hs -> 0 < ws -> 0 < C ->
  img2windows_shape [B; C; hs * p; ws * q] hs ws = Some [B * p * q; hs * ws; C].
Proof.
  intros Hh Hw HC. unfold img2windows_shape.
  pstep (pydiv_mul p hs Hh). pstep (pydiv_mul q ws Hw).
  vstep 0. sstep. vstep (B * p * q). reflexivity.
Qed.

Lemma windows2img_shape_ok B C hs ws p q :
  0 < B -> 0 < hs -> 0 < ws -> 0 < p -> 0 < q -> 0 < C ->
  windows2img_shape [B * p * q; hs * ws; C] hs ws (hs * p) (ws * q) = Some [B; hs * p; ws * q; C].
Proof.
  intros HB Hh Hw Hp Hq HC. unfold windows2img_shape.
  rewrite (proj2 (Nat.eqb_neq hs 0)), (proj2 (Nat.eqb_neq ws 0)),
    (proj2 (Nat.eqb_neq (hs * p * (ws * q)) 0)) by nia. cbn [orb].
  replace (B * p * q * hs * ws / (hs * p * (ws * q))) with B
    by (replace (B * p * q * hs * ws) with (B * (hs * p * (ws * q))) by lia;
        rewrite Nat.div_mul by nia; reflexivity).
  pstep (pydiv_mul p hs Hh). pstep (pydiv_mul q ws Hw).
  vstep C. sstep. vstep C. reflexivity.
Qed.

Lemma matmul_shape4 b n m k r :
  matmul_shape [b; n; m; k] [b; n; k; r] = Some [b; n; m; r].
Proof.
  unfold matmul_shape. cbn [rev app]. rewrite !Nat.eqb_refl. cbn [andb length combine omap].
  rewrite !bcast_refl. reflexivity.
Qed.

Lemma cat_shape3 a b c d : cat_shape 2 [a; b; c] [a; b; d] = Some [a; b; c + d].
Proof.
  unfold cat_shape. cbn [length Nat.eqb Nat.ltb Nat.leb andb seq forallb nth orb].
  rewrite !Nat.eqb_refl. reflexivity.
Qed.

Lemma layer_norm_shape3 a b d : layer_norm_shape d [a; b; d] = Some [a; b; d].
Proof. unfold layer_norm_shape. cbn [rev app]. rewrite Nat.eqb_refl. reflexivity. Qed.

Lemma layer_norm_shape4 a b c d : layer_norm_shape d [a; b; c; d] = Some [a; b; c; d].
Proof. unfold layer_norm_shape. cbn [rev app]. rewrite Nat.eqb_refl. reflexivity. Qed.

Lemma linear_shape3 a b i o : linear_shape i o [a; b; i] = Some [a; b; o].
Proof. unfold linear_shape. cbn [rev app]. rewrite Nat.eqb_refl. reflexivity. Qed.

Lemma feed_forward_shape3 a b d h : feed_forward_shape d h [a; b; d] = Some [a; b; d].
Proof.
  unfold feed_forward_shape. rewrite linear_shape3. cbn [obind]. apply linear_shape3.
Qed.

Lemma conv_out_1x1 n : 0 < n -> conv_out n 1 1 0 = Some n.
Proof.
  intros Hn. unfold conv_out.
  replace (n + 2 * 0 <? 1) with false by (symmetry; apply Nat.ltb_ge; lia).
  rewrite Nat.div_1_r. f_equal. lia.
Qed.

Lemma conv_out_half k : 0 < k -> conv_out (k * 2) 3 2 1 = Some k.
Proof. intros Hk. rewrite Nat.mul_comm. apply conv_out_stride2. exact Hk. Qed.

Lemma conv_out_sr2 k : 0 < k -> conv_out (k * 2) 5 2 2 = Some k.
Proof.
  intros Hk. unfold conv_out.
  replace (k * 2 + 2 * 2 <? 5) with false by (symmetry; apply Nat.ltb_ge; lia).
  f_equal. replace (k * 2 + 2 * 2 - 5) with ((k - 1) * 2 + 1) by lia.
  rewrite Nat.div_add_l by lia. cbn. lia.
Qed.

Lemma conv3_shape b c c' g h w :
  0 < h -> 0 < w -> conv2d_shape (mkConv c c' 3 3 1 1 1 1 g) [b; c; h; w] = Some [b; c'; h; w].
Proof.
  intros Hh Hw. unfold conv2d_shape. cbn [c_in c_out k_h k_w s_h s_w p_h p_w].
  rewrite Nat.eqb_refl, !conv_out_same by assumption. reflexivity.
Qed.

Lemma conv1_shape b c c' g h w :
  0 < h -> 0 < w -> conv2d_shape (mkConv c c' 1 1 1 1 0 0 g) [b; c; h; w] = Some [b; c'; h; w].
Proof.
  intros Hh Hw. unfold conv2d_shape. cbn [c_in c_out k_h k_w s_h s_w p_h p_w].
  rewrite Nat.eqb_refl, !conv_out_1x1 by assumption. reflexivity.
Qed.

Lemma batch_norm2d_shape_ok training n c h w :
  (training = true -> n * h * w <> 1) ->
  batch_norm2d_shape training c [n; c; h; w] = Some [n; c; h; w].
Proof.
  intros Ht. unfold batch_norm2d_shape. rewrite Nat.eqb_refl. cbn [negb].
  destruct training; [|reflexivity].
  rewrite (proj2 (Nat.eqb_neq _ 1)) by (apply Ht; reflexivity). reflexivity.
Qed.

Lemma chunk2_shape1 b c h w :
  0 < c -> chunk2_shape 1 [b; c * 2; h; w] = Some ([b; c; h; w], [b; c; h; w]).
Proof.
  intros Hc. unfold chunk2_shape. cbn [length Nat.ltb Nat.leb nth firstn skipn app].
  rewrite (proj2 (Nat.eqb_neq (c * 2) 1)) by lia.
  replace ((c * 2 + 1) / 2) with c by (rewrite Nat.add_comm, Nat.div_add by lia; reflexivity).
  replace (c * 2 - c) with c by lia. reflexivity.
Qed.

Lemma chunk2_shape2 b n c :
  0 < c -> chunk2_shape 2 [b; n; c * 2] = Some ([b; n; c], [b; n; c]).
Proof.
  intros Hc. unfold chunk2_shape. cbn [length Nat.ltb Nat.leb nth firstn skipn app].
  rewrite (proj2 (Nat.eqb_neq (c * 2) 1)) by lia.
  replace ((c * 2 + 1) / 2) with c by (rewrite Nat.add_comm, Nat.div_add by lia; reflexivity).
  replace (c * 2 - c) with c by lia. reflexivity.
Qed.


Lemma im2cswin_shape_ok a B C H W hs ws p q hd :
  0 < hs -> 0 < ws -> 0 < hd -> 0 < lepe_heads a ->
  H = hs * p -> W = ws * q -> C = lepe_heads a * hd ->
  cswin_split a (H, W) = Some (hs, ws) ->
  im2cswin_shape a [B; H * W; C] (H, W) = Some [B * p * q; lepe_heads a; hs * ws; hd].
Proof.
  intros Hh Hw Hhd Hn -> -> -> Hs. unfold im2cswin_shape.
  sstep. vstep 0. pstep Hs.
  pstep (img2windows_shape_ok B (lepe_heads a * hd) hs ws p q Hh Hw ltac:(nia)).
  pstep (pydiv_mul hd (lepe_heads a) Hn). vstep (B * p * q). sstep. reflexivity.
Qed.

Lemma get_lepe_shape_ok a B C H W hs ws p q hd :
  0 < hs -> 0 < ws -> 0 < hd -> 0 < lepe_heads a ->
  H = hs * p -> W = ws * q -> C = lepe_heads a * hd -> lepe_dim a = C ->
  cswin_split a (H, W) = Some (hs, ws) ->
  get_lepe_shape a [B; H * W; C] (H, W) =
  Some ([B * p * q; lepe_heads a; hs * ws; hd], [B * p * q; lepe_heads a; hs * ws; hd]).
Proof.
  intros Hh Hw Hhd Hn -> -> -> Hd Hs. unfold get_lepe_shape.
  sstep. vstep 0. pstep Hs.
  pstep (pydiv_mul p hs Hh). pstep (pydiv_mul q ws Hw).
  vstep 0. sstep. vstep (B * p * q).
  unfold get_v. rewrite Hd. pstep (conv3_shape (B * p * q) (lepe_heads a * hd)
    (lepe_heads a * hd) (lepe_heads a * hd) hs ws Hh Hw).
  pstep (pydiv_mul hd (lepe_heads a) Hn).
  vstep (B * p * q). sstep. sstep. reflexivity.
Qed.

Lemma lepe_forward_shape_ok a B C H W hs ws p q hd :
  0 < B -> 0 < hs -> 0 < ws -> 0 < p -> 0 < q -> 0 < hd -> 0 < lepe_heads a ->
  H = hs * p -> W = ws * q -> C = lepe_heads a * hd -> lepe_dim a = C ->
  cswin_split a (H, W) = Some (hs, ws) ->
  lepe_forward_shape a [3; B; H * W; C] (H, W) = Some [B; H * W; C].
Proof.
  intros HB Hh Hw Hp Hq Hhd Hn EH EW EC Hd Hs. unfold lepe_forward_shape.
  sstep. sstep. sstep. pstep Hs.
  pstep (im2cswin_shape_ok a B C H W hs ws p q hd Hh Hw Hhd Hn EH EW EC Hs).
  pstep (get_lepe_shape_ok a B C H W hs ws p q hd Hh Hw Hhd Hn EH EW EC Hd Hs).
  sstep. pstep (matmul_shape4 (B * p * q) (lepe_heads a) (hs * ws) hd (hs * ws)).
  pstep (matmul_shape4 (B * p * q) (lepe_heads a) (hs * ws) (hs * ws) hd).
  pstep (add_shape_refl [B * p * q; lepe_heads a; hs * ws; hd]).
  sstep. subst H W C. vstep (B * p * q).
  pstep (windows2img_shape_ok B (lepe_heads a * hd) hs ws p q HB Hh Hw Hp Hq ltac:(nia)).
  vstep (hs * p * (ws * q)). reflexivity.
Qed.

Ltac side_tac :=
  first [ reflexivity | lia | cbn; lia | apply Nat.Div0.div_exact; assumption
        | apply Nat.Div0.mod_mul ].

Lemma cswin_block_shape_ok dim num_heads split mlp B H W c2 h2 hd :
  0 < B -> 0 < H -> 0 < W -> 0 < split -> 0 < h2 -> 0 < hd ->
  dim / 2 = c2 -> num_heads / 2 = h2 -> c2 = h2 * hd -> dim = c2 + c2 ->
  H mod split = 0 -> W mod split = 0 ->
  cswin_block_shape dim num_heads split mlp [B; H * W; dim] (H, W) = Some [B; H * W; dim].
Proof.
  intros HB HH HW Hs Hh2 Hhd Hd2 Hn2 Hc2 Hdim HmH HmW.
  assert (EH : H = split * (H / split)) by (apply Nat.Div0.div_exact; assumption).
  assert (EW : W = split * (W / split)) by (apply Nat.Div0.div_exact; assumption).
  assert (0 < H / split) by nia. assert (0 < W / split) by nia.
  unfold cswin_block_shape. cbn beta iota zeta. rewrite Nat.eqb_refl. cbn [negb].
  pstep layer_norm_shape3. pstep linear_shape3. vstep (H * W). sstep.
  unfold cswin_block_attns. rewrite Hd2, Hn2. cbn [map seq]. rewrite !obind_assoc.
  sstep. replace (Nat.min c2 dim - 0) with c2 by lia.
  rewrite (lepe_forward_shape_ok _ B c2 H W H split 1 (W / split) hd) by side_tac.
  cbn [obind]. sstep.
  replace (dim - Nat.min c2 dim) with c2 by lia.
  rewrite (lepe_forward_shape_ok _ B c2 H W split W (H / split) 1 hd) by side_tac.
  cbn [obind]. pstep cat_shape3. rewrite <- Hdim.
  pstep linear_shape3. pstep add_shape_refl. pstep layer_norm_shape3.
  pstep feed_forward_shape3. apply add_shape_refl.
Qed.

Lemma mhsa_block_shape_ok dim num_heads mlp B N hd :
  0 < N -> 0 < num_heads -> 0 < hd -> dim = num_heads * hd ->
  mhsa_block_shape dim num_heads mlp [B; N; dim] = Some [B; N; dim].
Proof.
  intros HN Hn Hhd ->. unfold mhsa_block_shape.
  pstep layer_norm_shape3. unfold attention_shape. cbn beta iota zeta.
  pstep linear_shape3. pstep (pydiv_mul hd num_heads Hn). vstep B.
  sstep. sstep. sstep. sstep. sstep.
  pstep matmul_shape4. pstep matmul_shape4. sstep. vstep B. pstep linear_shape3.
  pstep add_shape_refl. pstep layer_norm_shape3. pstep feed_forward_shape3.
  apply add_shape_refl.
Qed.

Lemma conv_sr2_shape b c c' g h w :
  0 < h -> 0 < w ->
  conv2d_shape (mkConv c c' 5 5 2 2 2 2 g) [b; c; h * 2; w * 2] = Some [b; c'; h; w].
Proof.
  intros Hh Hw. unfold conv2d_shape. cbn [c_in c_out k_h k_w s_h s_w p_h p_w].
  rewrite Nat.eqb_refl, !conv_out_sr2 by assumption. reflexivity.
Qed.

Lemma conv_s2_shape b c c' g h w :
  0 < h -> 0 < w ->
  conv2d_shape (mkConv c c' 3 3 2 2 1 1 g) [b; c; h * 2; w * 2] = Some [b; c'; h; w].
Proof.
  intros Hh Hw. unfold conv2d_shape. cbn [c_in c_out k_h k_w s_h s_w p_h p_w].
  rewrite Nat.eqb_refl, !conv_out_half by assumption. reflexivity.
Qed.

Lemma osra_sr_shape_ok training dim B h w :
  0 < h -> 0 < w -> (training = true -> B * h * w <> 1) ->
  osra_sr_shape training dim 2 [B; dim; h * 2; w * 2] = Some [B; dim; h; w].
Proof.
  intros Hh Hw Ht. unfold osra_sr_shape.
  change (1 <? 2) with true. cbn beta iota.
  change ((2 + 3) / 2) with 2. change (2 + 3) with 5.
  pstep conv_sr2_shape. pstep batch_norm2d_shape_ok. pstep conv1_shape.
  apply batch_norm2d_shape_ok. exact Ht.
Qed.

Lemma osra_attention_shape_ok training dim num_heads sr B H W hd h' w' :
  0 < B -> 0 < H -> 0 < W -> 0 < num_heads -> 0 < hd -> 0 < h' -> 0 < w' ->
  dim = num_heads * hd ->
  osra_sr_shape training dim sr [B; dim; H; W] = Some [B; dim; h'; w'] ->
  osra_attention_shape training dim num_heads sr [B; H * W; dim] (H, W) = Some [B; H * W; dim].
Proof.
  intros HB HH HW Hn Hhd Hh' Hw' -> Hsr. unfold osra_attention_shape. cbn beta iota zeta.
  sstep. vstep (num_heads * hd). pstep conv1_shape.
  pstep (pydiv_mul hd num_heads Hn). vstep (H * W). sstep.
  pstep Hsr. pstep conv3_shape. pstep add_shape_refl. pstep conv1_shape.
  pstep chunk2_shape1. vstep (h' * w'). sstep.
  pstep matmul_shape4. pstep matmul_shape4. sstep. vstep (H * W). sstep. reflexivity.
Qed.

Lemma osra_block_shape_ok training dim sr num_heads mlp B H W hd h' w' :
  0 < B -> 0 < H -> 0 < W -> 0 < num_heads -> 0 < hd -> 0 < h' -> 0 < w' ->
  dim = num_heads * hd ->
  osra_sr_shape training dim sr [B; dim; H; W] = Some [B; dim; h'; w'] ->
  osra_block_shape training dim sr num_heads mlp [B; H * W; dim] (H, W) = Some [B; H * W; dim].
Proof.
  intros HB HH HW Hn Hhd Hh' Hw' Hd Hsr. unfold osra_block_shape.
  pstep layer_norm_shape3.
  pstep (osra_attention_shape_ok training dim num_heads sr B H W hd h' w'
           HB HH HW Hn Hhd Hh' Hw' Hd Hsr).
  pstep add_shape_refl. pstep layer_norm_shape3. pstep feed_forward_shape3.
  apply add_shape_refl.
Qed.

Lemma lg1_proj_shape_ok training e b h w :
  0 < h -> 0 < w -> (training = true -> b * h * w <> 1) ->
  lg1_proj_shape training e [b; e; h; w] = Some [b; e; h; w].
Proof.
  intros Hh Hw Ht. unfold lg1_proj_shape. cbv zeta.
  pstep conv3_shape. pstep batch_norm2d_shape_ok. pstep conv1_shape.
  pstep batch_norm2d_shape_ok. pstep conv1_shape. apply batch_norm2d_shape_ok. exact Ht.
Qed.

Lemma patch_merging_shape_ok dim o b k w :
  0 < k -> 0 < w -> patch_merging_shape dim o [b; k * 2; w; dim] = Some [b; k; w; o].
Proof.
  intros Hk Hw. unfold patch_merging_shape. sstep.
  unfold pm_reduction, conv2d_shape. cbn [c_in c_out k_h k_w s_h s_w p_h p_w].
  rewrite Nat.eqb_refl, conv_out_half, conv_out_same by assumption. cbn [obind].
  sstep. apply layer_norm_shape4.
Qed.

Lemma patch_embed_shape_ok training c e b k m :
  0 < k -> 0 < m ->
  (training = true -> b * (k * 2) * (m * 2) <> 1 /\ b * k * m <> 1) ->
  patch_embed_shape training c e [b; c; k * 2 * 2; m * 2 * 2] = Some [b; k; m; e].
Proof.
  intros Hk Hm Ht. unfold patch_embed_shape, conv_bn_layer_shape.
  pstep conv_s2_shape. cbn [c_out]. pstep batch_norm2d_shape_ok.
  pstep conv_s2_shape. cbn [c_out]. pstep batch_norm2d_shape_ok. sstep. reflexivity.
Qed.

Lemma iter_shape_fixed n step x : step x = Some x -> iter_shape n step x = Some x.
Proof. intros Hs. induction n as [|n IH]; cbn; [reflexivity|]. rewrite Hs. exact IH. Qed.

Lemma local1_layer_shape_ok training l b h w d :
  0 < b -> 0 < h -> 0 < w -> 0 < d ->
  layer_mixer_type l = "Local1"%string -> layer_embed_dim l = d ->
  cswin_block_shape d (layer_num_heads l) (layer_split_size l) (layer_mlp_ratio l)
    [b; h * w; d] (h, w) = Some [b; h * w; d] ->
  basic_layer_shape training l [b; h; w; d] (h, w) = layer_downsampled l [b; h; w; d].
Proof.
  intros Hb Hh Hw Hd Hmix Hdim Hblk. unfold basic_layer_shape. cbn beta iota zeta.
  rewrite Hmix, Hdim. cbn [String.eqb Ascii.eqb Bool.eqb andb].
  rewrite iter_shape_fixed; [reflexivity|].
  sstep. vstep (h * w). pstep Hblk. vstep d. reflexivity.
Qed.

Lemma global2_layer_shape_ok training l b h w d :
  0 < b -> 0 < h -> 0 < w -> 0 < d ->
  layer_mixer_type l = "Global2"%string -> layer_embed_dim l = d ->
  mhsa_block_shape d (layer_num_heads l) (layer_mlp_ratio l) [b; h * w; d] = Some [b; h * w; d] ->
  basic_layer_shape training l [b; h; w; d] (h, w) = layer_downsampled l [b; h; w; d].
Proof.
  intros Hb Hh Hw Hd Hmix Hdim Hblk. unfold basic_layer_shape. cbn beta iota zeta.
  rewrite Hmix, Hdim. cbn [String.eqb Ascii.eqb Bool.eqb andb].
  rewrite iter_shape_fixed; [reflexivity|].
  sstep. vstep (h * w). pstep Hblk. vstep d. reflexivity.
Qed.

Lemma lg1_layer_shape_ok training l b h w d c2 :
  0 < b -> 0 < h -> 0 < w -> 0 < c2 -> d = c2 * 2 ->
  layer_mixer_type l = "LG1"%string -> layer_embed_dim l = d ->
  cswin_block_shape c2 (layer_num_heads l) (layer_split_size l) (layer_mlp_ratio l)
    [b; h * w; c2] (h, w) = Some [b; h * w; c2] ->
  osra_block_shape training c2 (layer_sr_ratio l) (layer_num_heads l / 2) (layer_mlp_ratio l)
    [b; h * w; c2] (h, w) = Some [b; h * w; c2] ->
  lg1_proj_shape training d [b; d; h; w] = Some [b; d; h; w] ->
  basic_layer_shape training l [b; h; w; d] (h, w) = layer_downsampled l [b; h; w; d].
Proof.
  intros Hb Hh Hw Hc2 -> Hmix Hdim Hblk1 Hblk2 Hproj. unfold basic_layer_shape.
  cbn beta iota zeta. rewrite Hmix, Hdim, Nat.div_mul by lia.
  cbn [String.eqb Ascii.eqb Bool.eqb andb].
  rewrite iter_shape_fixed; [reflexivity|].
  sstep. vstep (h * w). pstep chunk2_shape2. pstep Hblk1. pstep Hblk2. pstep cat_shape3.
  sstep. vstep (c2 * 2). pstep Hproj. pstep add_shape_refl. sstep. vstep (c2 * 2).
  reflexivity.
Qed.

Lemma adaptive_avg_pool2d_shape_ok oh ow n c h w :
  0 < c -> 0 < h -> 0 < w -> adaptive_avg_pool2d_shape oh ow [n; c; h; w] = Some [n; c; oh; ow].
Proof.
  intros Hc Hh Hw. unfold adaptive_avg_pool2d_shape.
  rewrite (proj2 (Nat.eqb_neq c 0)), (proj2 (Nat.eqb_neq h 0)), (proj2 (Nat.eqb_neq w 0))
    by lia.
  reflexivity.
Qed.

Lemma viptr_layers_VIPTRv2 :
  viptr_layers VIPTRv2 =
  [mkLayer 64 (Some 128) 3 2 3 1 4 "Local1" true;
   mkLayer 128 (Some 256) 3 4 4 2 2 "LG1" true;
   mkLayer 256 None 3 8 4 4 2 "Global2" false]%string.
Proof. reflexivity. Qed.

Lemma viptr_layers_VIPTRv2B :
  viptr_layers VIPTRv2B =
  [mkLayer 128 (Some 256) 3 4 4 1 4 "Local1" true;
   mkLayer 256 (Some 384) 6 8 4 2 2 "LG1" true;
   mkLayer 384 None 9 12 4 4 2 "Global2" false]%string.
Proof. reflexivity. Qed.

Ltac layer_side := first [ reflexivity | lia | assumption ].

(** Both configurations on a (b, 3, 16 hh, 8 ww) input; in training mode the
    [BatchNorm2d] of the spatial reduction of [OSRA_Attention] sees
    [b * hh * ww] values per channel. *)
Lemma forward_features_VIPTRv2 training b hh ww :
  0 < b -> 0 < hh -> 0 < ww -> (training = true -> 1 < b * hh * ww) ->
  forward_features_shape training VIPTRv2 [b; 3; hh * 4 * 2 * 2; ww * 2 * 2 * 2] =
  Some [b; ww * 2; 384].
Proof.
  intros Hb Hh Hw Ht. unfold forward_features_shape.
  cbn [VIPTRv2 in_chans out_dim embed_dims depths nth length last Nat.sub].
  pstep patch_embed_shape_ok. rewrite viptr_layers_VIPTRv2. cbn [layers_shape obind].
  assert (B0 : cswin_block_shape 64 2 1 3 [b; hh * 4 * (ww * 2); 64] (hh * 4, ww * 2)
               = Some [b; hh * 4 * (ww * 2); 64])
    by (apply (cswin_block_shape_ok _ _ _ _ _ _ _ 32 1 32); side_tac).
  rewrite (local1_layer_shape_ok training _ b (hh * 4) (ww * 2) 64) by layer_side.
  cbn [layer_downsampled layer_downsample layer_out_dim].
  replace (hh * 4) with (hh * 2 * 2) by lia.
  pstep patch_merging_shape_ok. cbn [nth_error obind].
  assert (B1 : cswin_block_shape 64 4 2 4 [b; hh * 2 * (ww * 2); 64] (hh * 2, ww * 2)
               = Some [b; hh * 2 * (ww * 2); 64])
    by (apply (cswin_block_shape_ok _ _ _ _ _ _ _ 32 2 16); side_tac).
  assert (S1 : osra_sr_shape training 64 2 [b; 64; hh * 2; ww * 2] = Some [b; 64; hh; ww])
    by (apply osra_sr_shape_ok; side_pos).
  assert (B2 : osra_block_shape training 64 2 (4 / 2) 4 [b; hh * 2 * (ww * 2); 64] (hh * 2, ww * 2)
               = Some [b; hh * 2 * (ww * 2); 64])
    by (apply (osra_block_shape_ok _ _ _ _ _ _ _ _ 32 hh ww); side_tac || exact S1).
  assert (P1 : lg1_proj_shape training 128 [b; 128; hh * 2; ww * 2] = Some [b; 128; hh * 2; ww * 2])
    by (apply lg1_proj_shape_ok; side_pos).
  rewrite (lg1_layer_shape_ok training _ b (hh * 2) (ww * 2) 128 64) by layer_side.
  cbn [layer_downsampled layer_downsample layer_out_dim].
  pstep patch_merging_shape_ok. cbn [nth_error obind].
  assert (B3 : mhsa_block_shape 256 8 4 [b; hh * (ww * 2); 256] = Some [b; hh * (ww * 2); 256])
    by (apply (mhsa_block_shape_ok _ _ _ _ _ 32); side_tac).
  rewrite (global2_layer_shape_ok training _ b hh (ww * 2) 256) by layer_side.
  cbn [layer_downsampled layer_downsample layer_out_dim layers_shape nth_error obind].
  pstep layer_norm_shape4. sstep. pstep adaptive_avg_pool2d_shape_ok. sstep.
  apply linear_shape3.
Qed.

Lemma forward_features_VIPTRv2B training b hh ww :
  0 < b -> 0 < hh -> 0 < ww -> (training = true -> 1 < b * hh * ww) ->
  forward_features_shape training VIPTRv2B [b; 3; hh * 4 * 2 * 2; ww * 2 * 2 * 2] =
  Some [b; ww * 2; 384].
Proof.
  intros Hb Hh Hw Ht. unfold forward_features_shape.
  cbn [VIPTRv2B in_chans out_dim embed_dims depths nth length last Nat.sub].
  pstep patch_embed_shape_ok. rewrite viptr_layers_VIPTRv2B. cbn [layers_shape obind].
  assert (B0 : cswin_block_shape 128 4 1 4 [b; hh * 4 * (ww * 2); 128] (hh * 4, ww * 2)
               = Some [b; hh * 4 * (ww * 2); 128])
    by (apply (cswin_block_shape_ok _ _ _ _ _ _ _ 64 2 32); side_tac).
  rewrite (local1_layer_shape_ok training _ b (hh * 4) (ww * 2) 128) by layer_side.
  cbn [layer_downsampled layer_downsample layer_out_dim].
  replace (hh * 4) with (hh * 2 * 2) by lia.
  pstep patch_merging_shape_ok. cbn [nth_error obind].
  assert (B1 : cswin_block_shape 128 8 2 4 [b; hh * 2 * (ww * 2); 128] (hh * 2, ww * 2)
               = Some [b; hh * 2 * (ww * 2); 128])
    by (apply (cswin_block_shape_ok _ _ _ _ _ _ _ 64 4 16); side_tac).
  assert (S1 : osra_sr_shape training 128 2 [b; 128; hh * 2; ww * 2] = Some [b; 128; hh; ww])
    by (apply osra_sr_shape_ok; side_pos).
  assert (B2 : osra_block_shape training 128 2 (8 / 2) 4 [b; hh * 2 * (ww * 2); 128]
                 (hh * 2, ww * 2) = Some [b; hh * 2 * (ww * 2); 128])
    by (apply (osra_block_shape_ok _ _ _ _ _ _ _ _ 32 hh ww); side_tac || exact S1).
  assert (P1 : lg1_proj_shape training 256 [b; 256; hh * 2; ww * 2] = Some [b; 256; hh * 2; ww * 2])
    by (apply lg1_proj_shape_ok; side_pos).
  rewrite (lg1_layer_shape_ok training _ b (hh * 2) (ww * 2) 256 128) by layer_side.
  cbn [layer_downsampled layer_downsample layer_out_dim].
  pstep patch_merging_shape_ok. cbn [nth_error obind].
  assert (B3 : mhsa_block_shape 384 12 4 [b; hh * (ww * 2); 384] = Some [b; hh * (ww * 2); 384])
    by (apply (mhsa_block_shape_ok _ _ _ _ _ 32); side_tac).
  rewrite (global2_layer_shape_ok training _ b hh (ww * 2) 384) by layer_side.
  cbn [layer_downsampled layer_downsample layer_out_dim layers_shape nth_error obind].
  pstep layer_norm_shape4. sstep. pstep adaptive_avg_pool2d_shape_ok. sstep.
  apply linear_shape3.
Qed.

(** C4. For both configurations of the encoder ([VIPTRv2]: embed dims
    [64; 128; 256], depths [3; 3; 3], downsampling after stages 0 and 1;
    [VIPTRv2B]), in training and in evaluation mode, every batch size [b]
    and every (b, 3, H, W) input whose height and width are positive and
    divisible by 16 (4 from the patch embedding times 2 per downsampling
    stage), [forward_features] succeeds and returns a (b, W / 4, 384)
    sequence: its length depends only on the width. The model is on shapes
    only, so the result does not depend on the content of the tensor. *)
Theorem viptr_encoder_output_shape training b H W :
  0 < b -> 0 < H -> 0 < W -> H mod 16 = 0 -> W mod 16 = 0 ->
  forward_features_shape training VIPTRv2 [b; 3; H; W] = Some [b; W / 4; 384] /\
  forward_features_shape training VIPTRv2B [b; 3; H; W] = Some [b; W / 4; 384].
Proof.
  intros Hb HH HW Hm16 Hw16.
  apply Nat.Div0.div_exact in Hm16, Hw16.
  remember (H / 16) as hh eqn:Ehh. remember (W / 16) as w' eqn:Ew'. clear Ehh Ew'.
  subst H W.
  replace (16 * hh) with (hh * 4 * 2 * 2) by lia.
  replace (16 * w') with (w' * 2 * 2 * 2 * 2) by lia.
  replace (w' * 2 * 2 * 2 * 2 / 4) with (w' * 2 * 2)
    by (replace (w' * 2 * 2 * 2 * 2) with (w' * 2 * 2 * 4) by lia;
        rewrite Nat.div_mul by lia; reflexivity).
  split.
  - apply forward_features_VIPTRv2; nia.
  - apply forward_features_VIPTRv2B; nia.
Qed.

Lemma viptr_encoder_output_shape_witness :
  (0 < 1 /\ 0 < 32 /\ 0 < 128 /\ 32 mod 16 = 0 /\ 128 mod 16 = 0) /\
  forward_features_shape false VIPTRv2 [1; 3; 32; 128] = Some [1; 128 / 4; 384] /\
  forward_features_shape false VIPTRv2B [1; 3; 32; 128] = Some [1; 128 / 4; 384].
Proof.
  split; [repeat split; reflexivity || lia|].
  apply (viptr_encoder_output_shape false 1 32 128); reflexivity || lia.
Defined.

(** * Further properties of the code *)

(** ** Shapes for every input size *)

(** Lower and upper bounds of every quotient by a numeral in the goal and in
    the hypotheses, for [lia]. *)
Ltac div_facts :=
  repeat match goal with
  | |- context [?a / ?k] =>
      lazymatch k with S _ =>
      lazymatch goal with
      | _ : a = k * (a / k) + a mod k |- _ => fail
      | _ => pose proof (Nat.div_mod_eq a k); pose proof (Nat.mod_upper_bound a k ltac:(lia))
      end end
  | _ : context [?a / ?k] |- _ =>
      lazymatch k with S _ =>
      lazymatch goal with
      | _ : a = k * (a / k) + a mod k |- _ => fail
      | _ => pose proof (Nat.div_mod_eq a k); pose proof (Nat.mod_upper_bound a k ltac:(lia))
      end end
  end.

Lemma ceil_half_half n : ((n + 1) / 2 + 1) / 2 = (n + 3) / 4.
Proof.
  replace ((n + 1) / 2 + 1) with ((n + 1 + 1 * 2) / 2) by (rewrite Nat.div_add; lia).
  rewrite Nat.Div0.div_div. f_equal. lia.
Qed.

Lemma ceil_quarter_half n : ((n + 3) / 4 + 1) / 2 = (n + 7) / 8.
Proof.
  replace ((n + 3) / 4 + 1) with ((n + 3 + 1 * 4) / 4) by (rewrite Nat.div_add; lia).
  rewrite Nat.Div0.div_div. f_equal. lia.
Qed.

Lemma conv_out_s2 n : 0 < n -> conv_out n 3 2 1 = Some ((n + 1) / 2).
Proof.
  intros Hn. unfold conv_out.
  replace (n + 2 * 1 <? 3) with false by (symmetry; apply Nat.ltb_ge; lia).
  f_equal. replace (n + 1) with (n + 2 * 1 - 3 + 1 * 2) by lia.
  rewrite Nat.div_add by lia. reflexivity.
Qed.

Lemma conv_s2_gen b c c' g h w :
  0 < h -> 0 < w ->
  conv2d_shape (mkConv c c' 3 3 2 2 1 1 g) [b; c; h; w] = Some [b; c'; (h + 1) / 2; (w + 1) / 2].
Proof.
  intros Hh Hw. unfold conv2d_shape. cbn [c_in c_out k_h k_w s_h s_w p_h p_w].
  rewrite Nat.eqb_refl, !conv_out_s2 by assumption. reflexivity.
Qed.

Lemma patch_embed_shape_gen training c e b H W :
  0 < H -> 0 < W ->
  (training = true -> b * ((H + 1) / 2) * ((W + 1) / 2) <> 1 /\ b * ((H + 3) / 4) * ((W + 3) / 4) <> 1) ->
  patch_embed_shape training c e [b; c; H; W] = Some [b; (H + 3) / 4; (W + 3) / 4; e].
Proof.
  intros HH HW Ht. unfold patch_embed_shape, conv_bn_layer_shape.
  pstep conv_s2_gen. cbn [c_out].
  rewrite batch_norm2d_shape_ok by (intros E; apply (proj1 (Ht E))). cbn [obind].
  rewrite conv_s2_gen by (div_facts; lia). cbn [c_out obind].
  rewrite !ceil_half_half.
  rewrite batch_norm2d_shape_ok by (intros E; apply (proj2 (Ht E))). cbn [obind].
  sstep. reflexivity.
Qed.

Lemma batch_norm2d_shape_cases training c s :
  batch_norm2d_shape training c s = None \/ batch_norm2d_shape training c s = batch_norm2d_shape false c s.
Proof.
  unfold batch_norm2d_shape. destruct s as [|n [|c' [|h [|w [|]]]]]; auto.
  destruct (negb (c' =? c)); auto. destruct training; cbn [andb]; auto.
  destruct (n * h * w =? 1); auto.
Qed.

Lemma patch_embed_shape_cases training c e b H W :
  0 < H -> 0 < W ->
  patch_embed_shape training c e [b; c; H; W] = None \/
  patch_embed_shape training c e [b; c; H; W] = Some [b; (H + 3) / 4; (W + 3) / 4; e].
Proof.
  intros HH HW. unfold patch_embed_shape, conv_bn_layer_shape.
  pstep conv_s2_gen. cbn [c_out].
  destruct (batch_norm2d_shape_cases training (e / 2) [b; e / 2; (H + 1) / 2; (W + 1) / 2]) as [E|E];
    rewrite E; [left; reflexivity|].
  rewrite batch_norm2d_shape_ok by discriminate. cbn [obind].
  rewrite conv_s2_gen by (div_facts; lia). cbn [c_out obind].
  rewrite !ceil_half_half.
  destruct (batch_norm2d_shape_cases training e [b; e; (H + 3) / 4; (W + 3) / 4]) as [E'|E'];
    rewrite E'; [left; reflexivity|].
  rewrite batch_norm2d_shape_ok by discriminate. cbn [obind].
  right. sstep. reflexivity.
Qed.

Lemma patch_merging_shape_gen dim o b h w :
  0 < h -> 0 < w -> patch_merging_shape dim o [b; h; w; dim] = Some [b; (h + 1) / 2; w; o].
Proof.
  intros Hh Hw. unfold patch_merging_shape. sstep.
  unfold pm_reduction, conv2d_shape. cbn [c_in c_out k_h k_w s_h s_w p_h p_w].
  rewrite Nat.eqb_refl, conv_out_s2, conv_out_same by assumption. cbn [obind].
  sstep. apply layer_norm_shape4.
Qed.

Lemma view_shape_mismatch s t :
  count_infer t = 0 -> numel s <> fixed_prod t -> view_shape s t = None.
Proof.
  intros Hc Hn. unfold view_shape, infer_size. rewrite Hc.
  rewrite (proj2 (Nat.eqb_neq _ _) Hn). reflexivity.
Qed.

Lemma img2windows_shape_bad B C H W hs ws :
  0 < B -> 0 < C -> 0 < H -> 0 < W -> 0 < hs -> 0 < ws ->
  H mod hs <> 0 \/ W mod ws <> 0 ->
  img2windows_shape [B; C; H; W] hs ws = None.
Proof.
  intros HB HC HH HW Hh Hw Hm. unfold img2windows_shape, pydiv.
  rewrite (proj2 (Nat.eqb_neq hs 0)), (proj2 (Nat.eqb_neq ws 0)) by lia. cbn [obind].
  rewrite view_shape_mismatch; [reflexivity|reflexivity|].
  cbn [numel fold_right fixed_prod].
  pose proof (Nat.div_mod_eq H hs). pose proof (Nat.div_mod_eq W ws).
  assert (hs * (H / hs) * (ws * (W / ws)) < H * W) by (destruct Hm; nia).
  nia.
Qed.

Lemma im2cswin_shape_bad a B C H W hs ws :
  0 < B -> 0 < C -> 0 < H -> 0 < W -> 0 < hs -> 0 < ws ->
  cswin_split a (H, W) = Some (hs, ws) -> H mod hs <> 0 \/ W mod ws <> 0 ->
  im2cswin_shape a [B; H * W; C] (H, W) = None.
Proof.
  intros HB HC HH HW Hh Hw Hs Hm. unfold im2cswin_shape.
  sstep. vstep 0. pstep Hs. cbn beta iota. rewrite (img2windows_shape_bad B C H W hs ws) by assumption. reflexivity.
Qed.

Lemma lepe_forward_shape_bad a B C H W hs ws :
  0 < B -> 0 < C -> 0 < H -> 0 < W -> 0 < hs -> 0 < ws ->
  cswin_split a (H, W) = Some (hs, ws) -> H mod hs <> 0 \/ W mod ws <> 0 ->
  lepe_forward_shape a [3; B; H * W; C] (H, W) = None.
Proof.
  intros HB HC HH HW Hh Hw Hs Hm. unfold lepe_forward_shape.
  sstep. sstep. sstep. pstep Hs. rewrite (im2cswin_shape_bad a B C H W hs ws) by assumption. reflexivity.
Qed.

Lemma cswin_block_shape_bad dim num_heads split mlp B H W c2 h2 hd :
  0 < B -> 0 < H -> 0 < W -> 0 < split -> 0 < h2 -> 0 < hd ->
  dim / 2 = c2 -> num_heads / 2 = h2 -> c2 = h2 * hd -> dim = c2 + c2 ->
  H mod split <> 0 \/ W mod split <> 0 ->
  cswin_block_shape dim num_heads split mlp [B; H * W; dim] (H, W) = None.
Proof.
  intros HB HH HW Hs Hh2 Hhd Hd2 Hn2 Hc2 Hdim Hm.
  unfold cswin_block_shape. cbn beta iota zeta. rewrite Nat.eqb_refl. cbn [negb].
  pstep layer_norm_shape3. pstep linear_shape3. vstep (H * W). sstep.
  unfold cswin_block_attns. rewrite Hd2, Hn2. cbn [map seq]. rewrite !obind_assoc.
  sstep. replace (Nat.min c2 dim - 0) with c2 by lia.
  destruct (Nat.eq_dec (W mod split) 0) as [HmW|HmW].
  - assert (HmH : H mod split <> 0) by tauto.
    assert (EW : W = split * (W / split)) by (apply Nat.Div0.div_exact; assumption).
    assert (0 < W / split) by nia.
    rewrite (lepe_forward_shape_ok _ B c2 H W H split 1 (W / split) hd) by side_tac.
    cbn [obind]. sstep.
    replace (dim - Nat.min c2 dim) with c2 by lia.
    rewrite (lepe_forward_shape_bad _ B c2 H W split W) by (first [side_tac | left; exact HmH]).
    reflexivity.
  - rewrite (lepe_forward_shape_bad _ B c2 H W H split) by (first [side_tac | right; exact HmW]).
    reflexivity.
Qed.

Lemma lg1_layer_shape_bad training l b h w d c2 :
  0 < b -> 0 < h -> 0 < w -> 0 < c2 -> d = c2 * 2 -> 0 < layer_depth l ->
  layer_mixer_type l = "LG1"%string -> layer_embed_dim l = d ->
  cswin_block_shape c2 (layer_num_heads l) (layer_split_size l) (layer_mlp_ratio l)
    [b; h * w; c2] (h, w) = None ->
  basic_layer_shape training l [b; h; w; d] (h, w) = None.
Proof.
  intros Hb Hh Hw Hc2 -> Hdep Hmix Hdim Hblk. unfold basic_layer_shape.
  cbn beta iota zeta. rewrite Hmix, Hdim, Nat.div_mul by lia.
  cbn [String.eqb Ascii.eqb Bool.eqb andb].
  destruct (layer_depth l) as [|n]; [lia|]. cbn [iter_shape].
  sstep. vstep (h * w). pstep chunk2_shape2. rewrite Hblk. reflexivity.
Qed.

Ltac gen_side := first [ side_tac | apply Nat.mod_1_r | assumption ].

Lemma forward_features_VIPTRv2_gen training b H W hh ww :
  0 < b -> 0 < H -> 0 < W -> ((H + 3) / 4 + 1) / 2 = hh * 2 -> (W + 3) / 4 = ww * 2 ->
  (training = true -> 1 < b * hh * ww) ->
  forward_features_shape training VIPTRv2 [b; 3; H; W] = Some [b; ww * 2; 384].
Proof.
  intros Hb HH HW Eh Ew Ht. unfold forward_features_shape.
  cbn [VIPTRv2 in_chans out_dim embed_dims depths nth length last Nat.sub].
  assert (Hh : 0 < hh) by (div_facts; lia). assert (Hw : 0 < ww) by (div_facts; lia).
  assert (Hh0 : 0 < (H + 3) / 4) by (div_facts; lia).
  assert (HH2 : 1 <= (H + 1) / 2) by (div_facts; lia).
  assert (HW2 : 2 <= (W + 1) / 2) by (div_facts; lia).
  rewrite patch_embed_shape_gen by (first [assumption | intros E; specialize (Ht E); rewrite Ew; split; nia]).
  cbn [obind]. rewrite Ew. rewrite viptr_layers_VIPTRv2. cbn [layers_shape obind].
  set (h0 := (H + 3) / 4) in *.
  assert (B0 : cswin_block_shape 64 2 1 3 [b; h0 * (ww * 2); 64] (h0, ww * 2)
               = Some [b; h0 * (ww * 2); 64])
    by (apply (cswin_block_shape_ok _ _ _ _ _ _ _ 32 1 32); gen_side).
  rewrite (local1_layer_shape_ok training _ b h0 (ww * 2) 64) by layer_side.
  cbn [layer_downsampled layer_downsample layer_out_dim].
  pstep patch_merging_shape_gen. rewrite Eh. cbn [nth_error obind].
  assert (B1 : cswin_block_shape 64 4 2 4 [b; hh * 2 * (ww * 2); 64] (hh * 2, ww * 2)
               = Some [b; hh * 2 * (ww * 2); 64])
    by (apply (cswin_block_shape_ok _ _ _ _ _ _ _ 32 2 16); side_tac).
  assert (S1 : osra_sr_shape training 64 2 [b; 64; hh * 2; ww * 2] = Some [b; 64; hh; ww])
    by (apply osra_sr_shape_ok; side_pos).
  assert (B2 : osra_block_shape training 64 2 (4 / 2) 4 [b; hh * 2 * (ww * 2); 64] (hh * 2, ww * 2)
               = Some [b; hh * 2 * (ww * 2); 64])
    by (apply (osra_block_shape_ok _ _ _ _ _ _ _ _ 32 hh ww); side_tac || exact S1).
  assert (P1 : lg1_proj_shape training 128 [b; 128; hh * 2; ww * 2] = Some [b; 128; hh * 2; ww * 2])
    by (apply lg1_proj_shape_ok; side_pos).
  rewrite (lg1_layer_shape_ok training _ b (hh * 2) (ww * 2) 128 64) by layer_side.
  cbn [layer_downsampled layer_downsample layer_out_dim].
  pstep patch_merging_shape_ok. cbn [nth_error obind].
  assert (B3 : mhsa_block_shape 256 8 4 [b; hh * (ww * 2); 256] = Some [b; hh * (ww * 2); 256])
    by (apply (mhsa_block_shape_ok _ _ _ _ _ 32); side_tac).
  rewrite (global2_layer_shape_ok training _ b hh (ww * 2) 256) by layer_side.
  cbn [layer_downsampled layer_downsample layer_out_dim layers_shape nth_error obind].
  pstep layer_norm_shape4. sstep. pstep adaptive_avg_pool2d_shape_ok. sstep.
  apply linear_shape3.
Qed.

Lemma forward_features_VIPTRv2B_gen training b H W hh ww :
  0 < b -> 0 < H -> 0 < W -> ((H + 3) / 4 + 1) / 2 = hh * 2 -> (W + 3) / 4 = ww * 2 ->
  (training = true -> 1 < b * hh * ww) ->
  forward_features_shape training VIPTRv2B [b; 3; H; W] = Some [b; ww * 2; 384].
Proof.
  intros Hb HH HW Eh Ew Ht. unfold forward_features_shape.
  cbn [VIPTRv2B in_chans out_dim embed_dims depths nth length last Nat.sub].
  assert (Hh : 0 < hh) by (div_facts; lia). assert (Hw : 0 < ww) by (div_facts; lia).
  assert (Hh0 : 0 < (H + 3) / 4) by (div_facts; lia).
  assert (HH2 : 1 <= (H + 1) / 2) by (div_facts; lia).
  assert (HW2 : 2 <= (W + 1) / 2) by (div_facts; lia).
  rewrite patch_embed_shape_gen by (first [assumption | intros E; specialize (Ht E); rewrite Ew; split; nia]).
  cbn [obind]. rewrite Ew. rewrite viptr_layers_VIPTRv2B. cbn [layers_shape obind].
  set (h0 := (H + 3) / 4) in *.
  assert (B0 : cswin_block_shape 128 4 1 4 [b; h0 * (ww * 2); 128] (h0, ww * 2)
               = Some [b; h0 * (ww * 2); 128])
    by (apply (cswin_block_shape_ok _ _ _ _ _ _ _ 64 2 32); gen_side).
  rewrite (local1_layer_shape_ok training _ b h0 (ww * 2) 128) by layer_side.
  cbn [layer_downsampled layer_downsample layer_out_dim].
  pstep patch_merging_shape_gen. rewrite Eh. cbn [nth_error obind].
  assert (B1 : cswin_block_shape 128 8 2 4 [b; hh * 2 * (ww * 2); 128] (hh * 2, ww * 2)
               = Some [b; hh * 2 * (ww * 2); 128])
    by (apply (cswin_block_shape_ok _ _ _ _ _ _ _ 64 4 16); side_tac).
  assert (S1 : osra_sr_shape training 128 2 [b; 128; hh * 2; ww * 2] = Some [b; 128; hh; ww])
    by (apply osra_sr_shape_ok; side_pos).
  assert (B2 : osra_block_shape training 128 2 (8 / 2) 4 [b; hh * 2 * (ww * 2); 128]
                 (hh * 2, ww * 2) = Some [b; hh * 2 * (ww * 2); 128])
    by (apply (osra_block_shape_ok _ _ _ _ _ _ _ _ 32 hh ww); side_tac || exact S1).
  assert (P1 : lg1_proj_shape training 256 [b; 256; hh * 2; ww * 2] = Some [b; 256; hh * 2; ww * 2])
    by (apply lg1_proj_shape_ok; side_pos).
  rewrite (lg1_layer_shape_ok training _ b (hh * 2) (ww * 2) 256 128) by layer_side.
  cbn [layer_downsampled layer_downsample layer_out_dim].
  pstep patch_merging_shape_ok. cbn [nth_error obind].
  assert (B3 : mhsa_block_shape 384 12 4 [b; hh * (ww * 2); 384] = Some [b; hh * (ww * 2); 384])
    by (apply (mhsa_block_shape_ok _ _ _ _ _ 32); side_tac).
  rewrite (global2_layer_shape_ok training _ b hh (ww * 2) 384) by layer_side.
  cbn [layer_downsampled layer_downsample layer_out_dim layers_shape nth_error obind].
  pstep layer_norm_shape4. sstep. pstep adaptive_avg_pool2d_shape_ok. sstep.
  apply linear_shape3.
Qed.

Lemma forward_features_VIPTRv2_bad training b H W :
  0 < b -> 0 < H -> 0 < W ->
  (((H + 3) / 4 + 1) / 2) mod 2 <> 0 \/ ((W + 3) / 4) mod 2 <> 0 ->
  forward_features_shape training VIPTRv2 [b; 3; H; W] = None.
Proof.
  intros Hb HH HW Hm. unfold forward_features_shape.
  cbn [VIPTRv2 in_chans out_dim embed_dims depths nth length last Nat.sub].
  destruct (patch_embed_shape_cases training 3 64 b H W HH HW) as [E|E]; rewrite E;
    [reflexivity|].
  cbn [obind]. rewrite viptr_layers_VIPTRv2. cbn [layers_shape obind].
  assert (Hh0 : 0 < (H + 3) / 4) by (div_facts; lia).
  assert (Hw0 : 0 < (W + 3) / 4) by (div_facts; lia).
  set (h0 := (H + 3) / 4) in *. set (w0 := (W + 3) / 4) in *.
  assert (B0 : cswin_block_shape 64 2 1 3 [b; h0 * w0; 64] (h0, w0) = Some [b; h0 * w0; 64])
    by (apply (cswin_block_shape_ok _ _ _ _ _ _ _ 32 1 32); gen_side).
  rewrite (local1_layer_shape_ok training _ b h0 w0 64) by layer_side.
  cbn [layer_downsampled layer_downsample layer_out_dim].
  pstep patch_merging_shape_gen. cbn [nth_error obind].
  assert (Hh1 : 0 < (h0 + 1) / 2) by (div_facts; lia).
  set (h1 := (h0 + 1) / 2) in *.
  assert (B1 : cswin_block_shape 64 4 2 4 [b; h1 * w0; 64] (h1, w0) = None)
    by (apply (cswin_block_shape_bad _ _ _ _ _ _ _ 32 2 16); side_tac || assumption).
  rewrite (lg1_layer_shape_bad training _ b h1 w0 128 64) by (first [layer_side | cbn; lia]). reflexivity.
Qed.

Lemma forward_features_VIPTRv2B_bad training b H W :
  0 < b -> 0 < H -> 0 < W ->
  (((H + 3) / 4 + 1) / 2) mod 2 <> 0 \/ ((W + 3) / 4) mod 2 <> 0 ->
  forward_features_shape training VIPTRv2B [b; 3; H; W] = None.
Proof.
  intros Hb HH HW Hm. unfold forward_features_shape.
  cbn [VIPTRv2B in_chans out_dim embed_dims depths nth length last Nat.sub].
  destruct (patch_embed_shape_cases training 3 128 b H W HH HW) as [E|E]; rewrite E;
    [reflexivity|].
  cbn [obind]. rewrite viptr_layers_VIPTRv2B. cbn [layers_shape obind].
  assert (Hh0 : 0 < (H + 3) / 4) by (div_facts; lia).
  assert (Hw0 : 0 < (W + 3) / 4) by (div_facts; lia).
  set (h0 := (H + 3) / 4) in *. set (w0 := (W + 3) / 4) in *.
  assert (B0 : cswin_block_shape 128 4 1 4 [b; h0 * w0; 128] (h0, w0) = Some [b; h0 * w0; 128])
    by (apply (cswin_block_shape_ok _ _ _ _ _ _ _ 64 2 32); gen_side).
  rewrite (local1_layer_shape_ok training _ b h0 w0 128) by layer_side.
  cbn [layer_downsampled layer_downsample layer_out_dim].
  pstep patch_merging_shape_gen. cbn [nth_error obind].
  assert (Hh1 : 0 < (h0 + 1) / 2) by (div_facts; lia).
  set (h1 := (h0 + 1) / 2) in *.
  assert (B1 : cswin_block_shape 128 8 2 4 [b; h1 * w0; 128] (h1, w0) = None)
    by (apply (cswin_block_shape_bad _ _ _ _ _ _ _ 64 4 16); side_tac || assumption).
  rewrite (lg1_layer_shape_bad training _ b h1 w0 256 128) by (first [layer_side | cbn; lia]). reflexivity.
Qed.

Lemma even_half_16 n : ((n + 7) / 8) mod 2 = 0 -> (n + 7) / 8 = (n + 7) / 16 * 2.
Proof.
  intros Hm. apply Nat.Div0.div_exact in Hm. rewrite Nat.Div0.div_div in Hm.
  replace (8 * 2) with 16 in Hm by reflexivity. lia.
Qed.

Lemma even_half_8 n : ((n + 3) / 4) mod 2 = 0 -> (n + 3) / 4 = (n + 3) / 8 * 2.
Proof.
  intros Hm. apply Nat.Div0.div_exact in Hm. rewrite Nat.Div0.div_div in Hm.
  replace (4 * 2) with 8 in Hm by reflexivity. lia.
Qed.

(** For every batch size [b > 0] and image size [H x W] with [ceil(H / 8)]
    and [ceil(W / 4)] even, the encoders of [VIPTRv2] and [VIPTRv2B] map a
    [(b, 3, H, W)] input to features of shape [(b, ceil(W / 4), 384)]; in
    training mode the batch statistics of the [BatchNorm2d] layers need
    [b * ceil(H / 16) * ceil(W / 8) > 1]. *)
Theorem viptr_encoder_output_shape_any_size training b H W :
  0 < b -> 0 < H -> 0 < W -> ((H + 7) / 8) mod 2 = 0 -> ((W + 3) / 4) mod 2 = 0 ->
  (training = true -> 1 < b * ((H + 7) / 16) * ((W + 3) / 8)) ->
  forward_features_shape training VIPTRv2 [b; 3; H; W] = Some [b; (W + 3) / 4; 384] /\
  forward_features_shape training VIPTRv2B [b; 3; H; W] = Some [b; (W + 3) / 4; 384].
Proof.
  intros Hb HH HW Hh Hw Ht.
  assert (Eh : ((H + 3) / 4 + 1) / 2 = (H + 7) / 16 * 2)
    by (rewrite ceil_quarter_half; apply even_half_16; exact Hh).
  pose proof (even_half_8 W Hw) as Ew. rewrite Ew.
  split.
  - apply (forward_features_VIPTRv2_gen _ _ _ _ ((H + 7) / 16)); assumption.
  - apply (forward_features_VIPTRv2B_gen _ _ _ _ ((H + 7) / 16)); assumption.
Qed.

Lemma viptr_encoder_output_shape_any_size_witness :
  (0 < 1 /\ 0 < 28 /\ 0 < 30 /\ ((28 + 7) / 8) mod 2 = 0 /\ ((30 + 3) / 4) mod 2 = 0 /\
   (false = true -> 1 < 1 * ((28 + 7) / 16) * ((30 + 3) / 8))) /\
  forward_features_shape false VIPTRv2 [1; 3; 28; 30] = Some [1; (30 + 3) / 4; 384] /\
  forward_features_shape false VIPTRv2B [1; 3; 28; 30] = Some [1; (30 + 3) / 4; 384].
Proof.
  split; [repeat split; try reflexivity; try lia; discriminate|].
  apply (viptr_encoder_output_shape_any_size false 1 28 30); first [reflexivity | lia | discriminate].
Defined.

(** When [ceil(H / 8)] or [ceil(W / 4)] is odd, both encoders fail on a
    [(b, 3, H, W)] input, in either mode. *)
Theorem viptr_encoder_rejects_odd_grid training b H W :
  0 < b -> 0 < H -> 0 < W -> ((H + 7) / 8) mod 2 = 1 \/ ((W + 3) / 4) mod 2 = 1 ->
  forward_features_shape training VIPTRv2 [b; 3; H; W] = None /\
  forward_features_shape training VIPTRv2B [b; 3; H; W] = None.
Proof.
  intros Hb HH HW Hm. rewrite <- ceil_quarter_half in Hm.
  assert (Hm' : (((H + 3) / 4 + 1) / 2) mod 2 <> 0 \/ ((W + 3) / 4) mod 2 <> 0) by lia.
  split.
  - apply forward_features_VIPTRv2_bad; assumption.
  - apply forward_features_VIPTRv2B_bad; assumption.
Qed.

Lemma viptr_encoder_rejects_odd_grid_witness :
  (0 < 1 /\ 0 < 32 /\ 0 < 100 /\ (((32 + 7) / 8) mod 2 = 1 \/ ((100 + 3) / 4) mod 2 = 1)) /\
  forward_features_shape false VIPTRv2 [1; 3; 32; 100] = None /\
  forward_features_shape false VIPTRv2B [1; 3; 32; 100] = None.
Proof.
  split; [repeat split; try lia; right; reflexivity|].
  apply (viptr_encoder_rejects_odd_grid false 1 32 100); first [lia | right; reflexivity].
Defined.

(** A [CSWinBlock] on [(B, H * W, dim)] tokens with size [(H, W)] returns
    the same shape exactly when [split_size] divides both [H] and [W] (for
    an even [dim] whose half splits over [num_heads // 2] heads). *)
Theorem cswin_block_shape_iff dim num_heads split mlp B H W :
  0 < B -> 0 < H -> 0 < W -> 0 < split -> 0 < dim -> dim mod 2 = 0 -> 2 <= num_heads ->
  (dim / 2) mod (num_heads / 2) = 0 ->
  cswin_block_shape dim num_heads split mlp [B; H * W; dim] (H, W) = Some [B; H * W; dim] <->
  H mod split = 0 /\ W mod split = 0.
Proof.
  intros HB HH HW Hs Hd Hd2 Hn Hdiv.
  assert (Hn2 : 0 < num_heads / 2) by (div_facts; lia).
  assert (Hc2 : 0 < dim / 2) by (div_facts; lia).
  assert (Ec2 : dim / 2 = num_heads / 2 * (dim / 2 / (num_heads / 2)))
    by (apply Nat.Div0.div_exact; exact Hdiv).
  assert (Hhd : 0 < dim / 2 / (num_heads / 2)) by nia.
  assert (Edim : dim = dim / 2 + dim / 2)
    by (apply Nat.Div0.div_exact in Hd2; lia).
  split.
  - intros Hok. destruct (Nat.eq_dec (H mod split) 0) as [HmH|HmH];
      [destruct (Nat.eq_dec (W mod split) 0) as [HmW|HmW]; [split; assumption|]|];
      rewrite (cswin_block_shape_bad _ _ _ _ _ _ _ (dim / 2) (num_heads / 2)
                 (dim / 2 / (num_heads / 2))) in Hok by (first [assumption | reflexivity | tauto]);
      discriminate.
  - intros [HmH HmW].
    apply (cswin_block_shape_ok _ _ _ _ _ _ _ (dim / 2) (num_heads / 2) (dim / 2 / (num_heads / 2)));
      first [assumption | reflexivity].
Qed.

Lemma cswin_block_shape_iff_witness :
  (0 < 1 /\ 0 < 2 /\ 0 < 3 /\ 0 < 2 /\ 0 < 4 /\ 4 mod 2 = 0 /\ 2 <= 2 /\ (4 / 2) mod (2 / 2) = 0) /\
  (cswin_block_shape 4 2 2 1 [1; 2 * 3; 4] (2, 3) = Some [1; 2 * 3; 4] <->
   2 mod 2 = 0 /\ 3 mod 2 = 0).
Proof.
  split; [repeat split; reflexivity || lia|].
  apply (cswin_block_shape_iff 4 2 2 1 1 2 3); reflexivity || lia.
Defined.

(** [PatchEmbed] maps a [(b, c, H, W)] image to [(b, ceil(H / 4),
    ceil(W / 4), embed_dim)] for every size, given [b >= 2] in training
    mode. *)
Theorem patch_embed_any_size training c e b H W :
  0 < b -> 0 < H -> 0 < W -> (training = true -> 2 <= b) ->
  patch_embed_shape training c e [b; c; H; W] = Some [b; (H + 3) / 4; (W + 3) / 4; e].
Proof.
  intros Hb HH HW Ht. apply patch_embed_shape_gen; [assumption|assumption|].
  intros E. specialize (Ht E).
  assert (1 <= (H + 1) / 2) by (div_facts; lia). assert (1 <= (W + 1) / 2) by (div_facts; lia).
  assert (1 <= (H + 3) / 4) by (div_facts; lia). assert (1 <= (W + 3) / 4) by (div_facts; lia).
  split; nia.
Qed.

Lemma patch_embed_any_size_witness :
  (0 < 2 /\ 0 < 30 /\ 0 < 101 /\ (true = true -> 2 <= 2)) /\
  patch_embed_shape true 3 64 [2; 3; 30; 101] = Some [2; (30 + 3) / 4; (101 + 3) / 4; 64].
Proof.
  split; [repeat split; intros; lia|].
  apply (patch_embed_any_size true 3 64 2 30 101); intros; lia.
Defined.

(** [PatchMerging] on an odd height [2k + 1] gives height [k + 1] and
    keeps the width. *)
Theorem patch_merging_odd_height dim out_dim b k w :
  0 < w ->
  patch_merging_shape dim out_dim [b; 2 * k + 1; w; dim] = Some [b; k + 1; w; out_dim].
Proof.
  intros Hw. rewrite patch_merging_shape_gen by lia.
  replace (2 * k + 1 + 1) with ((k + 1) * 2) by lia. rewrite Nat.div_mul by lia. reflexivity.
Qed.

Lemma patch_merging_odd_height_witness :
  0 < 32 /\ patch_merging_shape 64 128 [1; 2 * 4 + 1; 32; 64] = Some [1; 4 + 1; 32; 128].
Proof. split; [lia|]. apply patch_merging_odd_height. lia. Defined.

Lemma osra_sr_shape_any training dim sr B H W :
  0 < H -> 0 < W -> (training = true -> 2 <= B) ->
  exists h' w', 0 < h' /\ 0 < w' /\
    osra_sr_shape training dim sr [B; dim; H; W] = Some [B; dim; h'; w'].
Proof.
  intros HH HW Ht. unfold osra_sr_shape.
  destruct (1 <? sr) eqn:Esr; [|exists H, W; auto].
  apply Nat.ltb_lt in Esr.
  assert (Hk : forall n, 0 < n -> (n + 2 * ((sr + 3) / 2) <? sr + 3) = false)
    by (intros n Hn; apply Nat.ltb_ge; div_facts; lia).
  set (h' := (H + 2 * ((sr + 3) / 2) - (sr + 3)) / sr + 1).
  set (w' := (W + 2 * ((sr + 3) / 2) - (sr + 3)) / sr + 1).
  assert (Hc : conv2d_shape (mkConv dim dim (sr + 3) (sr + 3) sr sr ((sr + 3) / 2) ((sr + 3) / 2) dim)
                 [B; dim; H; W] = Some [B; dim; h'; w']).
  { unfold conv2d_shape, conv_out. cbn [c_in c_out k_h k_w s_h s_w p_h p_w].
    rewrite Nat.eqb_refl, !Hk by assumption. reflexivity. }
  rewrite Hc. cbn [obind].
  assert (0 < h') by lia. assert (0 < w') by lia.
  rewrite batch_norm2d_shape_ok by (intros E; specialize (Ht E); nia). cbn [obind].
  rewrite conv1_shape by assumption. cbn [obind].
  rewrite batch_norm2d_shape_ok by (intros E; specialize (Ht E); nia).
  exists h', w'. auto.
Qed.

(** An [OSRA_Block] keeps the shape [(B, H * W, dim)] for every spatial
    reduction ratio and size, when [num_heads] divides [dim] (and [B >= 2]
    in training mode). *)
Theorem osra_block_keeps_shape training dim sr num_heads mlp B H W :
  0 < B -> 0 < H -> 0 < W -> 0 < num_heads -> 0 < dim -> dim mod num_heads = 0 ->
  (training = true -> 2 <= B) ->
  osra_block_shape training dim sr num_heads mlp [B; H * W; dim] (H, W) = Some [B; H * W; dim].
Proof.
  intros HB HH HW Hn Hd Hm Ht.
  destruct (osra_sr_shape_any training dim sr B H W HH HW Ht) as (h' & w' & Hh' & Hw' & Hsr).
  assert (Ed : dim = num_heads * (dim / num_heads)) by (apply Nat.Div0.div_exact; exact Hm).
  assert (0 < dim / num_heads) by nia.
  apply (osra_block_shape_ok training dim sr num_heads mlp B H W (dim / num_heads) h' w');
    assumption.
Qed.

Lemma osra_block_keeps_shape_witness :
  (0 < 2 /\ 0 < 5 /\ 0 < 7 /\ 0 < 2 /\ 0 < 64 /\ 64 mod 2 = 0 /\ (true = true -> 2 <= 2)) /\
  osra_block_shape true 64 4 2 4 [2; 5 * 7; 64] (5, 7) = Some [2; 5 * 7; 64].
Proof.
  split; [repeat split; intros; reflexivity || lia|].
  apply (osra_block_keeps_shape true 64 4 2 4 2 5 7); intros; reflexivity || lia.
Defined.

(** An [MHSA_Block] keeps the shape [(B, N, dim)] of a non-empty sequence
    when [num_heads] divides [dim]. *)
Theorem mhsa_block_keeps_shape dim num_heads mlp B N :
  0 < N -> 0 < dim -> 0 < num_heads -> dim mod num_heads = 0 ->
  mhsa_block_shape dim num_heads mlp [B; N; dim] = Some [B; N; dim].
Proof.
  intros HN Hd Hn Hm.
  assert (Ed : dim = num_heads * (dim / num_heads)) by (apply Nat.Div0.div_exact; exact Hm).
  assert (0 < dim / num_heads) by nia.
  apply (mhsa_block_shape_ok dim num_heads mlp B N (dim / num_heads)); assumption.
Qed.

Lemma mhsa_block_keeps_shape_witness :
  (0 < 37 /\ 0 < 256 /\ 0 < 8 /\ 256 mod 8 = 0) /\
  mhsa_block_shape 256 8 4 [3; 37; 256] = Some [3; 37; 256].
Proof.
  split; [repeat split; reflexivity || lia|].
  apply (mhsa_block_keeps_shape 256 8 4 3 37); reflexivity || lia.
Defined.

(** ** Logits of the recognition models *)

Lemma slice_shape_first_dim B N E max_length :
  slice_shape 1 0 (Some max_length) [B; N; E] = Some [B; Nat.min max_length N; E].
Proof. unfold slice_shape. cbn. rewrite Nat.sub_0_r. reflexivity. Qed.

(** The head of recognition/viptr on features [(B, N, E)] gives logits
    [(B, min(max_length, N), len(vocab) + 1)] when [E = embedding_units],
    and raises otherwise. *)
Theorem viptr_logits_shape_3d vocab embedding_units max_length B N E :
  viptr_logits_shape vocab embedding_units max_length [B; N; E] =
  if E =? embedding_units
  then Some [B; Nat.min max_length N; String.length vocab + 1] else None.
Proof.
  unfold viptr_logits_shape. rewrite slice_shape_first_dim. cbn [obind].
  unfold linear_shape. cbn [rev app]. destruct (E =? embedding_units); [|reflexivity].
  cbn [obind rev app]. vstep 0. reflexivity.
Qed.

(** The head of recognition/vip returns features [(B, N, E)] unchanged
    (not truncated to [max_length]) when [E = len(vocab) + 1]; otherwise it
    behaves as the head of recognition/viptr. *)
Theorem vip_logits_shape_3d vocab embedding_units max_length B N E :
  vip_logits_shape vocab embedding_units max_length [B; N; E] =
  if E =? String.length vocab + 1 then Some [B; N; E]
  else if E =? embedding_units
  then Some [B; Nat.min max_length N; String.length vocab + 1] else None.
Proof.
  unfold vip_logits_shape. cbn [rev app].
  destruct (E =? String.length vocab + 1); [reflexivity|]. cbn [negb].
  unfold viptr_logits_shape. rewrite slice_shape_first_dim. cbn [obind].
  unfold linear_shape. cbn [rev app]. destruct (E =? embedding_units); [|reflexivity].
  cbn [obind rev app]. vstep 0. reflexivity.
Qed.

(** Encoder and head together: for sizes as in the encoder theorem above,
    both configurations with the head of recognition/viptr
    ([embedding_units = 384]) give logits of shape [(b, min(max_length,
    ceil(W / 4)), len(vocab) + 1)]. *)
Theorem viptr_recognition_logits_shape training vocab max_length b H W :
  0 < b -> 0 < H -> 0 < W -> ((H + 7) / 8) mod 2 = 0 -> ((W + 3) / 4) mod 2 = 0 ->
  (training = true -> 1 < b * ((H + 7) / 16) * ((W + 3) / 8)) ->
  obind (forward_features_shape training VIPTRv2 [b; 3; H; W])
    (viptr_logits_shape vocab 384 max_length) =
    Some [b; Nat.min max_length ((W + 3) / 4); String.length vocab + 1] /\
  obind (forward_features_shape training VIPTRv2B [b; 3; H; W])
    (viptr_logits_shape vocab 384 max_length) =
    Some [b; Nat.min max_length ((W + 3) / 4); String.length vocab + 1].
Proof.
  intros Hb HH HW Hh Hw Ht.
  assert (Eh : ((H + 3) / 4 + 1) / 2 = (H + 7) / 16 * 2)
    by (rewrite ceil_quarter_half; apply even_half_16; exact Hh).
  pose proof (even_half_8 W Hw) as Ew. rewrite Ew.
  rewrite (forward_features_VIPTRv2_gen _ _ _ _ ((H + 7) / 16) ((W + 3) / 8)),
    (forward_features_VIPTRv2B_gen _ _ _ _ ((H + 7) / 16) ((W + 3) / 8))
    by (assumption || (rewrite <- Ew; reflexivity)).
  cbn [obind]. unfold viptr_logits_shape. rewrite slice_shape_first_dim.
  cbn [obind linear_shape rev app Nat.eqb]. vstep 0. split; reflexivity.
Qed.

(** ** Target preparation *)

Lemma str_index_In vocab ch k :
  str_index vocab ch = Some k -> In ch (list_ascii_of_string vocab).
Proof.
  revert k. induction vocab as [|c v IH]; cbn; intros k; [discriminate|].
  destruct (Ascii.eqb c ch) eqn:E.
  - apply Ascii.eqb_eq in E. intros _. left. exact E.
  - destruct (str_index v ch) as [k'|] eqn:Ei; cbn; [|discriminate].
    intros _. right. exact (IH k' eq_refl).
Qed.

Lemma str_index_None vocab ch :
  str_index vocab ch = None <-> ~ In ch (list_ascii_of_string vocab).
Proof.
  split.
  - intros H Hin. destruct (str_index_first vocab ch Hin) as [k [Hk _]]. congruence.
  - intros H. destruct (str_index vocab ch) as [k|] eqn:E; [|reflexivity].
    exfalso. exact (H (str_index_In _ _ _ E)).
Qed.

Lemma omap_None {X Y : Type} (f : X -> option Y) (l : list X) :
  omap f l = None <-> exists x, In x l /\ f x = None.
Proof.
  induction l as [|x l IH]; cbn.
  - split; [discriminate|]. intros [y [[] _]].
  - destruct (f x) as [y|] eqn:Ex; cbn.
    + destruct (omap f l) as [ys|] eqn:El; cbn.
      * split; [discriminate|]. intros [z [[<-|Hz] Hn]]; [congruence|].
        pose proof (proj2 IH (ex_intro _ z (conj Hz Hn))). congruence.
      * split; [|reflexivity]. intros _. destruct (proj1 IH eq_refl) as [z [Hz Hn]].
        exists z. split; [right; exact Hz|exact Hn].
    + split; [|reflexivity]. intros _. exists x. split; [left; reflexivity|exact Ex].
Qed.

Lemma omap_length {X Y : Type} (f : X -> option Y) (l : list X) r :
  omap f l = Some r -> length r = length l.
Proof.
  revert r. induction l as [|x l IH]; cbn; intros r.
  - intros E. injection E as <-. reflexivity.
  - destruct (f x); cbn; [|discriminate].
    destruct (omap f l) as [ys|] eqn:El; cbn; [|discriminate].
    intros E. injection E as <-. cbn. rewrite (IH ys eq_refl). reflexivity.
Qed.

(** The condition under which one row fails: a character outside the
    vocabulary ([str.index] raises [ValueError]), or a word longer than
    [max_length] that numpy cannot broadcast into the row. *)
Lemma encode_row_None vocab max_length s :
  encode_row vocab max_length s = None <->
  (exists ch, In ch (list_ascii_of_string s) /\ ~ In ch (list_ascii_of_string vocab)) \/
  (max_length < String.length s /\ String.length s <> 1).
Proof.
  unfold encode_row.
  destruct (omap (fun x => i <- str_index vocab x ;; Some (i + 1)) (list_ascii_of_string s))
    as [vals|] eqn:Ev; cbn [obind].
  - assert (Hc : ~ exists ch, In ch (list_ascii_of_string s) /\ ~ In ch (list_ascii_of_string vocab)).
    { intros [ch [Hs Hv]]. apply str_index_None in Hv.
      assert (omap (fun x => i <- str_index vocab x ;; Some (i + 1)) (list_ascii_of_string s) = None)
        as Hn by (apply omap_None; exists ch; rewrite Hv; split; [exact Hs|reflexivity]).
      congruence. }
    apply omap_length in Ev. rewrite list_ascii_of_string_length in Ev.
    unfold assign_prefix. rewrite repeat_length, Ev.
    destruct (Nat.le_gt_cases (String.length s) max_length) as [Hle|Hgt].
    + rewrite Nat.min_l, Nat.eqb_refl by exact Hle. split; [discriminate|]. intros [H|H]; [tauto|lia].
    + rewrite Nat.min_r by lia. destruct (String.length s =? max_length) eqn:E1; [apply Nat.eqb_eq in E1; lia|].
      destruct (String.length s =? 1) eqn:E2.
      * apply Nat.eqb_eq in E2. split; [discriminate|]. intros [H|H]; [tauto|lia].
      * apply Nat.eqb_neq in E2. split; [|reflexivity]. intros _. right. lia.
  - split; [|reflexivity]. intros _. left.
    destruct (proj1 (omap_None _ _) Ev) as [ch [Hs Hn]]. exists ch. split; [exact Hs|].
    apply str_index_None. destruct (str_index vocab ch); [discriminate|reflexivity].
Qed.

Lemma list_max_nat_None l : list_max_nat l = None <-> l = [].
Proof. destruct l; cbn; split; congruence. Qed.

Lemma list_max_nat_ge l m x : list_max_nat l = Some m -> In x l -> x <= m.
Proof.
  destruct l as [|y r]; cbn; [discriminate|]. intros E. injection E as <-.
  assert (G : forall acc, acc <= fold_left Nat.max r acc /\
    forall z, In z r -> z <= fold_left Nat.max r acc).
  { induction r as [|z r IH]; cbn; intros acc; [split; [lia|tauto]|].
    destruct (IH (Nat.max acc z)) as [H1 H2]. split; [lia|].
    intros w [<-|Hw]; [lia|]. apply H2. exact Hw. }
  intros Hin. destruct (G y) as [G1 G2]. destruct Hin as [<-|Hx]; [exact G1|exact (G2 x Hx)].
Qed.

(** Target preparation raises exactly when the list of words is empty,
    or a word has a character outside the vocabulary, or a word is longer
    than [max_length] without being of length 1. *)
Theorem prepare_target_fails_iff vocab max_length target :
  prepare_target vocab max_length target = None <->
  target = [] \/
  exists s, In s target /\
    ((exists ch, In ch (list_ascii_of_string s) /\ ~ In ch (list_ascii_of_string vocab)) \/
     (max_length < String.length s /\ String.length s <> 1)).
Proof.
  unfold prepare_target, build_target.
  destruct (omap (encode_row vocab max_length) target) as [rows|] eqn:Er; cbn [obind].
  - cbn [snd]. destruct (list_max_nat (map String.length target)) eqn:Em; cbn [obind].
    + split; [discriminate|].
      intros [->|[s [Hs Hb]]]; [discriminate|].
      apply encode_row_None in Hb.
      assert (omap (encode_row vocab max_length) target = None) as Hn
        by (apply omap_None; exists s; split; assumption).
      congruence.
    + apply list_max_nat_None in Em. destruct target; [|discriminate]. tauto.
  - split; [|reflexivity]. intros _. right.
    destruct (proj1 (omap_None _ _) Er) as [s [Hs Hn]]. exists s. split; [exact Hs|].
    apply encode_row_None. exact Hn.
Qed.

Lemma encode_row_length vocab max_length s r :
  encode_row vocab max_length s = Some r -> length r = max_length.
Proof.
  unfold encode_row.
  destruct (omap (fun x => i <- str_index vocab x ;; Some (i + 1)) (list_ascii_of_string s))
    as [vals|]; cbn [obind]; [|discriminate].
  unfold assign_prefix. rewrite repeat_length.
  destruct (length vals =? Nat.min (String.length s) max_length) eqn:E1.
  - apply Nat.eqb_eq in E1. intros E. injection E as <-.
    rewrite length_app, length_skipn, repeat_length. lia.
  - destruct (length vals =? 1); [|discriminate]. intros E. injection E as <-.
    rewrite length_app, length_skipn, !repeat_length. lia.
Qed.

Lemma encode_row_fits vocab max_length s r :
  0 < max_length -> encode_row vocab max_length s = Some r -> String.length s <= max_length.
Proof.
  intros Hm E. destruct (Nat.le_gt_cases (String.length s) max_length) as [H|H]; [exact H|].
  destruct (Nat.eq_dec (String.length s) 1) as [H1|H1]; [lia|].
  assert (encode_row vocab max_length s = None) as Hn
    by (apply encode_row_None; right; split; assumption).
  congruence.
Qed.

(** For [max_length > 0], when target preparation returns, the lengths
    are those of the words, and every encoded row is cut to one common width
    [w <= max_length] that is at least the length of its word, so no label
    index is dropped. *)
Theorem prepare_target_keeps_labels vocab max_length target gt seq_len :
  0 < max_length ->
  prepare_target vocab max_length target = Some (gt, seq_len) ->
  seq_len = map String.length target /\
  exists w, w <= max_length /\
    Forall2 (fun s row => exists r, encode_row vocab max_length s = Some r /\
      row = firstn w r /\ length row = w /\ String.length s <= w) target gt.
Proof.
  intros Hm. unfold prepare_target, build_target.
  destruct (omap (encode_row vocab max_length) target) as [rows|] eqn:Er;
    cbn [obind]; [|discriminate].
  cbn [fst snd]. destruct (list_max_nat (map String.length target)) as [m|] eqn:Em;
    cbn [obind]; [|discriminate].
  intros E. injection E as <- <-. split; [reflexivity|].
  exists (Nat.min (m + 1) max_length). split; [lia|].
  assert (Hall : forall s, In s target -> String.length s <= m)
    by (intros s Hs; apply (list_max_nat_ge _ _ _ Em), in_map, Hs).
  clear Em. apply omap_Some_Forall2 in Er. revert Hall.
  induction Er as [|s r target rows Hr Er IH]; intros Hall; cbn [map]; constructor.
  - exists r. pose proof (encode_row_length _ _ _ _ Hr) as Hl.
    pose proof (encode_row_fits _ _ _ _ Hm Hr) as Hf.
    pose proof (Hall s (or_introl eq_refl)) as Hs.
    split; [exact Hr|]. split; [|rewrite length_firstn; lia].
    destruct (Nat.le_gt_cases (m + 1) max_length).
    + rewrite Nat.min_l by assumption. reflexivity.
    + rewrite Nat.min_r by lia. rewrite !firstn_all2 by lia. reflexivity.
  - apply IH. intros s' Hs'. apply Hall. right. exact Hs'.
Qed.

(** ** Forward with targets *)

Section ForwardTargets.

Variables Tin Tfeat Tlogits Tpreds Tloss : Type.
Variable feat_extractor : Tin -> option Tfeat.
Variable head : Tfeat -> option Tlogits.
Variable to_float32 : Tlogits -> Tlogits.
Variable postprocessor : Tlogits -> option Tpreds.
Variable loss_fn : Tlogits -> list (list nat) -> list nat -> option Tloss.
Variable vocab : string.
Variable max_length : nat.
Variable last_dim : Tfeat -> nat.
Variable feat_as_logits : Tfeat -> Tlogits.

(** When [forward] returns with targets and [exportable = False], in
    both variants, the loss was computed on the float32 logits and on the
    prepared targets, and it is the last entry of the output. *)
Theorem forward_loss_on_prepared_target training x t return_model_output return_preds tr out :
  (forward_viptr feat_extractor head to_float32 postprocessor loss_fn vocab max_length
     training false x (Some t) return_model_output return_preds = (tr, inr out) ->
   exists f lg gt seq_len l out', feat_extractor x = Some f /\ head f = Some lg /\
     prepare_target vocab max_length t = Some (gt, seq_len) /\
     loss_fn (to_float32 lg) gt seq_len = Some l /\
     out = out' ++ [("loss"%string, VLoss l)]) /\
  (forward_vip feat_extractor head to_float32 postprocessor loss_fn vocab max_length
     last_dim feat_as_logits training false x (Some t) return_model_output return_preds = (tr, inr out) ->
   exists f lg gt seq_len l out', feat_extractor x = Some f /\
     (if last_dim f =? String.length vocab + 1 then lg = feat_as_logits f else head f = Some lg) /\
     prepare_target vocab max_length t = Some (gt, seq_len) /\
     loss_fn (to_float32 lg) gt seq_len = Some l /\
     out = out' ++ [("loss"%string, VLoss l)]).
Proof.
  split.
  - unfold forward_viptr.
    destruct (feat_extractor x) as [f|] eqn:Ef; cbn; [|discriminate].
    destruct (head f) as [lg|] eqn:Eh; cbn; [|discriminate].
    rewrite andb_false_r. unfold forward_outputs. cbn [orb is_none].
    set (out0 := if return_model_output then _ else _).
    destruct return_preds;
      [destruct (postprocessor (to_float32 lg)); cbn; [|discriminate]|cbn];
      (destruct (prepare_target vocab max_length t) as [[gt sl]|] eqn:Ep; cbn; [|discriminate]);
      (destruct (loss_fn (to_float32 lg) gt sl) as [l|] eqn:El; cbn; [|discriminate]);
      intros E; injection E as <- <-; eexists f, lg, gt, sl, l, _;
      repeat split; first [eassumption | reflexivity].
  - unfold forward_vip.
    destruct (feat_extractor x) as [f|] eqn:Ef; cbn [mbind call]; [|discriminate].
    destruct (last_dim f =? String.length vocab + 1) eqn:Ed; cbn [negb];
      [set (lg := feat_as_logits f); assert (Hl : lg = feat_as_logits f) by reflexivity; cbn
      |destruct (head f) as [lg|] eqn:Hl; cbn; [|discriminate]];
      rewrite andb_false_r; cbn;
      (destruct (prepare_target vocab max_length t) as [[gt sl]|] eqn:Ep; cbn; [|discriminate]);
      unfold forward_outputs; cbn [orb is_none];
      (destruct return_preds;
        [destruct (postprocessor (to_float32 lg)); cbn; [|discriminate]|cbn]);
      (destruct (loss_fn (to_float32 lg) gt sl) as [l|] eqn:El; cbn; [|discriminate]);
      intros E; injection E as <- <-; eexists f, lg, gt, sl, l, _;
      (split; [reflexivity|]); (split; [rewrite Ed; exact Hl|]);
      repeat split; first [eassumption | reflexivity].
Qed.

(** When target preparation rejects the targets, [forward] of
    recognition/vip raises in every mode, also with [exportable = True],
    before the postprocessor and the loss; [forward] of recognition/viptr
    raises when [exportable = False], before the loss. *)
Theorem forward_rejected_target_raises training exportable x t return_model_output return_preds :
  prepare_target vocab max_length t = None ->
  (exists tr e, forward_vip feat_extractor head to_float32 postprocessor loss_fn vocab max_length
     last_dim feat_as_logits training exportable x (Some t) return_model_output return_preds =
     (tr, inl e) /\ ~ In EPost tr /\ ~ In ELoss tr) /\
  (exists tr e, forward_viptr feat_extractor head to_float32 postprocessor loss_fn vocab max_length
     training false x (Some t) return_model_output return_preds = (tr, inl e) /\ ~ In ELoss tr).
Proof.
  intros Ep. split.
  - unfold forward_vip.
    destruct (feat_extractor x) as [f|]; cbn [mbind call].
    2: eexists _, _; split; [reflexivity|cbn; intuition discriminate].
    destruct (negb (last_dim f =? String.length vocab + 1)).
    + destruct (head f); cbn.
      2: eexists _, _; split; [reflexivity|cbn; intuition discriminate].
      rewrite andb_false_r; cbn; rewrite Ep; cbn.
      eexists _, _; split; [reflexivity|cbn; intuition discriminate].
    + cbn. rewrite andb_false_r; cbn; rewrite Ep; cbn.
      eexists _, _; split; [reflexivity|cbn; intuition discriminate].
  - unfold forward_viptr.
    destruct (feat_extractor x) as [f|]; cbn;
      [|eexists _, _; split; [reflexivity|cbn; intuition discriminate]].
    destruct (head f) as [lg|]; cbn;
      [|eexists _, _; split; [reflexivity|cbn; intuition discriminate]].
    rewrite andb_false_r. unfold forward_outputs. cbn [orb is_none].
    destruct return_preds;
      [destruct (postprocessor (to_float32 lg)); cbn|cbn];
      try rewrite Ep; cbn;
      (destruct return_model_output; cbn);
      eexists _, _; split; try reflexivity; cbn; intuition discriminate.
Qed.

End ForwardTargets.

(** ** Construction of the encoder *)

Lemma nth_error_as_nth {A : Type} (l : list A) i d :
  nth_error l i = if i <? length l then Some (nth i l d) else None.
Proof.
  destruct (i <? length l) eqn:E.
  - apply Nat.ltb_lt in E. apply nth_error_nth'. exact E.
  - apply Nat.ltb_ge in E. apply nth_error_None. exact E.
Qed.

Lemma layer_args_spec a n i :
  layer_args a n i =
  if layer_index_ok a n i then
    Some (mkLayer (nth i (embed_dims (net_cfg a)) 0)
            (if i <? n - 1 then Some (nth (S i) (embed_dims (net_cfg a)) 0) else None)
            (nth i (depths (net_cfg a)) 0) (nth i (num_heads (net_cfg a)) 0)
            (nth i (mlp_ratios (net_cfg a)) 0) (nth i (split_sizes (net_cfg a)) 0)
            (nth i (sr_ratios (net_cfg a)) 0) (nth i (mixer_types (net_cfg a)) ""%string)
            ((i =? 0) || (i =? 1)))
  else None.
Proof.
  unfold layer_args, layer_index_ok.
  rewrite !(nth_error_as_nth _ _ 0), !(nth_error_as_nth _ _ false),
    (nth_error_as_nth _ _ ""%string).
  repeat (match goal with
          | |- context [if ?b then _ else _] =>
              lazymatch b with
              | context [if _ then _ else _] => fail
              | _ => destruct b
              end
          end; cbn [obind option_map andb orb negb]); reflexivity.
Qed.

Lemma build_layers_inr ok a n is ls :
  build_layers ok a n is = inr ls <->
  (forall i, In i is -> layer_index_ok a n i = true /\ ok i = true) /\
  ls = map (fun i => mkLayer (nth i (embed_dims (net_cfg a)) 0)
            (if i <? n - 1 then Some (nth (S i) (embed_dims (net_cfg a)) 0) else None)
            (nth i (depths (net_cfg a)) 0) (nth i (num_heads (net_cfg a)) 0)
            (nth i (mlp_ratios (net_cfg a)) 0) (nth i (split_sizes (net_cfg a)) 0)
            (nth i (sr_ratios (net_cfg a)) 0) (nth i (mixer_types (net_cfg a)) ""%string)
            ((i =? 0) || (i =? 1))) is.
Proof.
  revert ls. induction is as [|i is IH]; intros ls; cbn [build_layers map].
  - split.
    + intros E. injection E as <-. split; [intros i []|reflexivity].
    + intros [_ ->]. reflexivity.
  - rewrite layer_args_spec. destruct (layer_index_ok a n i) eqn:Ei.
    + destruct (ok i) eqn:Eo.
      * destruct (build_layers ok a n is) as [err|ls'] eqn:Eb.
        -- split; [discriminate|]. intros [H _].
           pose proof (proj2 (IH _) (conj (fun j Hj => H j (or_intror Hj)) eq_refl)) as Hc.
           discriminate Hc.
        -- destruct (proj1 (IH ls') eq_refl) as [H ->]. split.
           ++ intros E. injection E as <-. split; [|reflexivity].
              intros j [<-|Hj]; [split; assumption|apply H; exact Hj].
           ++ intros [_ ->]. reflexivity.
      * split; [discriminate|]. intros [H _]. destruct (H i (or_introl eq_refl)). congruence.
    + split; [discriminate|]. intros [H _]. destruct (H i (or_introl eq_refl)). congruence.
Qed.

Lemma layer_index_ok_iff a i :
  i < length (depths (net_cfg a)) ->
  layer_index_ok a (length (depths (net_cfg a))) i = true <->
  i < length (embed_dims (net_cfg a)) /\
  (i < length (depths (net_cfg a)) - 1 -> S i < length (embed_dims (net_cfg a))) /\
  i < length (num_heads (net_cfg a)) /\ i < length (init_values a) /\
  i < length (heads_ranges a) /\ i < length (mlp_ratios (net_cfg a)) /\
  i < length (split_sizes (net_cfg a)) /\ i < length (sr_ratios (net_cfg a)) /\
  i < length (chunkwise_recurrents a) /\ i < length (use_checkpoints a) /\
  i < length (mixer_types (net_cfg a)) /\ i < length (layerscales a).
Proof.
  intros Hi. unfold layer_index_ok.
  rewrite !andb_true_iff, orb_true_iff, negb_true_iff, !Nat.ltb_lt, Nat.ltb_ge.
  split.
  - intros [[[[[[[[[[[[H1 H2] H3] H4] H5] H6] H7] H8] H9] H10] H11] H12] H13].
    repeat split; try assumption. intros Hl. destruct H2; [lia|assumption].
  - intros (H1 & H2 & H4 & H5 & H6 & H7 & H8 & H9 & H10 & H11 & H12 & H13).
    repeat split; try assumption.
    destruct (Nat.lt_ge_cases i (length (depths (net_cfg a)) - 1)); [right; auto|left; assumption].
Qed.

(** The condition for all layers at once. *)
Lemma layer_index_ok_all a :
  (forall i, In i (seq 0 (length (depths (net_cfg a)))) ->
     layer_index_ok a (length (depths (net_cfg a))) i = true) <->
  Forall (fun k => length (depths (net_cfg a)) <= k)
    [length (embed_dims (net_cfg a)); length (num_heads (net_cfg a)); length (init_values a);
     length (heads_ranges a); length (mlp_ratios (net_cfg a)); length (split_sizes (net_cfg a));
     length (sr_ratios (net_cfg a)); length (chunkwise_recurrents a); length (use_checkpoints a);
     length (mixer_types (net_cfg a)); length (layerscales a)].
Proof.
  split.
  - intros H. destruct (Nat.eq_dec (length (depths (net_cfg a))) 0) as [E0|E0].
    + rewrite E0. repeat constructor; lia.
    + assert (Hm : In (length (depths (net_cfg a)) - 1) (seq 0 (length (depths (net_cfg a)))))
        by (apply in_seq; lia).
      specialize (H _ Hm). apply layer_index_ok_iff in H; [|lia].
      destruct H as (H1 & _ & H4 & H5 & H6 & H7 & H8 & H9 & H10 & H11 & H12 & H13).
      repeat constructor; lia.
  - intros H i Hi. apply in_seq in Hi. apply layer_index_ok_iff; [lia|].
    repeat match goal with H : Forall _ (_ :: _) |- _ => inversion H; subst; clear H end.
    repeat split; lia.
Qed.

Lemma py_index_prev {A : Type} (l : list A) n :
  0 < length l -> n <= length l -> exists x, py_index l (Z.of_nat n - 1)%Z = Some x.
Proof.
  intros H0 Hn. unfold py_index.
  destruct (Z.of_nat n - 1 <? 0)%Z eqn:E.
  - apply Z.ltb_lt in E. destruct (Z.of_nat (length l) + (Z.of_nat n - 1) <? 0)%Z eqn:E2.
    + apply Z.ltb_lt in E2. lia.
    + destruct (nth_error l _) eqn:E3; [eexists; reflexivity|].
      apply nth_error_None in E3. lia.
  - apply Z.ltb_ge in E. destruct (nth_error l _) eqn:E3; [eexists; reflexivity|].
    apply nth_error_None in E3. lia.
Qed.

Lemma build_layers_viptr_layers a :
  length (depths (net_cfg a)) <= length (embed_dims (net_cfg a)) ->
  map (fun i => mkLayer (nth i (embed_dims (net_cfg a)) 0)
        (if i <? length (depths (net_cfg a)) - 1
         then Some (nth (S i) (embed_dims (net_cfg a)) 0) else None)
        (nth i (depths (net_cfg a)) 0) (nth i (num_heads (net_cfg a)) 0)
        (nth i (mlp_ratios (net_cfg a)) 0) (nth i (split_sizes (net_cfg a)) 0)
        (nth i (sr_ratios (net_cfg a)) 0) (nth i (mixer_types (net_cfg a)) ""%string)
        ((i =? 0) || (i =? 1))) (seq 0 (length (depths (net_cfg a))))
  = viptr_layers (net_cfg a).
Proof.
  intros Hn. unfold viptr_layers. apply map_ext_in. intros i Hi. apply in_seq in Hi.
  destruct (i <? length (depths (net_cfg a)) - 1) eqn:E; [|reflexivity].
  apply Nat.ltb_lt in E. rewrite (nth_error_nth' _ 0) by lia. reflexivity.
Qed.

(** [VIPTRNet(...)] returns exactly when [embed_dims] is non-empty, every
    per-layer list has at least [len(depths)] entries and every layer is
    built; its layers are then those of [viptr_layers]. *)
Theorem viptr_net_init_iff basic_layer_ok a ls :
  viptr_net_init basic_layer_ok a = inr ls <->
  ls = viptr_layers (net_cfg a) /\ 0 < length (embed_dims (net_cfg a)) /\
  Forall (fun k => length (depths (net_cfg a)) <= k)
    [length (embed_dims (net_cfg a)); length (num_heads (net_cfg a)); length (init_values a);
     length (heads_ranges a); length (mlp_ratios (net_cfg a)); length (split_sizes (net_cfg a));
     length (sr_ratios (net_cfg a)); length (chunkwise_recurrents a); length (use_checkpoints a);
     length (mixer_types (net_cfg a)); length (layerscales a)] /\
  (forall i, i < length (depths (net_cfg a)) -> basic_layer_ok i = true).
Proof.
  unfold viptr_net_init.
  destruct (nth_error (embed_dims (net_cfg a)) 0) as [e0|] eqn:E0.
  2: { split; [discriminate|]. intros (_ & H & _). apply nth_error_None in E0. lia. }
  assert (Hpos : 0 < length (embed_dims (net_cfg a)))
    by (destruct (embed_dims (net_cfg a)); [discriminate|cbn; lia]).
  destruct (py_index_prev (embed_dims (net_cfg a)) 0 Hpos ltac:(lia)) as [e1 E1].
  replace (Z.of_nat 0 - 1)%Z with (-1)%Z in E1 by reflexivity. rewrite E1.
  destruct (build_layers basic_layer_ok a (length (depths (net_cfg a)))
              (seq 0 (length (depths (net_cfg a))))) as [err|ls'] eqn:Eb.
  - split; [discriminate|]. intros (_ & _ & HF & Hok).
    assert (Hi := proj2 (layer_index_ok_all a) HF).
    pose proof (proj2 (build_layers_inr basic_layer_ok a _ _ _)
      (conj (fun i Hin => conj (Hi i Hin) (Hok i (proj2 (proj1 (in_seq _ _ _) Hin)))) eq_refl))
      as Hc.
    rewrite Eb in Hc. discriminate Hc.
  - destruct (proj1 (build_layers_inr _ _ _ _ _) Eb) as [H ->].
    assert (HF : Forall (fun k => length (depths (net_cfg a)) <= k)
      [length (embed_dims (net_cfg a)); length (num_heads (net_cfg a)); length (init_values a);
       length (heads_ranges a); length (mlp_ratios (net_cfg a)); length (split_sizes (net_cfg a));
       length (sr_ratios (net_cfg a)); length (chunkwise_recurrents a); length (use_checkpoints a);
       length (mixer_types (net_cfg a)); length (layerscales a)])
      by (apply layer_index_ok_all; intros i Hin; apply H; exact Hin).
    assert (Hn : length (depths (net_cfg a)) <= length (embed_dims (net_cfg a)))
      by (inversion HF; assumption).
    destruct (py_index_prev (embed_dims (net_cfg a)) (length (depths (net_cfg a))) Hpos Hn)
      as [e2 E2].
    rewrite E2, build_layers_viptr_layers by exact Hn. split.
    + intros E. injection E as <-. split; [reflexivity|]. split; [exact Hpos|].
      split; [exact HF|]. intros i Hi. apply H. apply in_seq. lia.
    + intros [-> _]. reflexivity.
Qed.

Lemma viptr_net_init_inr_lengths basic_layer_ok a ls :
  viptr_net_init basic_layer_ok a = inr ls ->
  Forall (fun k => length (depths (net_cfg a)) <= k)
    [length (embed_dims (net_cfg a)); length (num_heads (net_cfg a)); length (init_values a);
     length (heads_ranges a); length (mlp_ratios (net_cfg a)); length (split_sizes (net_cfg a));
     length (sr_ratios (net_cfg a)); length (chunkwise_recurrents a); length (use_checkpoints a);
     length (mixer_types (net_cfg a)); length (layerscales a)].
Proof.
  unfold viptr_net_init.
  destruct (nth_error (embed_dims (net_cfg a)) 0); [|discriminate].
  destruct (py_index (embed_dims (net_cfg a)) (-1)); [|discriminate].
  destruct (build_layers basic_layer_ok a (length (depths (net_cfg a)))
              (seq 0 (length (depths (net_cfg a))))) as [err|ls'] eqn:Eb; [discriminate|].
  intros _. destruct (proj1 (build_layers_inr _ _ _ _ _) Eb) as [H _].
  apply layer_index_ok_all. intros i Hin. apply H. exact Hin.
Qed.

(** [VIPTRNet(...)] raises when one of its per-layer list arguments is
    shorter than [depths], as the default arguments ([mixer_types] of
    length 3, [depths] of length 4) are. *)
Theorem viptr_net_init_short_list_raises basic_layer_ok a :
  Exists (fun k => k < length (depths (net_cfg a)))
    [length (embed_dims (net_cfg a)); length (num_heads (net_cfg a)); length (init_values a);
     length (heads_ranges a); length (mlp_ratios (net_cfg a)); length (split_sizes (net_cfg a));
     length (sr_ratios (net_cfg a)); length (chunkwise_recurrents a); length (use_checkpoints a);
     length (mixer_types (net_cfg a)); length (layerscales a)] ->
  exists err, viptr_net_init basic_layer_ok a = inl err.
Proof.
  intros Hx. destruct (viptr_net_init basic_layer_ok a) as [err|ls] eqn:E;
    [exists err; reflexivity|].
  exfalso. apply viptr_net_init_inr_lengths in E.
  apply (proj1 (Forall_Exists_neg _ _) (Forall_impl _ (fun k Hk => proj1 (Nat.le_ngt _ k) Hk) E)).
  exact Hx.
Qed.

Lemma viptr_net_init_short_list_raises_witness :
  Exists (fun k => k < 4) [4; 4; 4; 4; 4; 4; 4; 4; 4; 3; 4] /\
  (forall basic_layer_ok : nat -> bool,
     exists err, viptr_net_init basic_layer_ok viptr_net_defaults = inl err) /\
  viptr_net_init (fun _ => true) viptr_net_defaults = inl IndexError.
Proof.
  split; [apply Exists_exists; exists 3; split; [cbn; tauto|lia]|].
  split; [|vm_compute; reflexivity].
  intros basic_layer_ok.
  apply (viptr_net_init_short_list_raises basic_layer_ok viptr_net_defaults).
  apply Exists_exists. exists 3. split; [vm_compute; tauto|vm_compute; lia].
Defined.

(** ** Model builders *)

Lemma dict_get_set {V : Type} k k' (v : V) d :
  dict_get k' (dict_set k v d) = if String.eqb k' k then Some v else dict_get k' d.
Proof.
  induction d as [|[k1 v1] d IH]; cbn.
  - reflexivity.
  - destruct (String.eqb k k1) eqn:E1.
    + apply String.eqb_eq in E1. subst k1. cbn. destruct (String.eqb k' k); reflexivity.
    + cbn. destruct (String.eqb k' k1) eqn:E2; [|exact IH].
      apply String.eqb_eq in E2. subst k1. rewrite String.eqb_sym, E1. reflexivity.
Qed.

Lemma dict_set_keys {V : Type} k (v : V) d k' :
  In k' (map fst (dict_set k v d)) <-> k' = k \/ In k' (map fst d).
Proof.
  induction d as [|[k1 v1] d IH]; cbn.
  - intuition congruence.
  - destruct (String.eqb k k1) eqn:E1; cbn.
    + apply String.eqb_eq in E1. subst k1. intuition congruence.
    + rewrite IH. intuition congruence.
Qed.

Lemma dict_get_app {V : Type} k (d1 d2 : list (string * V)) :
  dict_get k (d1 ++ d2) = match dict_get k d1 with Some v => Some v | None => dict_get k d2 end.
Proof.
  induction d1 as [|[k1 v1] d1 IH]; cbn; [reflexivity|].
  destruct (String.eqb k k1); [reflexivity|exact IH].
Qed.

Lemma viptr_default_cfgs_get french arch cfg :
  dict_get arch (viptr_default_cfgs french) = Some cfg -> cfg = viptr_default_cfg french.
Proof.
  unfold viptr_default_cfgs. cbn.
  destruct (String.eqb arch "viptr_tiny"); [congruence|].
  destruct (String.eqb arch "viptr_base"); congruence.
Qed.

(** [_viptr] of recognition/viptr with [pretrained=True] never returns:
    [default_cfgs[arch]] has no key "classes". *)
Theorem viptr_build_pretrained_raises french arch backbone kwargs :
  exists err, viptr_build french arch true backbone kwargs = inl err.
Proof.
  unfold viptr_build.
  destruct (dict_get arch (viptr_default_cfgs french)) as [cfg|] eqn:Ea;
    [|eexists; reflexivity].
  pose proof (viptr_default_cfgs_get _ _ _ Ea) as ->.
  cbn [obind].
  change (dict_get "input_shape"%string (viptr_default_cfg french))
    with (Some (PTuple [PInt 3; PInt 32; PInt 128])).
  change (dict_get "classes"%string (viptr_default_cfg french)) with (@None pyval).
  destruct backbone as [e|]; [|eexists; reflexivity].
  match goal with |- context [bind_viptr_init ?ex ?kw] => destruct (bind_viptr_init ex kw) as [|args] end;
    [eexists; reflexivity|].
  cbv iota. destruct (viptr_init_body args); eexists; reflexivity.
Qed.

(** The keywords [**kwargs] may hold in [_viptr] of recognition/viptr. *)
Lemma bind_viptr_init_dup explicit kwargs k :
  In k (map fst kwargs) -> In k (map fst explicit) ->
  bind_viptr_init explicit kwargs = inl PyTypeError.
Proof.
  intros Hk He. unfold bind_viptr_init.
  replace (existsb _ (map fst kwargs)) with true; [reflexivity|].
  symmetry. apply existsb_exists. exists k. split; [exact Hk|].
  apply existsb_exists. exists k. split; [exact He|apply String.eqb_refl].
Qed.

Lemma bind_viptr_init_unknown explicit kwargs k :
  In k (map fst kwargs) -> ~ In k viptr_init_keywords ->
  bind_viptr_init explicit kwargs = inl PyTypeError.
Proof.
  intros Hk Hn. unfold bind_viptr_init.
  destruct (existsb _ (map fst kwargs)); [reflexivity|].
  replace (existsb _ (map fst (explicit ++ kwargs))) with true; [reflexivity|].
  symmetry. apply existsb_exists. exists k. split.
  - rewrite map_app. apply in_or_app. right. exact Hk.
  - apply negb_true_iff. destruct (existsb (String.eqb k) viptr_init_keywords) eqn:E; [|reflexivity].
    apply existsb_exists in E. destruct E as [k' [Hk' Ee]]. apply String.eqb_eq in Ee. subst k'.
    contradiction.
Qed.

(** [_viptr] of recognition/viptr raises [TypeError] on a keyword
    argument other than vocab, input_shape, output_channel, exportable and
    max_length (such as embedding_units or cfg, which it passes itself). *)
Theorem viptr_build_rejects_keyword french arch pretrained e kwargs k :
  In arch ["viptr_tiny"; "viptr_base"]%string ->
  In k (map fst kwargs) ->
  ~ In k ["vocab"; "input_shape"; "output_channel"; "exportable"; "max_length"]%string ->
  viptr_build french arch pretrained (Some e) kwargs = inl PyTypeError.
Proof.
  intros Ha Hk Hn. unfold viptr_build.
  replace (dict_get arch (viptr_default_cfgs french)) with (Some (viptr_default_cfg french))
    by (destruct Ha as [<-|[<-|[]]]; reflexivity).
  change (dict_get "input_shape"%string (viptr_default_cfg french))
    with (Some (PTuple [PInt 3; PInt 32; PInt 128])).
  cbv beta iota zeta.
  match goal with |- context [bind_viptr_init ?ex ?kw] =>
    assert (Hk2 : In k (map fst kw)) by (apply dict_set_keys; right; apply dict_set_keys; right; exact Hk);
    destruct (in_dec string_dec k (map fst ex)) as [He|He];
    [rewrite (bind_viptr_init_dup ex kw k Hk2 He); reflexivity
    |rewrite (bind_viptr_init_unknown ex kw k Hk2); [reflexivity|]] end.
  cbn in He |- *. intros Hi. apply Hn. cbn. intuition.
Qed.

Lemma bind_viptr_init_ok explicit kwargs v :
  (forall k, In k (map fst kwargs) -> ~ In k (map fst explicit)) ->
  (forall k, In k (map fst (explicit ++ kwargs)) -> In k viptr_init_keywords) ->
  dict_get "vocab" (explicit ++ kwargs) = Some v ->
  bind_viptr_init explicit kwargs =
  inr (("vocab"%string, v) ::
       map (fun '(p, d) => (p, match dict_get p (explicit ++ kwargs) with Some x => x | None => d end))
         viptr_init_defaults).
Proof.
  intros H1 H2 H3. unfold bind_viptr_init.
  destruct (existsb _ (map fst kwargs)) eqn:E1.
  { apply existsb_exists in E1. destruct E1 as [k [Hk Hx]].
    apply existsb_exists in Hx. destruct Hx as [k' [Hk' Ee]]. apply String.eqb_eq in Ee. subst k'.
    exfalso. exact (H1 k Hk Hk'). }
  destruct (existsb _ (map fst (explicit ++ kwargs))) eqn:E2.
  { apply existsb_exists in E2. destruct E2 as [k [Hk Hx]].
    apply negb_true_iff in Hx. specialize (H2 k Hk).
    assert (existsb (String.eqb k) viptr_init_keywords = true) as Ht
      by (apply existsb_exists; exists k; split; [exact H2|apply String.eqb_refl]).
    congruence. }
  rewrite H3. reflexivity.
Qed.

(** With [pretrained=False], keyword arguments among vocab, input_shape,
    output_channel, exportable and max_length, and a given vocab that has a
    length (a [str], [tuple] or [dict], as [len(vocab)] in [VIPTR.__init__]
    needs), [_viptr] of recognition/viptr builds the model with the given
    values or the defaults: vocab [VOCABS["french"]], input shape
    [(3, 32, 128)], not exportable, [max_length = 32], and embedding units
    the backbone's [out_dim]. *)
Theorem viptr_build_binds french arch e kwargs :
  In arch ["viptr_tiny"; "viptr_base"]%string ->
  (forall k, In k (map fst kwargs) ->
     In k ["vocab"; "input_shape"; "output_channel"; "exportable"; "max_length"]%string) ->
  (forall v, dict_get "vocab" kwargs = Some v -> py_sized v = true) ->
  exists model, viptr_build french arch false (Some e) kwargs = inr model /\
    dict_get "vocab" model =
      Some (match dict_get "vocab" kwargs with Some v => v | None => PStr french end) /\
    dict_get "embedding_units" model = Some (PInt e) /\
    dict_get "input_shape" model =
      Some (match dict_get "input_shape" kwargs with
            | Some s => s | None => PTuple [PInt 3; PInt 32; PInt 128] end) /\
    dict_get "exportable" model =
      Some (match dict_get "exportable" kwargs with Some x => x | None => PBool false end) /\
    dict_get "max_length" model =
      Some (match dict_get "max_length" kwargs with Some x => x | None => PInt 32 end).
Proof.
  intros Ha Hk Hs. unfold viptr_build.
  replace (dict_get arch (viptr_default_cfgs french)) with (Some (viptr_default_cfg french))
    by (destruct Ha as [<-|[<-|[]]]; reflexivity).
  change (dict_get "input_shape"%string (viptr_default_cfg french))
    with (Some (PTuple [PInt 3; PInt 32; PInt 128])).
  change (dict_get "classes"%string (viptr_default_cfg french)) with (@None pyval).
  cbv beta iota zeta.
  set (v := match dict_get "vocab" kwargs with Some v => v | None => PStr french end).
  assert (Hv : py_sized v = true)
    by (unfold v; destruct (dict_get "vocab" kwargs) as [v0|] eqn:Ev; [apply (Hs v0); first [exact Ev|reflexivity]|reflexivity]).
  set (s := match dict_get "input_shape" (dict_set "vocab" v kwargs) with
            | Some s => s | None => PTuple [PInt 3; PInt 32; PInt 128] end).
  set (ex := [("embedding_units"%string, PInt e); ("cfg"%string, PDict _)]).
  set (kw := dict_set "input_shape" s (dict_set "vocab" v kwargs)).
  assert (Hkw : forall k, In k (map fst kw) ->
     In k ["vocab"; "input_shape"; "output_channel"; "exportable"; "max_length"]%string).
  { intros k Hk'. unfold kw in Hk'. apply dict_set_keys in Hk'. destruct Hk' as [->|Hk'];
      [cbn; tauto|]. apply dict_set_keys in Hk'. destruct Hk' as [->|Hk']; [cbn; tauto|].
    exact (Hk k Hk'). }
  rewrite (bind_viptr_init_ok ex kw v).
  - assert (K1 : dict_get "input_shape" kw = Some s)
      by (unfold kw; rewrite dict_get_set; reflexivity).
    assert (K2 : dict_get "exportable" kw = dict_get "exportable" kwargs)
      by (unfold kw; rewrite !dict_get_set; reflexivity).
    assert (K3 : dict_get "max_length" kw = dict_get "max_length" kwargs)
      by (unfold kw; rewrite !dict_get_set; reflexivity).
    assert (K4 : s = match dict_get "input_shape" kwargs with
                     | Some s => s | None => PTuple [PInt 3; PInt 32; PInt 128] end)
      by (unfold s; rewrite dict_get_set; reflexivity).
    unfold ex. clearbody v s kw. cbn. rewrite Hv. cbn.
    eexists. split; [reflexivity|]. cbn.
    rewrite K1, K2, K3, K4. repeat split.
  - intros k Hk1 Hk2. apply Hkw in Hk1. cbn in Hk1, Hk2. intuition congruence.
  - intros k Hk1. rewrite map_app, in_app_iff in Hk1. destruct Hk1 as [Hk1|Hk1].
    + cbn in Hk1 |- *. intuition.
    + apply Hkw in Hk1. cbn in Hk1 |- *. intuition.
  - rewrite dict_get_app. cbn. unfold kw. rewrite !dict_get_set. reflexivity.
Qed.

Lemma bind_viptr_init_err explicit kwargs err :
  bind_viptr_init explicit kwargs = inl err -> err = PyTypeError.
Proof.
  unfold bind_viptr_init.
  destruct (existsb _ (map fst kwargs)); [congruence|].
  destruct (existsb _ (map fst (explicit ++ kwargs))); [congruence|].
  destruct (dict_get "vocab" (explicit ++ kwargs)); congruence.
Qed.

Lemma bind_viptr_init_vocab explicit kwargs args :
  bind_viptr_init explicit kwargs = inr args ->
  dict_get "vocab" args = dict_get "vocab" (explicit ++ kwargs).
Proof.
  unfold bind_viptr_init.
  destruct (existsb _ (map fst kwargs)); [discriminate|].
  destruct (existsb _ (map fst (explicit ++ kwargs))); [discriminate|].
  destruct (dict_get "vocab" (explicit ++ kwargs)) as [v|]; [|discriminate].
  intros E. injection E as <-. reflexivity.
Qed.

(** [_viptr] of recognition/viptr raises [TypeError] when it is given a
    vocab without a length, as [vocab=5]: [self.vocab_size = len(vocab)]
    in [VIPTR.__init__] fails (if the call to [VIPTR] did not already
    raise it). *)
Theorem viptr_build_unsized_vocab_raises french arch pretrained e kwargs v :
  In arch ["viptr_tiny"; "viptr_base"]%string ->
  dict_get "vocab" kwargs = Some v -> py_sized v = false ->
  viptr_build french arch pretrained (Some e) kwargs = inl PyTypeError.
Proof.
  intros Ha Hv Hn. unfold viptr_build.
  replace (dict_get arch (viptr_default_cfgs french)) with (Some (viptr_default_cfg french))
    by (destruct Ha as [<-|[<-|[]]]; reflexivity).
  change (dict_get "input_shape"%string (viptr_default_cfg french))
    with (Some (PTuple [PInt 3; PInt 32; PInt 128])).
  cbv beta iota zeta.
  match goal with |- context [bind_viptr_init ?ex ?kw] =>
    destruct (bind_viptr_init ex kw) as [err|args] eqn:Eb end.
  - apply bind_viptr_init_err in Eb. subst err. reflexivity.
  - apply bind_viptr_init_vocab in Eb. rewrite dict_get_app in Eb. cbn [dict_get] in Eb.
    rewrite !dict_get_set, Hv in Eb. cbn in Eb.
    unfold viptr_init_body. rewrite Eb, Hn. reflexivity.
Qed.

(** [_viptr] of recognition/vip never returns when a keyword argument is
    not a parameter of [VIPTR.__init__]; [include_top], which the builder
    reads itself, is one. *)
Theorem vip_build_rejects_keyword french cfgs arch pretrained backbone kwargs k :
  In k (map fst kwargs) ->
  ~ In k ["vocab"; "embedding_units"; "input_shape"; "output_channel"; "exportable";
          "max_length"]%string ->
  exists err, vip_build french cfgs arch pretrained backbone kwargs = inl err.
Proof.
  intros Hk Hn. unfold vip_build.
  destruct (dict_get arch cfgs) as [cfg|]; [|eexists; reflexivity].
  cbv beta iota zeta.
  destruct (dict_get "input_shape" cfg) as [s0|]; [|eexists; reflexivity].
  cbv beta iota zeta.
  match goal with |- context [negb (backbone ?b)] => destruct (negb (backbone b)) end;
    [eexists; reflexivity|].
  match goal with |- context [bind_viptr_init ?ex ?kw] =>
    assert (Hk2 : In k (map fst kw)) by (apply dict_set_keys; right; apply dict_set_keys; right; exact Hk);
    destruct (in_dec string_dec k (map fst ex)) as [He|He];
    [rewrite (bind_viptr_init_dup ex kw k Hk2 He); eexists; reflexivity
    |rewrite (bind_viptr_init_unknown ex kw k Hk2); [eexists; reflexivity|]] end.
  cbn in He |- *. intros Hi. apply Hn. cbn. intuition.
Qed.

(** ** Witnesses *)

Lemma viptr_recognition_logits_shape_witness :
  obind (forward_features_shape false VIPTRv2 [1; 3; 28; 30]) (viptr_logits_shape "ab" 384 5) =
    Some [1; 5; 3] /\
  obind (forward_features_shape false VIPTRv2 [1; 3; 28; 30]) (viptr_logits_shape "ab" 384 5) =
    Some [1; Nat.min 5 ((30 + 3) / 4); String.length "ab" + 1] /\
  obind (forward_features_shape false VIPTRv2B [1; 3; 28; 30]) (viptr_logits_shape "ab" 384 5) =
    Some [1; Nat.min 5 ((30 + 3) / 4); String.length "ab" + 1].
Proof.
  split; [vm_compute; reflexivity|].
  apply (viptr_recognition_logits_shape false "ab" 5 1 28 30);
    first [lia | reflexivity | intros; discriminate].
Defined.

Lemma prepare_target_keeps_labels_witness :
  prepare_target "abc" 4 ["ba"; "c"]%string = Some ([[2; 1; 0]; [3; 0; 0]], [2; 1]) /\
  [2; 1] = map String.length ["ba"; "c"]%string /\
  exists w, w <= 4 /\
    Forall2 (fun s row => exists r, encode_row "abc" 4 s = Some r /\
      row = firstn w r /\ length row = w /\ String.length s <= w)
      ["ba"; "c"]%string [[2; 1; 0]; [3; 0; 0]].
Proof.
  split; [vm_compute; reflexivity|].
  apply (prepare_target_keeps_labels "abc" 4 ["ba"; "c"]%string [[2; 1; 0]; [3; 0; 0]] [2; 1]);
    [lia|vm_compute; reflexivity].
Defined.

Lemma forward_loss_on_prepared_target_witness :
  forward_viptr (fun n : nat => Some n) (fun n : nat => Some n) (fun n => n) (fun n : nat => Some n)
    (fun _ _ _ => Some 0) "ab"%string 4 false false 7 (Some ["ab"%string]) false false =
    ([EFeat; EHead; EBuildTarget; ELoss], inr [("loss"%string, VLoss 0)]) /\
  exists f lg gt seq_len l (out' : list (string * value nat nat nat)),
    Some 7 = Some f /\ Some f = Some lg /\
    prepare_target "ab" 4 ["ab"%string] = Some (gt, seq_len) /\
    Some 0 = Some l /\
    [("loss"%string, @VLoss nat nat nat 0)] = out' ++ [("loss"%string, VLoss l)].
Proof.
  split; [reflexivity|].
  apply (proj1 (forward_loss_on_prepared_target nat nat nat nat nat (fun n : nat => Some n)
    (fun n : nat => Some n) (fun n => n) (fun n : nat => Some n) (fun _ _ _ => Some 0) "ab"%string 4
    (fun _ => 0) (fun n => n) false 7 ["ab"%string] false false
    [EFeat; EHead; EBuildTarget; ELoss] [("loss"%string, VLoss 0)])).
  reflexivity.
Defined.

Lemma forward_rejected_target_raises_witness :
  prepare_target "ab" 4 [] = None /\
  (exists tr e, forward_vip (fun n : nat => Some n) (fun n : nat => Some n) (fun n => n)
     (fun n : nat => Some n) (fun _ _ _ => @Some nat 0) "ab"%string 4 (fun _ => 0) (fun n => n)
     false true 7 (Some []) false false = (tr, inl e) /\ ~ In EPost tr /\ ~ In ELoss tr) /\
  (exists tr e, forward_viptr (fun n : nat => Some n) (fun n : nat => Some n) (fun n => n)
     (fun n : nat => Some n) (fun _ _ _ => @Some nat 0) "ab"%string 4
     false false 7 (Some []) false false = (tr, inl e) /\ ~ In ELoss tr).
Proof.
  split; [reflexivity|].
  apply (forward_rejected_target_raises nat nat nat nat nat (fun n : nat => Some n)
    (fun n : nat => Some n) (fun n => n) (fun n : nat => Some n) (fun _ _ _ => Some 0) "ab"%string 4
    (fun _ => 0) (fun n => n) false true 7 [] false false).
  reflexivity.
Defined.

Lemma viptr_net_init_iff_witness :
  viptr_net_init (fun _ => true) VIPTRv2_args = inr (viptr_layers VIPTRv2) /\
  viptr_net_init (fun _ => true) VIPTRv2B_args = inr (viptr_layers VIPTRv2B).
Proof.
  split.
  - apply (proj2 (viptr_net_init_iff (fun _ => true) VIPTRv2_args (viptr_layers VIPTRv2))).
    split; [reflexivity|]. split; [cbn; lia|]. split; [repeat constructor; cbn; lia|].
    intros; reflexivity.
  - apply (proj2 (viptr_net_init_iff (fun _ => true) VIPTRv2B_args (viptr_layers VIPTRv2B))).
    split; [reflexivity|]. split; [cbn; lia|]. split; [repeat constructor; cbn; lia|].
    intros; reflexivity.
Defined.

Lemma viptr_build_rejects_keyword_witness :
  viptr_build "FR" "viptr_tiny" true (Some 384) [("include_top", PBool true)]%string = inl PyTypeError.
Proof.
  apply (viptr_build_rejects_keyword "FR" "viptr_tiny" true 384
    [("include_top", PBool true)]%string "include_top");
    cbn; [tauto|tauto|intuition discriminate].
Defined.

Lemma viptr_build_binds_witness :
  exists model, viptr_build "FR" "viptr_base" false (Some 256)
      [("max_length", PInt 25); ("vocab", PStr "ab")]%string = inr model /\
    dict_get "vocab" model = Some (PStr "ab") /\
    dict_get "embedding_units" model = Some (PInt 256) /\
    dict_get "input_shape" model = Some (PTuple [PInt 3; PInt 32; PInt 128]) /\
    dict_get "exportable" model = Some (PBool false) /\
    dict_get "max_length" model = Some (PInt 25).
Proof.
  apply (viptr_build_binds "FR" "viptr_base" 256 [("max_length", PInt 25); ("vocab", PStr "ab")]%string).
  - cbn. tauto.
  - intros k Hk. cbn in Hk |- *. intuition.
  - intros v Hv. cbn in Hv. injection Hv as <-. reflexivity.
Defined.

Lemma vip_build_rejects_keyword_witness :
  vip_build "FR" [("vip_tiny", [("input_shape", PNone)])]%string "vip_tiny" false (fun _ => true)
    [("include_top", PBool true)]%string = inl PyTypeError /\
  exists err, vip_build "FR" [("vip_tiny", [("input_shape", PNone)])]%string "vip_tiny" false
    (fun _ => true) [("include_top", PBool true)]%string = inl err.
Proof.
  split; [reflexivity|].
  apply (vip_build_rejects_keyword "FR" [("vip_tiny", [("input_shape", PNone)])]%string "vip_tiny"
    false (fun _ => true) [("include_top", PBool true)]%string "include_top");
    cbn; [tauto|intuition discriminate].
Defined.

Lemma viptr_build_unsized_vocab_raises_witness :
  viptr_build "FR" "viptr_tiny" false (Some 384) [("vocab", PInt 5)]%string = inl PyTypeError.
Proof.
  apply (viptr_build_unsized_vocab_raises "FR" "viptr_tiny" false 384
    [("vocab", PInt 5)]%string (PInt 5)); [cbn; tauto|reflexivity|reflexivity].
Defined.
